(* ===== verification/_CoqProject ===== *)
-Q . S2P
Prelude.v
RustStd.v
Float.v
Binary64.v
Rounding.v
Accuracy.v
Parse.v
Scan.v
Stats.v
Moments.v
Median.v
MedianSpec.v
Scenarios.v
Report.v
Format.v
Termination.v
Exact.v
Debug.v
