(* ===== verification/Prelude.v ===== *)
(** * bigfilestat: streaming statistics over a file of floating-point numbers

    The program ([src/src/main.rs]) computes the count, the extrema, the
    mean, the population variance, the median and the first and last
    values of a file of numbers separated by single spaces, reading the
    file once or several times and never holding it in memory. It has three
    parts.

    - The scan engine, [file_stat::for_file]: it opens the file, splits its
      bytes on the ASCII space, decodes each chunk as UTF-8, parses it as an
      [f64] and calls a closure on the value, in file order; the first
      failure (open, read, decode, parse) ends the scan and is returned.
    - The statistics, each one or more scans with a closure over local
      variables: [len], [min_max], [average], [dispersion], [tails], and
      the median by bisection, [is_median] / [find_median] / [median].
    - The report, [main], which times each statistic with [elapsed] and
      prints it.

    ** The files

    - [Prelude.v] (this file): the tactics, the hint databases and the
      lemmas on lists, on powers of two and on sums of integers over a
      list ([zsum]) that the other files share.
    - [RustStd.v]: the fragments of Rust's library the program relies on.
      [Ordering]; [u64], [usize] and [i64] as [Z] with the wrap-around of a
      release build written out ([u64_add], [i64_add], [i64_sub],
      [i64_abs]), the same operations as a debug build checks them
      ([u64_add_debug] and the like, which return the panic message on
      overflow) and lemmas for the ranges without overflow; [Result] with
      the [?] operator ([and_then], notation [let? x := r in k]); [Run],
      the outcomes of a call that may panic or not return; [Option::expect],
      [unwrap_or], [zip]; [Vec::push], [VecDeque::push_back] and [pop_front].
    - [Float.v]: the interface between the statistics and the arithmetic.
      The class [FloatOps] names the operations of [f64] the program uses,
      [FromStr] is [parse::<f64>]; [TotalCmpLaws] and [FloatOrderLaws] state
      what the proofs need of [total_cmp] and of [<=], [min], [max]. The
      statistics and their theorems are written against these classes.
    - [Binary64.v]: the instance for IEEE 754 binary64, on the
      [spec_float] of the Standard Library at precision 53 and maximal
      exponent 1024, with the proofs of the laws. Everything computes.
    - [Rounding.v]: what the roundings of [SpecFloat] return. The
      Standard Library defines [binary_round_aux], [binary_normalize] and
      [SFdiv] by shifts of integer mantissas and proves nothing of them;
      the file proves that a result is within two units of its last place
      of the exact value, that its exponent is bounded by the magnitude,
      and that it is in canonical form ([valid]).
    - [Accuracy.v]: the value [val] of a float, an integer in units of
      [2^-2200], and on the well-formed floats ([wf]) the accuracy of
      [+], [-], [*] and of the division by a whole number, and the
      exactness of [abs], of [<=] and of the conversion of integers below
      [2^53]; [below b] is the hypothesis that a magnitude is at most
      [2^b].
    - [Parse.v]: [f64::from_str], the grammar Rust documents and the
      correctly rounded conversion ([Dec2Flt]); [parse_digits] gives the
      value of a token of decimal digits in closed form, [parse_valid]
      says that every number parsed is in canonical form.
    - [Scan.v]: files ([reader], [FileSystem]), [BufRead::split]
      ([split_bytes]), [String::from_utf8], and [for_file] with its loop
      [for_each] and item conversion [parse_item]. A closure is a function
      [St -> F -> St] on the state it captures, and [for_file] returns the
      final state with the outcome. The contract is [stream], the values
      before the first failure and that failure; [on_stream f] is what a
      statistic that computes [f] of the values returns.
    - [Stats.v]: [len], [min_max], [average], [dispersion] and [tails],
      each with the step function of its closure ([len_step], [min_step],
      [max_step], [min_max_step], [average_step], [dispersion_step],
      [tails_step]) and the reference functions on lists ([count_u64],
      [mean], [variance]).
    - [Moments.v]: the accuracy of [average] and [dispersion] in
      binary64, against the exact sum [vsum] and the exact squared
      deviations [vdev] of the values.
    - [Median.v]: [is_median] with its closure [is_median_step] and its
      test [verdict]; [find_median] with [midpoint] and [converged];
      [median]. The recursion of [find_median] is given three times: as a
      function with fuel, as the relation [Returns] with one rule per
      [return] and no fuel, and as the function [bisect] of the verdicts of
      the scans.
    - [MedianSpec.v]: the reference median, [lower_median], the element of
      index [(n - 1) / 2] of the values sorted by [total_cmp].
    - [Scenarios.v]: the program run on concrete files in binary64.
    - [Report.v]: [elapsed] and [main] as programs on an explicit world
      (the clock readings, the static [X] of [elapsed], the lines printed),
      in a monad [Prog] that stops at the first error or panic; and
      [recorded_run], the output recorded in the comment that ends
      [main.rs].
    - [Format.v]: the text of the lines, [render], from the format
      strings of [main] and the formats of Rust's library: [fmt_u64],
      [fmt_duration], [fmt_display], [fmt_debug] and [fmt_fixed], with
      the search for the shortest digits of a number, [shortest].
    - [Termination.v]: the median search in binary64 on values of
      magnitude at most [2^32] ([small]): the invariant [Inv] of the
      interval, the accuracy of [midpoint] and of [converged], and the
      induction on the number of halvings.
    - [Exact.v]: a second instance of the arithmetic interface, on the
      canonical rationals [Qc], in which no operation rounds: the program
      as the specification reads it. [Exact.parse] reads the literals of
      [Parse.v] that denote a number, without rounding.
    - [Debug.v]: the closures that count ([len_step_debug],
      [average_step_debug], [dispersion_step_debug], [is_median_step_debug])
      and the test [verdict_debug] with the checked integer operations of a
      debug build, run by [for_file_debug], a scan whose closure may
      panic.

    ** What the theorems show

    - The scan engine meets its contract: [for_file] folds the closure over
      the stream and returns its outcome ([Scan.for_file_stream]).
      [BufRead::split] and joining by the delimiter are inverse to each
      other ([split_join], [split_covers]), so the stream of a file of
      well-formed tokens is the sequence of their values
      ([stream_of_tokens]); for tokens of decimal digits decoding and
      parsing are carried out, and the stream is the sequence of the
      integers, rounded ([stream_of_naturals]). An invariant of the closure
      is an invariant of the scan ([for_file_invariant]), which bounds the
      memory of [tails] by its argument ([tails_bounded]). In binary64
      every value of a stream is in canonical form ([stream_valid]).
    - Each statistic is a function of the stream, on every outcome:
      [len_values], [average_values], [dispersion_values], [tails_values],
      [is_median_spec]; with [len_counts], [tails_lengths],
      [min_max_bounds] and [min_max_None_iff] for what the results are, and
      [statistics_fail], [median_failure] and [median_empty_panics] for the
      failures.
    - The median. The verdict of [is_median] is a comparison of counts,
      and it is [Greater] exactly when the candidate is strictly below
      the lower median ([is_median_Greater_below_median]). So the
      bisection keeps the lower median between its ends whatever the
      rounding of the midpoint does ([find_median_brackets]), and the value
      [median] returns is at most the lower median and within the
      tolerance of a value that is at least the lower median
      ([median_sound]). The branch of [find_median] that treats [Equal]
      like [Less] is what this invariant needs.
    - The search need not return. [median_diverges] gives three files on
      which no amount of fuel suffices;
      [find_median_fuel_mono] shows that fuel only cuts runs, and
      [find_median_Returns] that the runs of the model with some fuel are
      exactly the calls that return by the rules of [Returns].
    - In binary64 the search returns on values of moderate magnitude. On a
      file whose values are at most [2^32] in magnitude, [median] returns
      within 45 calls of [find_median], and its result is at most the lower
      median and less than [0.001 + 2^-17] below it
      ([Termination.median_terminates]); [main] prints its eight lines and
      returns [Ok] ([main_completes_binary64]); and for a file of decimal
      integers the hypotheses are read off the bytes
      ([median_of_naturals]). The proof bounds the error of the rounded
      midpoint by [2^-16] and that of the rounded width by [2^-17], so
      that an interval which has not converged is strictly halved, up to
      [2^-16].
    - In binary64 the mean and the variance are accurate on bounded
      values. On a file of at most [2^c] values of magnitude at most
      [2^b], [average] is within [2^(b + c - 48)] of the exact mean
      ([Moments.average_accurate]) and [dispersion] within
      [2^(2 b + c - 43)] of the exact population variance
      ([dispersion_accurate]), for [c] up to 48 and [b] between -512 and
      485. Each addition errs by at most two units of the last place of
      the largest partial sum, [n] additions by [n] times that; the
      division by the count, which converts exactly, by three units of the
      last place of the quotient; the squares are at most [2^(2 b + 4)].
      So the average is between the extrema up to that error
      ([average_near_extrema]), and for a file of decimal integers the
      bound is read off the bytes ([average_of_naturals]). On every file,
      whatever the values, a dispersion that is returned is a NaN or is not
      negative ([dispersion_sign]).
    - In exact arithmetic the search returns. With extrema at most
      [2^k * 0.001] apart, [median] returns within [k + 1] calls of
      [find_median] a value at most 0.001 below the lower median
      ([Exact.median_total]), and [main] prints its eight lines and returns
      [Ok] ([Exact.main_completes]). There the mean lies between the
      extrema, the variance is not negative and is zero on a constant file
      ([average_between_extrema], [dispersion_nonneg],
      [dispersion_constant]): the failures above are those of rounding and
      of the absolute tolerance, not of the algorithm.
    - A debug build agrees with a release build on every file of fewer than
      [i64::MAX] values: no checked operation panics and the results are
      those of the wrapping model ([Debug.debug_build_safe]). At
      [i64::MAX] equal values the builds differ, and neither gives the
      verdict of the exact counts ([verdict_at_i64_MAX]).
    - Binary64 breaks properties that hold of real numbers:
      [average_above_max], [dispersion_of_constant_nonzero];
      [scenario_empty] and [scenario_delimiters] record what happens at the
      edges of the input format.
    - The report: [elapsed_spec] for the timer, [main_report] for a
      complete run, [main_fails], [main_empty_panics] and [main_hangs] for
      the others, and [main_time_accounting] for the times printed.
    - The text of the report: the digits printed for a number are those
      of a decimal within half a unit of its last place
      ([shortest_within_half_ulp]), and the three digits printed for the
      tails are those of the nearest thousandth ([scaled_round_nearest]).
    - The recorded run: from the extrema printed, [bisect] arrives after
      sixteen halvings at the number printed as the median, bit for bit;
      the times printed satisfy [main_time_accounting]; and the lines
      rendered from the numbers and the times are the lines of the
      comment, word for word, but for the count
      ([Format.recorded_run_replays]). This checks the binary64 model of
      the midpoint and of the test of convergence, and the formats,
      against an execution of the program.

    ** Bounds and fuel

    - [find_median] recurses without a bound in the source. The model
      takes fuel, one unit per call, and returns [OutOfFuel] when it runs
      out; a theorem that a run returns names the fuel (13 calls for the
      sample file, whose extrema are 4 apart: twelve halvings bring the
      width under 0.001), and the theorems that a run does not return are
      quantified over the fuel. In exact arithmetic the fuel [k + 1] is
      enough when the extrema are at most [2^k * 0.001] apart, each call
      halving the width. In binary64 the fuel is 45 for values of
      magnitude at most [2^32]: the extrema are at most [2^33] apart, and
      44 halvings bring a width of [2^33] under [2^-11], less than the
      tolerance minus the rounding errors. [Returns] and [bisect] have no
      fuel.
    - The values of floats are integers in units of [2^-2200]
      ([vscale]): the exact product of two binary64 numbers has an
      exponent of [-2148] at least, so no quantity of the proofs is
      truncated.
    - The bound [2^32] on the magnitudes is a choice: the proof needs the
      unit of the last place of the sum of the ends, [2^-18] here, to be
      well below the tolerance. The search does not return at [1e16].
    - [usize] is taken to be 64 bits wide. The counters wrap as in a
      release build; [len_counts] asks for fewer than [2^64] tokens and the
      theorems on [is_median] for fewer than [i64::MAX], the ranges in
      which a debug build, which panics on overflow, is proved to agree.
    - [powi(2)] is one multiplication. [min] and [max] return the other
      argument when one is a NaN.

    ** What is not modelled

    - The sign and the payload of a NaN: every NaN is the one [parse]
      returns for ["NaN"], which [total_cmp] puts above [+inf].
    - That the search for the shortest digits of a number ends within 17
      digits: [shortest] returns [None] otherwise, and the text is then
      empty. The line feed that ends a line, and the buffering of the
      standard output.
    - Reads that are interrupted and retried, and files that change
      between two scans: a file is a fixed sequence of bytes followed or
      not by a read error.
    - The termination of the bisection in binary64 for magnitudes between
      [2^32] and the magnitudes at which it fails (above [2^43], where
      adjacent floats are further apart than the tolerance).
    - The accuracy of [average] and [dispersion] outside the ranges of
      [Moments.v]: more than [2^48] values, or magnitudes at which a
      partial sum or a square overflows or a square underflows.
    - In [Exact.v], the tokens ["inf"], ["infinity"] and ["nan"], which
      denote no rational number: the exact parser rejects them. *)

From Stdlib Require Import ZArith List Lia.
From Stdlib Require Import Strings.Byte.
From stdpp Require Import base tactics option list.

#[global] Open Scope Z_scope.

(** ** Hint databases

    [stat] collects the resolution hints of the development; the rewrite
    database [stat_rw] its simplification equations. *)
Create HintDb stat discriminated.
Create Rewrite HintDb stat_rw.

(** ** Tactics *)

(** [invert H] inverts [H] and substitutes the equations it produces. *)
Ltac invert H := inversion H; subst; clear H.

(** [case_if] splits on the first boolean test or [decide] of the goal. *)
Ltac case_if :=
  match goal with
  | |- context [if ?b then _ else _] =>
      let E := fresh "E" in destruct b eqn:E
  end.

(** [case_ltb] splits on the first comparison [a <? b] of the goal, on
    [nat] or [Z], and leaves the order fact as a hypothesis. *)
Ltac case_ltb :=
  match goal with
  | |- context [(?a <? ?b)%nat] => destruct (Nat.ltb_spec a b)
  | |- context [(?a <? ?b)%Z] => destruct (Z.ltb_spec a b)
  end.

(** [by_compute] proves a conjunction of closed equations by evaluating
    each in the virtual machine. *)
Ltac by_compute := repeat apply conj; vm_compute; reflexivity.

(** [by_decide] proves a decidable proposition about concrete data by
    evaluating its decision procedure. *)
Ltac by_decide := apply (bool_decide_unpack _); vm_compute; reflexivity.

(** [stat_simpl] normalises a goal with the development's equations. *)
Ltac stat_simpl := repeat (autorewrite with stat_rw in *; simpl in *).

(** ** Bytes

    Equality of bytes is decided by [Byte.eqb], so that [decide] computes. *)
#[export] Instance byte_eq_dec : EqDecision byte.
Proof.
  intros x y. destruct (Byte.eqb x y) eqn:E;
    [left; by apply byte_dec_bl|right; by apply eqb_false].
Defined.

(** ** Lists *)

Section ListFacts.
Context {A B : Type}.
Implicit Types (l : list A) (x : A).

(** A left fold over a list extended at its end. *)
Lemma fold_left_snoc (f : B -> A -> B) l x (b : B) :
  fold_left f (l ++ [x]) b = f (fold_left f l b) x.
Proof. by rewrite fold_left_app. Qed.

(** An invariant of the accumulator is preserved by a left fold. *)
Lemma fold_left_invariant (P : B -> Prop) (f : B -> A -> B) l (b : B) :
  P b -> (forall b' x, P b' -> x ∈ l -> P (f b' x)) -> P (fold_left f l b).
Proof.
  revert b. induction l as [|y l IH]; intros b Hb Hf; simpl; [done|].
  apply IH; [apply Hf; [done|left]|].
  intros b' x Hb' Hx. apply Hf; [done|by right].
Qed.

(** A fold over a pair of independent accumulators is a pair of folds. *)
Lemma fold_left_pair {C : Type} (f : B -> A -> B) (g : C -> A -> C) l b c :
  fold_left (fun st x => let '(b, c) := st in (f b x, g c x)) l (b, c) =
    (fold_left f l b, fold_left g l c).
Proof. revert b c. induction l as [|y l IH]; intros b c; simpl; [done|apply IH]. Qed.

(** Folds of functions that agree on the list agree. *)
Lemma fold_left_ext_in (f g : B -> A -> B) l b :
  (forall b' x, x ∈ l -> f b' x = g b' x) -> fold_left f l b = fold_left g l b.
Proof.
  revert b. induction l as [|y l IH]; intros b Hfg; simpl; [done|].
  rewrite Hfg by left. apply IH. intros b' x Hx. apply Hfg. by right.
Qed.

End ListFacts.

#[export] Hint Rewrite @fold_left_snoc @fold_left_app : stat_rw.

(** ** Powers of two

    The lemmas on [2 ^ n] that the proofs on binary mantissas and exponents
    share; [pow2] proves that a power of two is positive. *)

Lemma pow2_pos n : 0 <= n -> 0 < 2 ^ n.
Proof. intros. by apply Z.pow_pos_nonneg. Qed.

Lemma lt_pow2_nonneg a k : 0 <= a < 2 ^ k -> 0 <= k.
Proof.
  intros Ha. destruct (Z.le_gt_cases 0 k); [done|].
  rewrite Z.pow_neg_r in Ha; lia.
Qed.

Lemma pow2_le_mono a b : 0 <= a <= b -> 2 ^ a <= 2 ^ b.
Proof. intros. apply Z.pow_le_mono_r; lia. Qed.

Lemma pow2_lt_inv a b : 0 <= b -> 2 ^ a < 2 ^ b -> a < b.
Proof. intros Hb. apply Z.pow_lt_mono_r_iff; lia. Qed.

Lemma pow2_split a b : 0 <= a -> 0 <= b -> 2 ^ (a + b) = 2 ^ a * 2 ^ b.
Proof. intros. by apply Z.pow_add_r. Qed.

Lemma pow2_xO n : 2 ^ Z.pos n~0 = 2 ^ Z.pos n * 2 ^ Z.pos n.
Proof. rewrite <- Z.pow_add_r by lia. f_equal. lia. Qed.

Lemma pow2_xI n : 2 ^ Z.pos n~1 = 2 * (2 ^ Z.pos n * 2 ^ Z.pos n).
Proof.
  rewrite <- Z.pow_add_r, <- Z.pow_succ_r by lia. f_equal. lia.
Qed.

Lemma div_pow2_bounds m n :
  0 <= n -> m / 2 ^ n * 2 ^ n <= m < (m / 2 ^ n + 1) * 2 ^ n.
Proof.
  intros Hn. pose proof (pow2_pos n Hn).
  pose proof (Z.div_mod m (2 ^ n)). pose proof (Z.mod_pos_bound m (2 ^ n)). lia.
Qed.

#[export] Hint Resolve pow2_pos pow2_le_mono : stat.

(** [pow2 n] adds [0 < 2 ^ n] to the context, given [0 <= n] by [lia]. *)
Ltac pow2 n := pose proof (pow2_pos n ltac:(lia)).

(** [pow_consts] evaluates the closed powers of two of the goal and of the
    hypotheses, so that [lia] sees numerals. *)
Ltac is_pos_cst p :=
  match p with
  | xH => idtac
  | xO ?q => is_pos_cst q
  | xI ?q => is_pos_cst q
  end.

Ltac pow_consts :=
  repeat match goal with
  | |- context [2 ^ Z.pos ?p] =>
      is_pos_cst p; let v := eval vm_compute in (2 ^ Z.pos p) in
      change (2 ^ Z.pos p) with v
  | H : context [2 ^ Z.pos ?p] |- _ =>
      is_pos_cst p; let v := eval vm_compute in (2 ^ Z.pos p) in
      change (2 ^ Z.pos p) with v in H
  end.

(** ** Absolute values of products *)

Lemma abs_sq_lt d m : Z.abs d < m -> d * d < m * m.
Proof. intros. rewrite <- Z.abs_square. apply Z.mul_lt_mono_nonneg; lia. Qed.

Lemma abs_mul_le x y A B : Z.abs x <= A -> Z.abs y <= B -> Z.abs (x * y) <= A * B.
Proof. intros. rewrite Z.abs_mul. apply Z.mul_le_mono_nonneg; lia. Qed.

Lemma abs_scale_lt x m k : 0 < k -> Z.abs x < m -> Z.abs (x * k) < m * k.
Proof. intros. rewrite Z.abs_mul, (Z.abs_eq k) by lia. by apply Z.mul_lt_mono_pos_r. Qed.

Lemma abs_scale_le x m k : 0 < k -> Z.abs x <= m -> Z.abs (x * k) <= m * k.
Proof. intros. rewrite Z.abs_mul, (Z.abs_eq k) by lia. apply Z.mul_le_mono_nonneg_r; lia. Qed.

(** ** Sums over a list

    [zsum f xs] is the sum of the integers [f x] for [x] in [xs]. *)

Section ZSum.
Context {A : Type}.
Implicit Types (f g : A -> Z) (xs : list A).

Definition zsum f xs : Z := fold_right (fun x s => f x + s) 0 xs.

Lemma zsum_ext f g xs : (forall x, f x = g x) -> zsum f xs = zsum g xs.
Proof. intros Hfg. induction xs as [|x xs IH]; simpl; [done|]. by rewrite Hfg, IH. Qed.

Lemma zsum_linear f a k xs :
  zsum (fun x => a * f x + k) xs = a * zsum f xs + Z.of_nat (length xs) * k.
Proof. induction xs as [|x xs IH]; simpl length; simpl zsum; [lia|]. rewrite IH. lia. Qed.

Lemma zsum_sq_shift f d xs :
  zsum (fun x => (f x + d) ^ 2) xs
  = zsum (fun x => f x ^ 2) xs + 2 * d * zsum f xs + Z.of_nat (length xs) * d ^ 2.
Proof. induction xs as [|x xs IH]; simpl length; simpl zsum; [lia|]. rewrite IH. lia. Qed.

(** Sums of functions that differ by at most [e] at each element differ by
    at most [e] times the length. *)
Lemma zsum_close f g e xs :
  Forall (fun x => Z.abs (f x - g x) <= e) xs ->
  Z.abs (zsum f xs - zsum g xs) <= Z.of_nat (length xs) * e.
Proof. induction 1 as [|x xs Hx _ IH]; simpl length; simpl zsum; lia. Qed.

End ZSum.

Lemma zsum_map {A B} (h : B -> A) (f : A -> Z) (ys : list B) :
  zsum f (map h ys) = zsum (fun y => f (h y)) ys.
Proof. induction ys as [|y ys IH]; simpl; [done|]. by rewrite IH. Qed.

Lemma zsum_bound {A} (f : A -> Z) m xs :
  Forall (fun x => Z.abs (f x) <= m) xs ->
  Z.abs (zsum f xs) <= Z.of_nat (length xs) * m.
Proof. induction 1 as [|x xs Hx _ IH]; simpl length; simpl zsum; lia. Qed.

Lemma fold_left_map_r {A B C} (g : C -> B -> C) (h : A -> B) xs s :
  fold_left (fun s x => g s (h x)) xs s = fold_left g (map h xs) s.
Proof. revert s. induction xs as [|x xs IH]; intros s; simpl; [done|]. by rewrite IH. Qed.

Lemma zsum_between {A} (f : A -> Z) lo hi xs :
  Forall (fun x => lo <= f x <= hi) xs ->
  Z.of_nat (length xs) * lo <= zsum f xs <= Z.of_nat (length xs) * hi.
Proof. induction 1 as [|x xs Hx _ IH]; simpl length; simpl zsum; lia. Qed.
