(* ===== verification/RustStd.v ===== *)
(** The fragments of Rust's [core] and [std] the program relies on:
    [Ordering], the integers [u64], [i64] and [usize] with the wrap-around
    of a release build, [Result] with the [?] operator, panics, and the
    [Vec] and [VecDeque] operations [tails] calls. *)

From Stdlib Require Import ZArith List Lia String.
From stdpp Require Import base tactics option list.
From S2P Require Import Prelude.

(** ** [std::cmp::Ordering] *)

Inductive Ordering := Less | Equal | Greater.

#[export] Instance Ordering_eq_dec : EqDecision Ordering.
Proof. solve_decision. Defined.

(** [Ordering::reverse]. *)
Definition Ordering_reverse (o : Ordering) : Ordering :=
  match o with Less => Greater | Equal => Equal | Greater => Less end.

Definition Ordering_of_comparison (c : comparison) : Ordering :=
  match c with Lt => Less | Eq => Equal | Gt => Greater end.

Lemma Ordering_reverse_involutive o : Ordering_reverse (Ordering_reverse o) = o.
Proof. by destruct o. Qed.

Lemma Ordering_of_comparison_CompOpp c :
  Ordering_of_comparison (CompOpp c) = Ordering_reverse (Ordering_of_comparison c).
Proof. by destruct c. Qed.

(** ** Machine integers

    The counters of the program are [usize], [u64] and [i64]. A release
    build wraps on overflow (the run recorded at the end of [main.rs] is one);
    a debug build panics there. The operations below are the wrapping ones,
    on [Z]; the [*_exact] lemmas say when no wrap happens, which is when
    both builds agree. [usize] is taken to be 64 bits wide. *)

Definition u64_modulus : Z := 2 ^ 64.
Definition i64_MAX : Z := 2 ^ 63 - 1.
Definition i64_MIN : Z := - 2 ^ 63.

Definition in_u64 (z : Z) : Prop := 0 <= z < u64_modulus.
Definition in_i64 (z : Z) : Prop := i64_MIN <= z <= i64_MAX.

Definition wrap_u64 (z : Z) : Z := z mod u64_modulus.
Definition wrap_i64 (z : Z) : Z := (z - i64_MIN) mod u64_modulus + i64_MIN.

(** [a + b] on [u64] and [usize]. *)
Definition u64_add (a b : Z) : Z := wrap_u64 (a + b).
(** [a + b], [a - b] and [a.abs()] on [i64]. *)
Definition i64_add (a b : Z) : Z := wrap_i64 (a + b).
Definition i64_sub (a b : Z) : Z := wrap_i64 (a - b).
Definition i64_abs (a : Z) : Z := wrap_i64 (Z.abs a).

Lemma u64_modulus_val : u64_modulus = 18446744073709551616.
Proof. reflexivity. Qed.
Lemma i64_MAX_val : i64_MAX = 9223372036854775807.
Proof. reflexivity. Qed.
Lemma i64_MIN_val : i64_MIN = -9223372036854775808.
Proof. reflexivity. Qed.

(** [int_lia] decides linear goals that mention the integer ranges. *)
Ltac int_lia :=
  unfold in_u64, in_i64 in *;
  rewrite ?u64_modulus_val, ?i64_MAX_val, ?i64_MIN_val in *;
  lia.

Lemma wrap_u64_exact z : in_u64 z -> wrap_u64 z = z.
Proof. unfold in_u64, wrap_u64. intros. by apply Z.mod_small. Qed.

Lemma wrap_i64_exact z : in_i64 z -> wrap_i64 z = z.
Proof.
  unfold in_i64, wrap_i64, i64_MIN, i64_MAX, u64_modulus. intros.
  rewrite Z.mod_small; lia.
Qed.

Lemma wrap_u64_range z : in_u64 (wrap_u64 z).
Proof. unfold in_u64, wrap_u64, u64_modulus. apply Z.mod_pos_bound. lia. Qed.

Lemma wrap_i64_range z : in_i64 (wrap_i64 z).
Proof.
  unfold in_i64, wrap_i64, i64_MIN, i64_MAX, u64_modulus.
  pose proof (Z.mod_pos_bound (z - - 2 ^ 63) (2 ^ 64)). lia.
Qed.

Lemma u64_add_exact a b : in_u64 (a + b) -> u64_add a b = a + b.
Proof. apply wrap_u64_exact. Qed.

Lemma i64_add_exact a b : in_i64 (a + b) -> i64_add a b = a + b.
Proof. apply wrap_i64_exact. Qed.

Lemma i64_sub_exact a b : in_i64 (a - b) -> i64_sub a b = a - b.
Proof. apply wrap_i64_exact. Qed.

Lemma i64_abs_exact a : in_i64 (Z.abs a) -> i64_abs a = Z.abs a.
Proof. apply wrap_i64_exact. Qed.

(** Adding to a wrapped value wraps the sum. *)
Lemma u64_add_wrap a b : u64_add (wrap_u64 a) b = wrap_u64 (a + b).
Proof. unfold u64_add, wrap_u64. by rewrite Z.add_mod_idemp_l. Qed.

Lemma i64_add_wrap a b : i64_add (wrap_i64 a) b = wrap_i64 (a + b).
Proof.
  unfold i64_add, wrap_i64.
  replace ((a - i64_MIN) mod u64_modulus + i64_MIN + b - i64_MIN)
    with ((a - i64_MIN) mod u64_modulus + b) by lia.
  rewrite Z.add_mod_idemp_l by done. do 2 f_equal. lia.
Qed.

(** A counter incremented once per element of a list holds the length of
    the list, wrapped. *)
Lemma u64_count_fold {A} (l : list A) a :
  fold_left (fun n _ => u64_add n 1) l (wrap_u64 a) =
    wrap_u64 (a + Z.of_nat (length l)).
Proof.
  revert a. induction l as [|x l IH]; intros a; simpl.
  - by rewrite Z.add_0_r.
  - rewrite u64_add_wrap, IH. f_equal. lia.
Qed.

(** The one value whose absolute value does not fit: [i64::MIN.abs()] is
    [i64::MIN] again. *)
Lemma i64_abs_MIN : i64_abs i64_MIN = i64_MIN.
Proof. reflexivity. Qed.

(** *** The checks of a debug build

    A debug build panics where a release build wraps. A checked operation
    returns its result, or the message of the panic. *)

#[export] Instance in_u64_dec z : Decision (in_u64 z).
Proof. unfold in_u64. apply _. Defined.
#[export] Instance in_i64_dec z : Decision (in_i64 z).
Proof. unfold in_i64. apply _. Defined.

Definition u64_add_debug (a b : Z) : string + Z :=
  if decide (in_u64 (a + b)) then inr (a + b)
  else inl "attempt to add with overflow"%string.
Definition i64_add_debug (a b : Z) : string + Z :=
  if decide (in_i64 (a + b)) then inr (a + b)
  else inl "attempt to add with overflow"%string.
Definition i64_sub_debug (a b : Z) : string + Z :=
  if decide (in_i64 (a - b)) then inr (a - b)
  else inl "attempt to subtract with overflow"%string.
Definition i64_abs_debug (a : Z) : string + Z :=
  if decide (in_i64 (Z.abs a)) then inr (Z.abs a)
  else inl "attempt to negate with overflow"%string.

(** Where the result fits, the checked operation returns what the wrapping
    one does. *)
Lemma u64_add_debug_exact a b :
  in_u64 (a + b) -> u64_add_debug a b = inr (u64_add a b).
Proof.
  intros Hr. unfold u64_add_debug. rewrite decide_True by done.
  by rewrite u64_add_exact.
Qed.
Lemma i64_add_debug_exact a b :
  in_i64 (a + b) -> i64_add_debug a b = inr (i64_add a b).
Proof.
  intros Hr. unfold i64_add_debug. rewrite decide_True by done.
  by rewrite i64_add_exact.
Qed.
Lemma i64_sub_debug_exact a b :
  in_i64 (a - b) -> i64_sub_debug a b = inr (i64_sub a b).
Proof.
  intros Hr. unfold i64_sub_debug. rewrite decide_True by done.
  by rewrite i64_sub_exact.
Qed.
Lemma i64_abs_debug_exact a :
  in_i64 (Z.abs a) -> i64_abs_debug a = inr (i64_abs a).
Proof.
  intros Hr. unfold i64_abs_debug. rewrite decide_True by done.
  by rewrite i64_abs_exact.
Qed.

(** Sequencing of checked operations: the first panic ends the
    computation. *)
Definition then_debug {A B} (c : string + A) (k : A -> string + B) : string + B :=
  match c with
  | inr a => k a
  | inl msg => inl msg
  end.

(** ** [Result] and the [?] operator

    [file_stat::Result<T>] is [Result<T, Box<dyn Error>>]. The boxed errors of
    the program come from three places: [File::open] and the reads behind
    [split] ([io::Error]), [String::from_utf8] and [str::parse::<f64>]
    (whose [ParseFloatError] is either of an empty or of an invalid
    string). *)

Inductive FloatErrorKind := Empty | Invalid.

Inductive Error :=
  | IoError
  | FromUtf8Error
  | ParseFloatError (kind : FloatErrorKind).

Inductive Result (A : Type) : Type :=
  | Ok (a : A)
  | Err (e : Error).
Arguments Ok {A} a.
Arguments Err {A} e.

#[export] Instance FloatErrorKind_eq_dec : EqDecision FloatErrorKind.
Proof. solve_decision. Defined.
#[export] Instance Error_eq_dec : EqDecision Error.
Proof. solve_decision. Defined.
#[export] Instance Result_eq_dec `{EqDecision A} : EqDecision (Result A).
Proof. solve_decision. Defined.

(** [r?] followed by [k]: an error returns at once. *)
Definition and_then {A B} (r : Result A) (k : A -> Result B) : Result B :=
  match r with
  | Ok a => k a
  | Err e => Err e
  end.

Definition is_ok {A} (r : Result A) : bool :=
  match r with Ok _ => true | Err _ => false end.

Declare Scope result_scope.
Delimit Scope result_scope with result.
Bind Scope result_scope with Result.
Notation "'let?' x ':=' r 'in' k" := (and_then r (fun x => k))
  (at level 10, x pattern, r at level 100, k at level 200,
   format "'[v' 'let?'  x  ':='  r  'in' '/' k ']'") : result_scope.
#[global] Open Scope result_scope.

Section ResultFacts.
Context {A B C : Type}.

Lemma and_then_Ok (a : A) (k : A -> Result B) : and_then (Ok a) k = k a.
Proof. reflexivity. Qed.

Lemma and_then_Err e (k : A -> Result B) : and_then (Err e) k = Err e.
Proof. reflexivity. Qed.

Lemma and_then_ret (r : Result A) : and_then r Ok = r.
Proof. by destruct r. Qed.

Lemma and_then_assoc (r : Result A) (k : A -> Result B) (h : B -> Result C) :
  and_then (and_then r k) h = and_then r (fun a => and_then (k a) h).
Proof. by destruct r. Qed.

(** A sequence succeeds exactly when both of its parts do. *)
Lemma and_then_Ok_inv (r : Result A) (k : A -> Result B) b :
  and_then r k = Ok b <-> exists a, r = Ok a /\ k a = Ok b.
Proof.
  destruct r as [a|e]; simpl; split.
  - intros Hk. by exists a.
  - intros (a' & ? & ?). by simplify_eq.
  - done.
  - intros (a' & ? & ?). by simplify_eq.
Qed.

(** It fails when the first part fails, or the first succeeds and the
    second fails. *)
Lemma and_then_Err_inv (r : Result A) (k : A -> Result B) e :
  and_then r k = Err e <-> r = Err e \/ exists a, r = Ok a /\ k a = Err e.
Proof.
  destruct r as [a|e']; simpl; split.
  - intros Hk. right. by exists a.
  - intros [?|(a' & ? & ?)]; by simplify_eq.
  - intros Heq. left. by simplify_eq.
  - intros [?|(a' & ? & ?)]; by simplify_eq.
Qed.

End ResultFacts.

#[export] Hint Rewrite @and_then_Ok @and_then_Err @and_then_ret : stat_rw.

(** ** Runs that may panic or not return

    [median] panics on an empty stream ([expect]) and recurses without a
    bound, so a run of it either finishes with a [Result], panics with a
    message, or is cut by the fuel of the model. *)

Inductive Run (A : Type) : Type :=
  | Finished (r : Result A)
  | Panicked (msg : string)
  | OutOfFuel.
Arguments Finished {A} r.
Arguments Panicked {A} msg.
Arguments OutOfFuel {A}.

(** [Option::expect]. *)
Definition expect {A} (o : option A) (msg : string) : Run A :=
  match o with
  | Some a => Finished (Ok a)
  | None => Panicked msg
  end.

(** ** [Vec] and [VecDeque]

    Both are lists, front first. *)

Definition Vec_push {A} (v : list A) (x : A) : list A := v ++ [x].
Definition VecDeque_push_back {A} (q : list A) (x : A) : list A := q ++ [x].
(** [pop_front] removes the front element, if any; [tails] drops the
    element it returns. *)
Definition VecDeque_pop_front {A} (q : list A) : list A := tail q.

(** ** [Option] *)

(** [o.unwrap_or(d)]. *)
Definition unwrap_or {A} (o : option A) (d : A) : A :=
  match o with Some a => a | None => d end.

(** [a.zip(b)]. *)
Definition Option_zip {A B} (a : option A) (b : option B) : option (A * B) :=
  match a, b with
  | Some x, Some y => Some (x, y)
  | _, _ => None
  end.
