(* ===== verification/Float.v ===== *)
(** The interface between the statistics and floating-point arithmetic.

    [FloatOps] lists the operations of [f64] the program uses, each under
    the name of the Rust method or operator it stands for; [FromStr] is
    [str::parse::<f64>]. The statistics are written against these classes.
    [TotalCmpLaws] and [FloatOrderLaws] state what the proofs need of the
    two orders of [f64] (the total order of [total_cmp] and the partial
    order of [<=]); [Binary64.v] discharges them for IEEE 754 binary64. *)

From Stdlib Require Import ZArith List Lia.
From Stdlib Require Import Strings.Byte.
From stdpp Require Import base tactics option list.
From S2P Require Import Prelude RustStd.

(** ** The operations *)

Class FloatOps (F : Type) : Type := {
  (** the literals [0.0], [2.0] and [0.001] *)
  f_zero : F;
  f_two : F;
  f_tol : F;
  (** [x + y], [x - y], [x * y], [x / y] *)
  f_add : F -> F -> F;
  f_sub : F -> F -> F;
  f_mul : F -> F -> F;
  f_div : F -> F -> F;
  (** [x.abs()], [x.min(y)], [x.max(y)] *)
  f_abs : F -> F;
  f_min : F -> F -> F;
  f_max : F -> F -> F;
  (** [x <= y] *)
  f_le : F -> F -> bool;
  (** [x.total_cmp(&y)] *)
  total_cmp : F -> F -> Ordering;
  (** [n as f64], for [n : u64] *)
  of_u64 : Z -> F;
}.

(** [s.parse::<f64>()] on the bytes of [s]. *)
Class FromStr (F : Type) : Type :=
  from_str : list byte -> Result F.

Section Derived.
Context {F : Type} `{FloatOps F}.

(** [x.powi(2)]: one multiplication. *)
Definition powi2 (x : F) : F := f_mul x x.

(** [x] is not a NaN: it compares [<=] to itself. *)
Definition ordered (x : F) : Prop := f_le x x = true.

(** The orders of [total_cmp]. *)
Definition tlt (x y : F) : Prop := total_cmp x y = Less.
Definition tle (x y : F) : Prop := total_cmp x y <> Greater.

#[export] Instance ordered_dec x : Decision (ordered x).
Proof. unfold ordered. apply _. Defined.
#[export] Instance tlt_dec x y : Decision (tlt x y).
Proof. unfold tlt. apply _. Defined.
#[export] Instance tle_dec x y : Decision (tle x y).
Proof. unfold tle. apply _. Defined.

End Derived.

(** ** The laws *)

(** [total_cmp] is a total order whose [Equal] is equality. *)
Class TotalCmpLaws (F : Type) `{FloatOps F} : Prop := {
  total_cmp_refl x : total_cmp x x = Equal;
  total_cmp_Equal x y : total_cmp x y = Equal -> x = y;
  total_cmp_reverse x y : total_cmp y x = Ordering_reverse (total_cmp x y);
  total_cmp_trans x y z : tlt x y -> tlt y z -> tlt x z;
}.

(** [<=] is a total preorder on the ordered values (those that are not NaN),
    coarser there than [total_cmp] (which separates [-0.0] from [0.0]); a
    difference that is [<=] something has ordered operands; [min] and [max]
    pick one of their arguments, and ignore a NaN. *)
Class FloatOrderLaws (F : Type) `{FloatOps F} : Prop := {
  #[global] float_total_cmp_laws :: TotalCmpLaws F;
  f_le_ordered x y : f_le x y = true -> ordered x /\ ordered y;
  f_le_trans x y z : f_le x y = true -> f_le y z = true -> f_le x z = true;
  f_le_total x y : ordered x -> ordered y -> f_le x y = true \/ f_le y x = true;
  f_le_of_tle x y : ordered x -> ordered y -> tle x y -> f_le x y = true;
  f_sub_abs_le_ordered x y t :
    f_le (f_abs (f_sub x y)) t = true -> ordered x /\ ordered y;
  f_min_ordered x y : ordered x -> ordered y ->
    (f_min x y = x \/ f_min x y = y) /\
    f_le (f_min x y) x = true /\ f_le (f_min x y) y = true;
  f_max_ordered x y : ordered x -> ordered y ->
    (f_max x y = x \/ f_max x y = y) /\
    f_le x (f_max x y) = true /\ f_le y (f_max x y) = true;
  f_min_unordered_l x y : ~ ordered x -> f_min x y = y;
  f_min_unordered_r x y : ordered x -> ~ ordered y -> f_min x y = x;
  f_max_unordered_l x y : ~ ordered x -> f_max x y = y;
  f_max_unordered_r x y : ordered x -> ~ ordered y -> f_max x y = x;
}.

(** ** Consequences of the laws of [total_cmp] *)

Section TotalCmpFacts.
Context {F : Type} `{TotalCmpLaws F}.
Implicit Types x y z : F.

Lemma total_cmp_Greater_Less x y : total_cmp x y = Greater <-> total_cmp y x = Less.
Proof.
  rewrite (total_cmp_reverse x y). destruct (total_cmp x y); simpl; split; congruence.
Qed.

Lemma total_cmp_Equal_iff x y : total_cmp x y = Equal <-> x = y.
Proof.
  split; [apply total_cmp_Equal|intros ->; apply total_cmp_refl].
Qed.

Lemma tle_refl x : tle x x.
Proof. unfold tle. by rewrite total_cmp_refl. Qed.

Lemma tle_iff x y : tle x y <-> tlt x y \/ x = y.
Proof.
  unfold tle, tlt. rewrite <- total_cmp_Equal_iff.
  destruct (total_cmp x y); intuition congruence.
Qed.

Lemma tlt_irrefl x : ~ tlt x x.
Proof. unfold tlt. by rewrite total_cmp_refl. Qed.

Lemma tlt_tle x y : tlt x y -> tle x y.
Proof. unfold tlt, tle. congruence. Qed.

Lemma tlt_not_tle x y : tlt x y <-> ~ tle y x.
Proof.
  unfold tlt, tle. rewrite <- total_cmp_Greater_Less.
  destruct (total_cmp y x); intuition congruence.
Qed.

Lemma tle_total x y : tle x y \/ tle y x.
Proof.
  destruct (decide (tle x y)) as [?|Hn]; [by left|].
  right. apply tlt_tle. by apply tlt_not_tle.
Qed.

Lemma tle_trans x y z : tle x y -> tle y z -> tle x z.
Proof.
  rewrite !tle_iff. intros [Hxy| ->] [Hyz| ->]; eauto using total_cmp_trans.
Qed.

Lemma tlt_tle_trans x y z : tlt x y -> tle y z -> tlt x z.
Proof.
  rewrite tle_iff. intros Hxy [Hyz| <-]; eauto using total_cmp_trans.
Qed.

Lemma tle_tlt_trans x y z : tle x y -> tlt y z -> tlt x z.
Proof.
  rewrite tle_iff. intros [Hxy| ->] Hyz; eauto using total_cmp_trans.
Qed.

Lemma tle_antisym x y : tle x y -> tle y x -> x = y.
Proof.
  rewrite tle_iff. intros [Hxy| ->] Hyx; [|done].
  apply tlt_not_tle in Hxy. contradiction.
Qed.

#[export] Instance tle_preorder : PreOrder (@tle F _).
Proof. split; [exact tle_refl|exact tle_trans]. Qed.

#[export] Instance tle_total_inst : Total (@tle F _).
Proof. exact tle_total. Qed.

End TotalCmpFacts.

#[export] Hint Resolve tle_refl tlt_tle : stat.

(** ** Consequences of the laws of [<=], [min] and [max] *)

Section FloatOrderFacts.
Context {F : Type} `{FloatOrderLaws F}.
Implicit Types (x y z : F) (Q : F -> Prop).

Lemma f_le_refl x : ordered x -> f_le x x = true.
Proof. done. Qed.

Lemma f_le_ordered_l x y : f_le x y = true -> ordered x.
Proof. intros Hxy. by apply f_le_ordered in Hxy as [? ?]. Qed.

Lemma f_le_ordered_r x y : f_le x y = true -> ordered y.
Proof. intros Hxy. by apply f_le_ordered in Hxy as [? ?]. Qed.

(** [min] and [max] return one of their arguments. *)
Lemma f_min_cases x y : f_min x y = x \/ f_min x y = y.
Proof.
  destruct (decide (ordered x)) as [Hx|Hx]; [|right; by apply f_min_unordered_l].
  destruct (decide (ordered y)) as [Hy|Hy]; [|left; by apply f_min_unordered_r].
  by destruct (f_min_ordered x y Hx Hy) as [? _].
Qed.

Lemma f_max_cases x y : f_max x y = x \/ f_max x y = y.
Proof.
  destruct (decide (ordered x)) as [Hx|Hx]; [|right; by apply f_max_unordered_l].
  destruct (decide (ordered y)) as [Hy|Hy]; [|left; by apply f_max_unordered_r].
  by destruct (f_max_ordered x y Hx Hy) as [? _].
Qed.

Lemma f_min_idem x : f_min x x = x.
Proof. by destruct (f_min_cases x x). Qed.

Lemma f_max_idem x : f_max x x = x.
Proof. by destruct (f_max_cases x x). Qed.

(** [m] is below (above) every ordered value of [Q]. *)
Definition lower_bound (m : F) Q : Prop :=
  forall y, Q y -> ordered y -> f_le m y = true.
Definition upper_bound (m : F) Q : Prop :=
  forall y, Q y -> ordered y -> f_le y m = true.

(** Taking the [min] with a new value keeps a lower bound of the values seen,
    the new one included; NaNs on either side are passed over. *)
Lemma f_min_lower_bound x lo Q :
  lower_bound lo Q -> lower_bound (f_min x lo) (fun y => Q y \/ y = x).
Proof.
  intros Hlo y Hy Hoy.
  destruct (decide (ordered x)) as [Hx|Hx].
  - destruct (decide (ordered lo)) as [Hl|Hl].
    + destruct (f_min_ordered x lo Hx Hl) as (_ & Hmx & Hml).
      destruct Hy as [Hy| ->]; [|done].
      eapply f_le_trans; [exact Hml|by apply Hlo].
    + rewrite f_min_unordered_r by done.
      destruct Hy as [Hy| ->]; [|done].
      pose proof (Hlo y Hy Hoy) as Hly. by apply f_le_ordered_l in Hly.
  - rewrite f_min_unordered_l by done.
    destruct Hy as [Hy| ->]; [by apply Hlo|done].
Qed.

Lemma f_max_upper_bound x hi Q :
  upper_bound hi Q -> upper_bound (f_max x hi) (fun y => Q y \/ y = x).
Proof.
  intros Hhi y Hy Hoy.
  destruct (decide (ordered x)) as [Hx|Hx].
  - destruct (decide (ordered hi)) as [Hh|Hh].
    + destruct (f_max_ordered x hi Hx Hh) as (_ & Hmx & Hmh).
      destruct Hy as [Hy| ->]; [|done].
      eapply f_le_trans; [by apply Hhi|exact Hmh].
    + rewrite f_max_unordered_r by done.
      destruct Hy as [Hy| ->]; [|done].
      pose proof (Hhi y Hy Hoy) as Hyh. by apply f_le_ordered_r in Hyh.
  - rewrite f_max_unordered_l by done.
    destruct Hy as [Hy| ->]; [by apply Hhi|done].
Qed.

End FloatOrderFacts.
