(* ===== verification/Binary64.v ===== *)
(** IEEE 754 binary64, the [f64] of the program.

    Values are the [spec_float] of the Standard Library's [SpecFloat]
    (the specification of Flocq's binary floats, without NaN payloads)
    at precision 53 and maximal exponent 1024; the arithmetic is
    [SFadd], [SFsub], [SFmul] and [SFdiv], which round to nearest, ties to
    even. Every definition computes, so a claim about a concrete stream is
    checked by evaluation.

    What the model leaves out: the sign and payload of a NaN. [total_cmp]
    orders negative NaNs below everything; here every NaN is the positive
    one that [parse] returns for ["NaN"], above [+inf]. *)

From Stdlib Require Import ZArith List Lia SpecFloat.
From stdpp Require Import base tactics.
From S2P Require Import Prelude RustStd Float.

Module F64.

Definition prec : Z := 53.
Definition emax : Z := 1024.

Definition f64 : Type := spec_float.

(** ** Literals and casts *)

(** [0.0]. *)
Definition zero : f64 := S754_zero false.
(** [2.0], as [2^52 * 2^-51]. *)
Definition two : f64 := S754_finite false 4503599627370496 (-51).
(** [0.001]: the binary64 nearest to 1/1000, [0x3F50624DD2F1A9FC]. *)
Definition tol : f64 := S754_finite false 4611686018427388 (-62).

(** [n as f64] for an unsigned integer: rounded to nearest. *)
Definition cast_u64 (n : Z) : f64 := binary_normalize prec emax n 0 false.

(** ** Arithmetic *)

Definition add : f64 -> f64 -> f64 := SFadd prec emax.
Definition sub : f64 -> f64 -> f64 := SFsub prec emax.
Definition mul : f64 -> f64 -> f64 := SFmul prec emax.
Definition div : f64 -> f64 -> f64 := SFdiv prec emax.
Definition abs : f64 -> f64 := SFabs.

(** ** Comparisons *)

Definition is_nan (x : f64) : bool :=
  match x with S754_nan => true | _ => false end.

(** [x <= y] and [x < y]: false when either side is a NaN. *)
Definition le : f64 -> f64 -> bool := SFleb.
Definition lt : f64 -> f64 -> bool := SFltb.

(** [x.min(y)] and [x.max(y)]: a NaN argument is ignored. When the
    arguments compare equal ([-0.0] and [0.0]) Rust leaves the choice open;
    the model returns [x]. *)
Definition min (x y : f64) : f64 :=
  if is_nan x then y else if is_nan y then x else if lt y x then y else x.
Definition max (x y : f64) : f64 :=
  if is_nan x then y else if is_nan y then x else if lt x y then y else x.

(** The keys of the two orders: a class (infinities, finite values by sign,
    zeros, NaN), then exponent and mantissa. On the canonical
    representations (one exponent per magnitude), lexicographic order on
    the key is numeric order. *)
Definition lex_compare (k k' : Z * Z * Z) : comparison :=
  let '(a, b, c) := k in
  let '(a', b', c') := k' in
  match a ?= a' with
  | Eq => match b ?= b' with Eq => c ?= c' | o => o end
  | o => o
  end.

(** [total_cmp] separates the zeros and puts NaN last. *)
Definition total_key (x : f64) : Z * Z * Z :=
  match x with
  | S754_infinity true => (-2, 0, 0)
  | S754_finite true m e => (-1, - e, Z.neg m)
  | S754_zero true => (0, 0, 0)
  | S754_zero false => (0, 0, 1)
  | S754_finite false m e => (1, e, Z.pos m)
  | S754_infinity false => (2, 0, 0)
  | S754_nan => (3, 0, 0)
  end.

(** [x.total_cmp(&y)]. *)
Definition total_cmp (x y : f64) : Ordering :=
  Ordering_of_comparison (lex_compare (total_key x) (total_key y)).

(** The key of [<=]: the zeros are one value. *)
Definition ieee_key (x : f64) : Z * Z * Z :=
  match x with
  | S754_zero _ => (0, 0, 0)
  | _ => total_key x
  end.

End F64.

#[export] Instance F64_ops : FloatOps F64.f64 := {
  f_zero := F64.zero;
  f_two := F64.two;
  f_tol := F64.tol;
  f_add := F64.add;
  f_sub := F64.sub;
  f_mul := F64.mul;
  f_div := F64.div;
  f_abs := F64.abs;
  f_min := F64.min;
  f_max := F64.max;
  f_le := F64.le;
  total_cmp := F64.total_cmp;
  of_u64 := F64.cast_u64;
}.

(** ** The lexicographic order on keys *)

Section Lex.
Implicit Types k : Z * Z * Z.

Definition lex_lt k k' : Prop :=
  let '(a, b, c) := k in
  let '(a', b', c') := k' in
  a < a' \/ (a = a' /\ (b < b' \/ (b = b' /\ c < c'))).

Lemma lex_compare_Lt k k' : F64.lex_compare k k' = Lt <-> lex_lt k k'.
Proof.
  destruct k as [[a b] c], k' as [[a' b'] c']. simpl.
  destruct (Z.compare_spec a a'), (Z.compare_spec b b'), (Z.compare_spec c c');
    intuition (discriminate || lia).
Qed.

Lemma lex_compare_Eq k k' : F64.lex_compare k k' = Eq <-> k = k'.
Proof.
  destruct k as [[a b] c], k' as [[a' b'] c']. simpl.
  destruct (Z.compare_spec a a'), (Z.compare_spec b b'), (Z.compare_spec c c');
    split; intros; simplify_eq; try done; lia.
Qed.

Lemma lex_compare_Gt k k' : F64.lex_compare k k' = Gt <-> lex_lt k' k.
Proof.
  destruct k as [[a b] c], k' as [[a' b'] c']. simpl.
  destruct (Z.compare_spec a a'), (Z.compare_spec b b'), (Z.compare_spec c c');
    intuition (discriminate || lia).
Qed.

Lemma lex_compare_antisym k k' :
  F64.lex_compare k' k = CompOpp (F64.lex_compare k k').
Proof.
  destruct k as [[a b] c], k' as [[a' b'] c']. simpl.
  rewrite (Z.compare_antisym a a'), (Z.compare_antisym b b'), (Z.compare_antisym c c').
  by destruct (a ?= a'), (b ?= b'), (c ?= c').
Qed.

Lemma lex_lt_trans k1 k2 k3 : lex_lt k1 k2 -> lex_lt k2 k3 -> lex_lt k1 k3.
Proof.
  destruct k1 as [[a1 b1] c1], k2 as [[a2 b2] c2], k3 as [[a3 b3] c3].
  simpl. lia.
Qed.

End Lex.

(** ** [total_cmp] is a total order *)

Lemma total_key_inj x y : F64.total_key x = F64.total_key y -> x = y.
Proof.
  destruct x as [[]|[]| |[] m e], y as [[]|[]| |[] m' e'];
    simpl; intros [=]; subst; try done; f_equal; lia.
Qed.

Lemma total_cmp_Less_lex x y :
  F64.total_cmp x y = Less <-> lex_lt (F64.total_key x) (F64.total_key y).
Proof.
  unfold F64.total_cmp. rewrite <- lex_compare_Lt.
  by destruct (F64.lex_compare _ _).
Qed.

Lemma total_cmp_Greater_lex x y :
  F64.total_cmp x y = Greater <-> lex_lt (F64.total_key y) (F64.total_key x).
Proof.
  unfold F64.total_cmp. rewrite <- lex_compare_Gt.
  by destruct (F64.lex_compare _ _).
Qed.

#[export] Instance F64_total_cmp_laws : TotalCmpLaws F64.f64.
Proof.
  split; unfold tlt; simpl.
  - intros x. unfold F64.total_cmp.
    by rewrite (proj2 (lex_compare_Eq _ _) eq_refl).
  - intros x y Hxy. apply total_key_inj, lex_compare_Eq.
    unfold F64.total_cmp in Hxy. by destruct (F64.lex_compare _ _).
  - intros x y. unfold F64.total_cmp.
    by rewrite lex_compare_antisym, Ordering_of_comparison_CompOpp.
  - intros x y z. rewrite !total_cmp_Less_lex. apply lex_lt_trans.
Qed.

(** ** [<=] through its key *)

Lemma SFcompare_key x y :
  SFcompare x y =
    if F64.is_nan x || F64.is_nan y then None
    else Some (F64.lex_compare (F64.ieee_key x) (F64.ieee_key y)).
Proof.
  destruct x as [[]|[]| |[] m e], y as [[]|[]| |[] m' e']; try reflexivity;
    simpl; rewrite ?Z.compare_opp, ?Pos.compare_cont_spec; simpl;
    rewrite ?(Z.compare_antisym e e'); unfold Pos.switch_Eq;
    by destruct (e ?= e'), (m ?= m')%positive.
Qed.

Lemma le_key x y :
  F64.le x y = true <->
  F64.is_nan x = false /\ F64.is_nan y = false /\
  ~ lex_lt (F64.ieee_key y) (F64.ieee_key x).
Proof.
  unfold F64.le, SFleb. rewrite SFcompare_key, <- lex_compare_Gt.
  destruct (F64.is_nan x), (F64.is_nan y); simpl; try (intuition congruence).
  destruct (F64.lex_compare _ _); intuition congruence.
Qed.

Lemma lt_key x y :
  F64.lt x y = true <->
  F64.is_nan x = false /\ F64.is_nan y = false /\
  lex_lt (F64.ieee_key x) (F64.ieee_key y).
Proof.
  unfold F64.lt, SFltb. rewrite SFcompare_key, <- lex_compare_Lt.
  destruct (F64.is_nan x), (F64.is_nan y); simpl; try (intuition congruence).
  destruct (F64.lex_compare _ _); intuition congruence.
Qed.

Lemma lex_lt_irrefl k : ~ lex_lt k k.
Proof. destruct k as [[a b] c]. simpl. lia. Qed.

Lemma lex_lt_total k k' : lex_lt k k' \/ k = k' \/ lex_lt k' k.
Proof.
  destruct k as [[a b] c], k' as [[a' b'] c']. simpl.
  destruct (Z.lt_total a a') as [?|[->|?]]; [lia| |lia].
  destruct (Z.lt_total b b') as [?|[->|?]]; [lia| |lia].
  destruct (Z.lt_total c c') as [?|[->|?]]; [lia| |lia].
  by right; left.
Qed.

Lemma ordered_is_nan (x : F64.f64) : ordered x <-> F64.is_nan x = false.
Proof.
  unfold ordered. simpl. rewrite le_key.
  pose proof (lex_lt_irrefl (F64.ieee_key x)). tauto.
Qed.

(** The key of [<=] is the key of [total_cmp] with the zeros merged, so it
    is monotone in it. *)
Lemma ieee_key_mono x y :
  lex_lt (F64.ieee_key y) (F64.ieee_key x) ->
  lex_lt (F64.total_key y) (F64.total_key x).
Proof.
  destruct x as [[]|[]| |[] m e], y as [[]|[]| |[] m' e']; simpl; lia.
Qed.

(** ** [<=], [min] and [max] on the values that are not NaN *)

(** [lex_solve] settles a goal on [lex_lt] over named keys by linear
    arithmetic on their components. *)
Ltac lex_solve :=
  repeat match goal with
  | k : (Z * Z * Z)%type |- _ => destruct k as [[? ?] ?]
  end; simpl in *; lia.

Lemma lex_le_trans k1 k2 k3 : ~ lex_lt k2 k1 -> ~ lex_lt k3 k2 -> ~ lex_lt k3 k1.
Proof. lex_solve. Qed.

Lemma lex_lt_asym k k' : lex_lt k k' -> ~ lex_lt k' k.
Proof. lex_solve. Qed.

Lemma lex_le_total k k' : ~ lex_lt k' k \/ ~ lex_lt k k'.
Proof. lex_solve. Qed.

Lemma le_refl_not_nan x : F64.is_nan x = false -> F64.le x x = true.
Proof. intros. apply le_key. eauto using lex_lt_irrefl. Qed.

Lemma lt_false_le x y :
  F64.is_nan x = false -> F64.is_nan y = false ->
  F64.lt y x = false -> F64.le x y = true.
Proof.
  intros Hx Hy Hlt. apply le_key. repeat split; [done..|].
  intros Hk. apply not_true_iff_false in Hlt. apply Hlt, lt_key. auto.
Qed.

Lemma lt_le x y : F64.lt x y = true -> F64.le x y = true.
Proof.
  rewrite lt_key, le_key. intros (? & ? & ?). eauto using lex_lt_asym.
Qed.

Lemma min_not_nan x y :
  F64.is_nan x = false -> F64.is_nan y = false ->
  (F64.min x y = x \/ F64.min x y = y) /\
  F64.le (F64.min x y) x = true /\ F64.le (F64.min x y) y = true.
Proof.
  intros Hx Hy. unfold F64.min. rewrite Hx, Hy.
  destruct (F64.lt y x) eqn:Hlt; (split; [tauto|split]);
    auto using le_refl_not_nan, lt_le, lt_false_le.
Qed.

Lemma max_not_nan x y :
  F64.is_nan x = false -> F64.is_nan y = false ->
  (F64.max x y = x \/ F64.max x y = y) /\
  F64.le x (F64.max x y) = true /\ F64.le y (F64.max x y) = true.
Proof.
  intros Hx Hy. unfold F64.max. rewrite Hx, Hy.
  destruct (F64.lt x y) eqn:Hlt; (split; [tauto|split]);
    auto using le_refl_not_nan, lt_le, lt_false_le.
Qed.

#[export] Instance F64_order_laws : FloatOrderLaws F64.f64.
Proof.
  split; [apply _|..]; intros *; rewrite ?ordered_is_nan; unfold tle, tlt; simpl.
  - rewrite le_key. tauto.
  - rewrite !le_key. intros (? & ? & ?) (? & ? & ?). eauto using lex_le_trans.
  - rewrite !le_key. intros ? ?.
    destruct (lex_le_total (F64.ieee_key x) (F64.ieee_key y)); auto.
  - rewrite total_cmp_Greater_lex, le_key. intros ? ? Hk.
    repeat split; [done..|]. intros Hi. by apply Hk, ieee_key_mono.
  - destruct x, y; try (intros _; by split); by simpl.
  - apply min_not_nan.
  - apply max_not_nan.
  - intros Hx. apply not_false_is_true in Hx. unfold F64.min. by rewrite Hx.
  - intros Hx Hy. apply not_false_is_true in Hy. unfold F64.min. by rewrite Hx, Hy.
  - intros Hx. apply not_false_is_true in Hx. unfold F64.max. by rewrite Hx.
  - intros Hx Hy. apply not_false_is_true in Hy. unfold F64.max. by rewrite Hx, Hy.
Qed.
