(* ===== verification/Rounding.v ===== *)
(** Rounding in [SpecFloat]: what [binary_round_aux], [binary_normalize]
    and [SFdiv] return.

    The Standard Library defines the operations of binary floating point
    by shifts on integer mantissas and states no property of them. This
    file proves what the statistics need. A rounding takes a mantissa [m]
    and an exponent [e], shifts [m] right until it has at most 53 binary
    digits (or the exponent is the least one), rounds, and shifts once more
    if the rounding carried. [Rounded m e m2 e2] states the result: the
    mantissa [m2] at the exponent [e2] is within two units of [m2]'s last
    place of [m * 2^e], [e2] is bounded by the magnitude of [m * 2^e], and
    [m2] at [e2] is the canonical representation of its value. From it:
    every result of [binary_normalize] and of [SFdiv] is a valid float
    ([valid_binary]), whatever the arguments. *)

From Stdlib Require Import ZArith List Lia SpecFloat.
From stdpp Require Import base tactics.
From S2P Require Import Prelude RustStd Float Binary64.

Abbreviation fexp := (SpecFloat.fexp F64.prec F64.emax).
Abbreviation emin := (SpecFloat.emin F64.prec F64.emax).

(** ** The number of binary digits *)

Lemma digits2_pos_log2 m : Z.pos (digits2_pos m) = Z.log2 (Z.pos m) + 1.
Proof.
  induction m as [m IH|m IH|]; simpl; [| |done].
  - rewrite Pos2Z.inj_succ, IH. destruct m; simpl; lia.
  - rewrite Pos2Z.inj_succ, IH. destruct m; simpl; lia.
Qed.

Lemma Zdigits2_log2 m : 0 < m -> Zdigits2 m = Z.log2 m + 1.
Proof. destruct m; [lia| |lia]. intros _. apply digits2_pos_log2. Qed.

Lemma Zdigits2_bounds m :
  0 < m -> 2 ^ (Zdigits2 m - 1) <= m < 2 ^ Zdigits2 m.
Proof.
  intros Hm. rewrite Zdigits2_log2 by done.
  replace (Z.log2 m + 1 - 1) with (Z.log2 m) by lia. by apply Z.log2_spec.
Qed.

Lemma Zdigits2_div m n :
  0 < m -> 0 <= n -> 0 < m / 2 ^ n -> Zdigits2 (m / 2 ^ n) = Zdigits2 m - n.
Proof.
  intros Hm Hn Hq. rewrite !Zdigits2_log2 by done.
  rewrite <- Z.shiftr_div_pow2, Z.log2_shiftr by done.
  assert (2 ^ n <= m).
  { destruct (Z.le_gt_cases (2 ^ n) m); [done|].
    rewrite Z.div_small in Hq; lia. }
  assert (n <= Z.log2 m) by (by apply Z.log2_le_pow2). lia.
Qed.

Lemma Zdigits2_mono a b : 0 < a <= b -> Zdigits2 a <= Zdigits2 b.
Proof.
  intros. rewrite !Zdigits2_log2 by lia.
  pose proof (Z.log2_le_mono a b). lia.
Qed.

Lemma Zdigits2_le_pow2 m k : 0 < m <= 2 ^ k -> 0 <= k -> Zdigits2 m <= k + 1.
Proof.
  intros Hm Hk. rewrite Zdigits2_log2 by lia.
  pose proof (Z.log2_le_mono m (2 ^ k)). rewrite Z.log2_pow2 in * by done. lia.
Qed.

Lemma Zdigits2_lt_pow2 m k : 0 < m < 2 ^ k -> Zdigits2 m <= k.
Proof.
  intros Hm. rewrite Zdigits2_log2 by lia.
  assert (Z.log2 m < k) by (apply Z.log2_lt_pow2; lia). lia.
Qed.

Lemma Zdigits2_ge_pow2 m k : 2 ^ k <= m -> 0 <= k -> k + 1 <= Zdigits2 m.
Proof.
  intros Hm Hk. pose proof (pow2_pos k Hk). rewrite Zdigits2_log2 by lia.
  assert (k <= Z.log2 m) by (apply Z.log2_le_pow2; lia). lia.
Qed.

Lemma Zdigits2_mul a b :
  0 < a -> 0 < b -> Zdigits2 a + Zdigits2 b - 1 <= Zdigits2 (a * b).
Proof.
  intros Ha Hb. pose proof (Zdigits2_bounds a Ha) as [Hla _].
  pose proof (Zdigits2_bounds b Hb) as [Hlb _].
  pose proof (Zdigits2_ge_pow2 a 0) as Hda. pose proof (Zdigits2_ge_pow2 b 0) as Hdb.
  change (2 ^ 0) with 1 in *. specialize (Hda ltac:(lia) ltac:(lia)).
  specialize (Hdb ltac:(lia) ltac:(lia)).
  enough (Zdigits2 a - 1 + (Zdigits2 b - 1) + 1 <= Zdigits2 (a * b)) by lia.
  apply Zdigits2_ge_pow2; [|lia]. rewrite pow2_split by lia.
  apply Z.mul_le_mono_nonneg; [apply Z.lt_le_incl, pow2_pos; lia|done|..];
    [apply Z.lt_le_incl, pow2_pos; lia|done].
Qed.

(** ** Shifts to the right

    [shr] shifts a mantissa by iterating [shr_1], which halves it and
    records the bits lost; on the mantissa it is a division by a power of
    two. *)

Lemma shr_1_m r : 0 <= shr_m r -> shr_m (shr_1 r) = shr_m r / 2.
Proof.
  destruct r as [[|[p|p|]|p] r s]; cbn [shr_1 shr_m]; try done; intros _;
    Z.div_mod_to_equations; lia.
Qed.

Lemma iter_pos_shr_1_m n r :
  0 <= shr_m r -> shr_m (iter_pos shr_1 n r) = shr_m r / 2 ^ Z.pos n.
Proof.
  revert r. induction n as [n IH|n IH|]; intros r Hr; simpl iter_pos.
  - assert (0 <= shr_m (shr_1 r)) by (rewrite shr_1_m by done; by apply Z.div_pos).
    assert (0 <= shr_m (iter_pos shr_1 n (shr_1 r)))
      by (rewrite IH by done; apply Z.div_pos; lia).
    rewrite !IH, shr_1_m, pow2_xI by done. by rewrite !Z.div_div by lia.
  - assert (0 <= shr_m (iter_pos shr_1 n r))
      by (rewrite IH by done; apply Z.div_pos; lia).
    rewrite !IH, pow2_xO by done. by rewrite Z.div_div by lia.
  - by rewrite shr_1_m.
Qed.

(** The number of places [shr_fexp] shifts [m] at exponent [e], and the
    exponent it reaches. *)
Definition shift (m e : Z) : Z := Z.max 0 (fexp (Zdigits2 m + e) - e).

Definition rexp (m e : Z) : Z := e + shift m e.

(** [fexp_lia] settles a goal on exponents by linear arithmetic, with the
    definitions of [fexp] and of the least exponent unfolded. *)
Ltac fexp_lia :=
  unfold rexp, shift, SpecFloat.fexp, SpecFloat.emin, F64.prec, F64.emax in *;
  change (Zdigits2 0) with 0 in *; change (Zdigits2 1) with 1 in *; lia.

Lemma shift_nonneg m e : 0 <= shift m e.
Proof. unfold shift. lia. Qed.

Lemma pow2_shift_pos m e : 0 < 2 ^ shift m e.
Proof. apply pow2_pos, shift_nonneg. Qed.

Lemma div_shift_nonneg m m' e : 0 <= m -> 0 <= m / 2 ^ shift m' e.
Proof. intros. apply Z.div_pos; [done|apply pow2_shift_pos]. Qed.

Lemma shr_fexp_m m e l :
  0 <= m -> shr_m (shr_fexp F64.prec F64.emax m e l).1 = m / 2 ^ shift m e.
Proof.
  intros Hm. unfold shr_fexp, shr, shift.
  assert (shr_m (shr_record_of_loc m l) = m) as Hr by by destruct l as [|[]].
  destruct (fexp (Zdigits2 m + e) - e) as [|n|n] eqn:Hn; simpl fst.
  - by rewrite Hr, Z.div_1_r.
  - rewrite iter_pos_shr_1_m by lia. rewrite Hr. f_equal.
  - rewrite Hr. by rewrite Z.div_1_r.
Qed.

Lemma shr_fexp_e m e l :
  (shr_fexp F64.prec F64.emax m e l).2 = e + shift m e.
Proof.
  unfold shr_fexp, shr, shift.
  destruct (fexp (Zdigits2 m + e) - e) as [|n|n] eqn:Hn; simpl; lia.
Qed.

(** The exponent reached is at least the least exponent, and is bounded by
    the magnitude of the number. *)
Lemma rexp_ge m e : e <= rexp m e /\ emin <= rexp m e.
Proof. fexp_lia. Qed.

Lemma rexp_le m e K :
  0 <= m < 2 ^ (K - e) -> emin <= K - 53 -> e <= K - 53 -> rexp m e <= K - 53.
Proof.
  intros Hm HK He. destruct (decide (m = 0)) as [->|]; [fexp_lia|].
  pose proof (Zdigits2_lt_pow2 m (K - e)). fexp_lia.
Qed.

Lemma rexp_le' m e K :
  0 <= m <= 2 ^ (K - e) -> emin <= K - 53 -> e <= K - 53 -> rexp m e <= K - 52.
Proof.
  intros Hm HK He. destruct (decide (m = 0)) as [->|]; [fexp_lia|].
  pose proof (Zdigits2_le_pow2 m (K - e)). fexp_lia.
Qed.

(** One shift brings an aligned mantissa to its canonical exponent. *)
Lemma shift_canonical m e :
  0 < m -> e <= fexp (Zdigits2 m + e) -> 0 < m / 2 ^ shift m e ->
  fexp (Zdigits2 (m / 2 ^ shift m e) + rexp m e) = rexp m e.
Proof.
  intros Hm Ha Hq. rewrite Zdigits2_div by (done || apply shift_nonneg).
  fexp_lia.
Qed.

(** ** [binary_round_aux]

    The value the rounding returns from a mantissa and an exponent: zero, a
    finite float, or an infinity when the exponent is above the largest. *)
Definition mk_float (s : bool) (m e : Z) : spec_float :=
  match m with
  | Z0 => S754_zero s
  | Z.pos p =>
      if e <=? F64.emax - F64.prec then S754_finite s p e else S754_infinity s
  | Z.neg _ => S754_nan
  end.

Lemma binary_round_aux_eq s m e l :
  0 <= m ->
  exists m1, m / 2 ^ shift m e <= m1 <= m / 2 ^ shift m e + 1 /\
    (l = loc_Exact -> shift m e = 0 -> m1 = m) /\
    binary_round_aux F64.prec F64.emax s m e l =
      mk_float s (m1 / 2 ^ shift m1 (rexp m e)) (rexp m1 (rexp m e)).
Proof.
  intros Hm. unfold binary_round_aux.
  pose proof (shr_fexp_m m e l Hm) as Hf. pose proof (shr_fexp_e m e l) as He.
  destruct (shr_fexp _ _ m e l) as [r1 e1] eqn:H1. simpl in Hf, He. subst e1.
  set (m1 := round_nearest_even (shr_m r1) (loc_of_shr_record r1)).
  assert (shr_m r1 <= m1 <= shr_m r1 + 1) as Hm1.
  { unfold m1, round_nearest_even.
    destruct (loc_of_shr_record r1) as [|[]]; try destruct (Z.even _); lia. }
  assert (0 <= shr_m r1) by (rewrite Hf; by apply div_shift_nonneg).
  pose proof (shr_fexp_m m1 (e + shift m e) loc_Exact ltac:(lia)) as Hf2.
  pose proof (shr_fexp_e m1 (e + shift m e) loc_Exact) as He2.
  destruct (shr_fexp _ _ m1 _ _) as [r2 e2]. simpl in Hf2, He2. subst e2.
  exists m1. rewrite <- Hf. split; [done|]. split.
  - intros -> H0. unfold shr_fexp, shr, shift in H1, H0.
    destruct (fexp (Zdigits2 m + e) - e); try lia; injection H1 as <-;
      unfold m1; simpl; done.
  - rewrite Hf2. unfold mk_float, rexp. done.
Qed.

(** *** The two shifts

    [m1] is the mantissa after the first shift and the rounding, which adds
    at most one; [m2] and [e2] are what the second shift leaves. *)

Section TwoStep.
Context (m e m1 : Z) (Hm : 0 <= m).
Let f := m / 2 ^ shift m e.
Let e1 := rexp m e.
Context (Hm1 : f <= m1 <= f + 1).
Let m2 := m1 / 2 ^ shift m1 e1.
Let e2 := rexp m1 e1.

Lemma two_step_value :
  m - 2 * 2 ^ (e2 - e) < m2 * 2 ^ (e2 - e) <= m + 2 ^ (e2 - e).
Proof.
  replace (e2 - e) with (shift m e + shift m1 e1) by (unfold e2, e1, rexp; lia).
  rewrite Z.pow_add_r by apply shift_nonneg.
  pose proof (div_pow2_bounds m (shift m e) (shift_nonneg _ _)).
  pose proof (div_pow2_bounds m1 (shift m1 e1) (shift_nonneg _ _)).
  pose proof (pow2_shift_pos m e). pose proof (pow2_shift_pos m1 e1).
  fold f in H. fold m2 in H0. nia.
Qed.

Lemma two_step_exp K :
  m < 2 ^ (K - e) -> emin <= K - 53 -> e <= K - 53 -> e2 <= K - 52.
Proof.
  intros HmK HK He. pose proof (rexp_le m e K ltac:(lia) HK He) as He1.
  fold e1 in He1. apply rexp_le'; [|done|lia].
  assert (0 <= f) by by apply div_shift_nonneg.
  split; [lia|]. enough (f < 2 ^ (K - e1)) by lia.
  apply Z.div_lt_upper_bound; [apply pow2_shift_pos|].
  rewrite <- Z.pow_add_r; [|apply shift_nonneg|lia].
  replace (shift m e + (K - e1)) with (K - e) by (unfold e1, rexp; lia). done.
Qed.

Lemma two_step_canonical :
  e <= fexp (Zdigits2 m + e) -> 0 < m2 -> fexp (Zdigits2 m2 + e2) = e2.
Proof.
  intros Ha Hm2. assert (0 <= f) by by apply div_shift_nonneg.
  assert (0 < m1).
  { destruct (decide (m1 = 0)) as [Hz|]; [|lia]. unfold m2 in Hm2.
    rewrite Hz in Hm2. by rewrite Z.div_0_l in Hm2 by (pose proof (pow2_shift_pos 0 e1); lia). }
  apply shift_canonical; [done| |done].
  destruct (decide (f = 0)) as [Hf|Hf].
  - assert (m1 = 1) as -> by lia.
    destruct (decide (m = 0)) as [->|]; [fexp_lia|].
    assert (m < 2 ^ shift m e).
    { pose proof (div_pow2_bounds m (shift m e) (shift_nonneg _ _)).
      fold f in H1. lia. }
    pose proof (Zdigits2_lt_pow2 m (shift m e)). fexp_lia.
  - assert (0 < m).
    { destruct (decide (m = 0)) as [Hz|]; [|lia]. exfalso. apply Hf. unfold f.
      rewrite Hz. apply Z.div_0_l. pose proof (pow2_shift_pos 0 e). lia. }
    pose proof (shift_canonical m e ltac:(lia) Ha ltac:(fold f; lia)) as Hc.
    fold f e1 in Hc. pose proof (Zdigits2_mono f m1). fexp_lia.
Qed.

End TwoStep.

(** *** What [binary_round_aux] returns

    [Rounded m e m2 e2]: the mantissa [m2] at the exponent [e2] is what the
    rounding makes of [m] at [e]. Its value is less than two units of its
    last place below [m * 2^e] and at most one above; [e2] is at most
    [K - 52] when [m * 2^e] is below [2^K]; and [m2] is canonical for [e2]
    when [m] had digits enough for [e]. *)

Record Rounded (m e m2 e2 : Z) : Prop := {
  rnd_nonneg : 0 <= m2;
  rnd_exp : e <= e2 /\ emin <= e2;
  rnd_value : m - 2 * 2 ^ (e2 - e) < m2 * 2 ^ (e2 - e) <= m + 2 ^ (e2 - e);
  rnd_exp_le K :
    m < 2 ^ (K - e) -> emin <= K - 53 -> e <= K - 53 -> e2 <= K - 52;
  rnd_canonical :
    e <= fexp (Zdigits2 m + e) -> 0 < m2 -> fexp (Zdigits2 m2 + e2) = e2;
}.

Lemma binary_round_aux_spec s m e l :
  0 <= m ->
  exists m2 e2,
    binary_round_aux F64.prec F64.emax s m e l = mk_float s m2 e2 /\ Rounded m e m2 e2.
Proof.
  intros Hm. destruct (binary_round_aux_eq s m e l Hm) as (m1 & Hm1 & _ & ->).
  eexists _, _. split; [done|].
  pose proof (div_shift_nonneg m m e Hm). split.
  - apply div_shift_nonneg. lia.
  - pose proof (rexp_ge m e). pose proof (rexp_ge m1 (rexp m e)). lia.
  - by apply two_step_value.
  - intros K. by apply two_step_exp.
  - by apply two_step_canonical.
Qed.

(** A mantissa that needs no shift is returned as it is. *)
Lemma binary_round_aux_exact s m e :
  0 <= m -> fexp (Zdigits2 m + e) <= e ->
  binary_round_aux F64.prec F64.emax s m e loc_Exact = mk_float s m e.
Proof.
  intros Hm He. destruct (binary_round_aux_eq s m e loc_Exact Hm) as (m1 & _ & Hx & ->).
  assert (shift m e = 0) as H0 by fexp_lia. rewrite (Hx eq_refl H0).
  unfold rexp. by rewrite H0, !Z.add_0_r, H0, Z.div_1_r, Z.add_0_r.
Qed.

(** ** Alignment to the left: [shl_align] *)

Lemma iter_xO m d : Z.pos (Pos.iter xO m d) = Z.pos m * 2 ^ Z.pos d.
Proof.
  induction d as [|d IH] using Pos.peano_ind; [simpl; lia|].
  rewrite Pos.iter_succ, Pos2Z.inj_xO, IH, Pos2Z.inj_succ, Z.pow_succ_r by lia.
  lia.
Qed.

Lemma shl_align_spec m e :
  let '(mz, ez) := shl_align m e (fexp (Z.pos (digits2_pos m) + e)) in
  ez <= e /\ Z.pos mz = Z.pos m * 2 ^ (e - ez) /\
  ez <= fexp (Zdigits2 (Z.pos mz) + ez) /\ (emin <= e -> emin <= ez).
Proof.
  unfold shl_align.
  destruct (fexp (Z.pos (digits2_pos m) + e) - e) as [|d|d] eqn:Hd.
  1,2: rewrite Z.sub_diag, Z.mul_1_r; simpl Zdigits2; repeat split; lia.
  cbv beta iota. rewrite iter_xO.
  replace (e - fexp (Z.pos (digits2_pos m) + e)) with (Z.pos d) by lia.
  repeat split; [lia| |fexp_lia].
  rewrite Zdigits2_log2 by (apply Z.mul_pos_pos; [lia|by apply pow2_pos]).
  rewrite Z.log2_mul_pow2 by lia. rewrite digits2_pos_log2 in *.
  replace (Z.pos d + Z.log2 (Z.pos m) + 1 + fexp (Z.log2 (Z.pos m) + 1 + e))
    with (Z.log2 (Z.pos m) + 1 + e); lia.
Qed.

(** The exponent [shl_align] leaves. *)
Lemma shl_align_exp m e e' : (shl_align m e e').2 = Z.min e e'.
Proof. unfold shl_align. destruct (e' - e) eqn:He; simpl; lia. Qed.

(** [binary_round] aligns the mantissa to the left, then rounds. *)
Lemma binary_round_spec s m e :
  exists mz ez m2 e2,
    binary_round F64.prec F64.emax s m e = mk_float s m2 e2 /\
    (ez <= e /\ Z.pos mz = Z.pos m * 2 ^ (e - ez) /\
     ez <= fexp (Zdigits2 (Z.pos mz) + ez) /\ (emin <= e -> emin <= ez)) /\
    Rounded (Z.pos mz) ez m2 e2.
Proof.
  unfold binary_round. pose proof (shl_align_spec m e) as Ha.
  destruct (shl_align _ _ _) as [mz ez].
  destruct (binary_round_aux_spec s (Z.pos mz) ez loc_Exact) as (m2 & e2 & -> & Hr);
    [lia|].
  by exists mz, ez, m2, e2.
Qed.

(** ** Validity

    A float is valid when its mantissa is canonical for its exponent and
    the exponent is at most the largest. Every rounding of an aligned
    mantissa is valid. *)

Definition valid (x : F64.f64) : bool := valid_binary F64.prec F64.emax x.

Lemma mk_valid s m e m2 e2 :
  Rounded m e m2 e2 -> e <= fexp (Zdigits2 m + e) -> valid (mk_float s m2 e2) = true.
Proof.
  intros [Hn _ _ _ Hc] Ha. unfold mk_float, valid. destruct m2 as [|p|p]; [done| |lia].
  destruct (e2 <=? F64.emax - F64.prec) eqn:He; [|done]. simpl.
  unfold bounded, canonical_mantissa. rewrite He, andb_true_r.
  apply Z.eqb_eq. apply (Hc Ha). lia.
Qed.

Lemma binary_round_valid s m e : valid (binary_round F64.prec F64.emax s m e) = true.
Proof.
  destruct (binary_round_spec s m e) as (mz & ez & m2 & e2 & -> & (_ & _ & Ha & _) & Hr).
  by eapply mk_valid.
Qed.

Lemma binary_normalize_valid m e sz :
  valid (binary_normalize F64.prec F64.emax m e sz) = true.
Proof. destruct m; [done|apply binary_round_valid..]. Qed.

(** What validity says of a finite float. *)
Lemma valid_finite s m e :
  valid (S754_finite s m e) = true ->
  emin <= e <= 971 /\ fexp (Zdigits2 (Z.pos m) + e) = e.
Proof.
  unfold valid, valid_binary, bounded, canonical_mantissa.
  intros [Hc He]%andb_true_iff. apply Z.eqb_eq in Hc. apply Z.leb_le in He.
  simpl Zdigits2. fexp_lia.
Qed.

(** ** [SFdiv] *)

(** The quotient of the mantissas, at the exponent [SFdiv] chooses. *)
Lemma SFdiv_core_spec mx ex my ey :
  let '(q, e', l) :=
    SFdiv_core_binary F64.prec F64.emax (Z.pos mx) ex (Z.pos my) ey in
  0 <= q /\
  e' = Z.min (fexp (Zdigits2 (Z.pos mx) + ex - (Zdigits2 (Z.pos my) + ey)))
             (ex - ey) /\
  q * Z.pos my <= Z.pos mx * 2 ^ (ex - ey - e') < (q + 1) * Z.pos my.
Proof.
  unfold SFdiv_core_binary.
  set (e' := Z.min _ _). set (s := ex - ey - e').
  assert (0 <= s) by (unfold s, e'; lia).
  assert (match s with Z.pos _ => Z.shiftl (Z.pos mx) s | 0 => Z.pos mx | Z.neg _ => 0 end
          = Z.pos mx * 2 ^ s) as ->.
  { destruct s; [lia| |lia]. by rewrite Z.shiftl_mul_pow2. }
  pose proof (Z_div_mod (Z.pos mx * 2 ^ s) (Z.pos my) ltac:(lia)) as Hd.
  destruct (Z.div_eucl _ _) as [q r]. destruct Hd as [Hd Hr].
  pose proof (pow2_pos s ltac:(done)).
  assert (0 <= q) by nia. change (ex - ey - e') with s.
  repeat split; [done|lia|lia].
Qed.

(** The quotient [SFdiv_core_binary] computes has digits enough for its
    exponent. *)
Lemma div_aligned mx ex my ey q e' :
  0 <= q ->
  e' = Z.min (fexp (Zdigits2 (Z.pos mx) + ex - (Zdigits2 (Z.pos my) + ey)))
             (ex - ey) ->
  q * Z.pos my <= Z.pos mx * 2 ^ (ex - ey - e') < (q + 1) * Z.pos my ->
  e' <= fexp (Zdigits2 q + e').
Proof.
  intros Hq He Hdiv. set (s := ex - ey - e') in *.
  pose proof (Zdigits2_bounds (Z.pos mx) ltac:(lia)) as H1.
  pose proof (Zdigits2_bounds (Z.pos my) ltac:(lia)) as H2.
  set (d1 := Zdigits2 (Z.pos mx)) in *. set (d2 := Zdigits2 (Z.pos my)) in *.
  assert (1 <= d1 /\ 1 <= d2) as [? ?] by (unfold d1, d2; simpl; lia).
  pose proof (pow2_pos s ltac:(lia)).
  assert (2 ^ (d1 - 1 + s) <= Z.pos mx * 2 ^ s)
    by (rewrite Z.pow_add_r by lia; nia).
  destruct (decide (q = 0)) as [->|Hq0].
  - assert (d1 - 1 + s < d2) by (apply pow2_lt_inv; lia). fexp_lia.
  - enough (d1 + s - d2 <= Zdigits2 q) by fexp_lia.
    destruct (Z.le_gt_cases (d1 + s - d2) 1).
    { pose proof (Zdigits2_ge_pow2 q 0). lia. }
    pose proof (Zdigits2_ge_pow2 q (d1 + s - d2 - 1)) as Hk.
    replace (d1 - 1 + s) with ((d1 + s - d2 - 1) + d2) in * by lia.
    rewrite Z.pow_add_r in * by lia.
    pose proof (pow2_pos (d1 + s - d2 - 1) ltac:(lia)).
    assert (2 ^ (d1 + s - d2 - 1) <= q) by nia. lia.
Qed.

(** The quotient of two finite floats is a rounding of the quotient of
    their mantissas. *)
Lemma SFdiv_finite_spec sx mx ex sy my ey :
  exists q e' m2 e2,
    SFdiv F64.prec F64.emax (S754_finite sx mx ex) (S754_finite sy my ey)
      = mk_float (xorb sx sy) m2 e2 /\
    (0 <= q /\
     e' = Z.min (fexp (Zdigits2 (Z.pos mx) + ex - (Zdigits2 (Z.pos my) + ey)))
                (ex - ey) /\
     q * Z.pos my <= Z.pos mx * 2 ^ (ex - ey - e') < (q + 1) * Z.pos my) /\
    Rounded q e' m2 e2.
Proof.
  unfold SFdiv. pose proof (SFdiv_core_spec mx ex my ey) as Hc.
  destruct (SFdiv_core_binary _ _ _ _ _ _) as [[q e'] l].
  destruct (binary_round_aux_spec (xorb sx sy) q e' l) as (m2 & e2 & -> & Hr);
    [tauto|].
  by exists q, e', m2, e2.
Qed.

Lemma SFdiv_valid x y : valid (SFdiv F64.prec F64.emax x y) = true.
Proof.
  destruct x as [| | |sx mx ex], y as [| | |sy my ey]; try done.
  destruct (SFdiv_finite_spec sx mx ex sy my ey)
    as (q & e' & m2 & e2 & -> & (Hq & He & Hdiv) & Hr).
  eapply mk_valid; [done|]. by eapply div_aligned.
Qed.
