(* ===== verification/Accuracy.v ===== *)
(** The values of binary64 numbers and the accuracy of the arithmetic.

    [val x] is the value of a finite [x] in units of [2^-2200], an
    integer: the unit is finer than any quantity the operations compute on
    their way. On well-formed floats ([wf]: finite and valid) the sum and
    the difference are the exact ones up to two units of the last place of
    the result ([add_val], [sub_val]), and so is the product ([mul_val]);
    the quotient by a whole number is exact up to three ([div_val]), of
    which halving is a case ([half_val]); [abs] is the absolute value
    ([abs_val]) and [<=] is the order of the values ([le_val]). The bounds
    are stated for results below [2^K]. *)

From Stdlib Require Import ZArith List Lia SpecFloat.
From stdpp Require Import base tactics.
From S2P Require Import Prelude RustStd Float Binary64 Rounding.

(** ** Values *)

(** The unit of the values is [2^-vscale]. The least exponent of a
    binary64 is [-1074]; the exact product of two numbers has an exponent of
    [-2148] at least, and the quotient of a division by a whole number is
    computed above [-1127]: every quantity below is a whole number of
    units. *)
Definition vscale : Z := 2200.

(** The value of the mantissa [m] at the exponent [e]. *)
Definition pval (m e : Z) : Z := m * 2 ^ (e + vscale).

(** The value of a float; the infinities and the NaN have none, and get
    [0]. *)
Definition val (x : F64.f64) : Z :=
  match x with
  | S754_finite s m e => pval (cond_Zopp s (Z.pos m)) e
  | _ => 0
  end.

(** Zeros and finite numbers. *)
Definition is_finite (x : F64.f64) : bool :=
  match x with S754_finite _ _ _ | S754_zero _ => true | _ => false end.

(** Well-formed: finite, and in canonical form. *)
Definition wf (x : F64.f64) : bool := is_finite x && valid x.

Lemma pval_shift m e k :
  0 <= k -> - vscale <= e - k -> pval (m * 2 ^ k) (e - k) = pval m e.
Proof.
  intros Hk He. unfold pval. rewrite <- Z.mul_assoc, <- Z.pow_add_r by lia.
  do 2 f_equal. lia.
Qed.

Lemma val_abs_finite s m e :
  Z.abs (val (S754_finite s m e)) = pval (Z.pos m) e /\
  val (S754_finite s m e) = cond_Zopp s (pval (Z.pos m) e).
Proof.
  unfold val, pval. destruct s; simpl cond_Zopp.
  - destruct (Z.le_gt_cases 0 (e + vscale)) as [H|H].
    + pose proof (pow2_pos _ H). split; [|lia]. rewrite Z.abs_neq; nia.
    + rewrite Z.pow_neg_r by lia. lia.
  - destruct (Z.le_gt_cases 0 (e + vscale)) as [H|H].
    + pose proof (pow2_pos _ H). split; [|lia]. rewrite Z.abs_eq; nia.
    + rewrite Z.pow_neg_r by lia. lia.
Qed.

Lemma pval_lt_pow2 m e K :
  - vscale <= e -> 0 < m -> pval m e < 2 ^ (K + vscale) -> m < 2 ^ (K - e) /\ e < K.
Proof.
  intros He Hm Hv. unfold pval in Hv. pose proof (pow2_pos (e + vscale) ltac:(lia)).
  assert (0 <= K + vscale) by (apply (lt_pow2_nonneg (m * 2 ^ (e + vscale))); nia).
  assert (e < K).
  { enough (e + vscale < K + vscale) by lia. apply pow2_lt_inv; [lia|nia]. }
  split; [|done]. replace (K + vscale) with ((K - e) + (e + vscale)) in Hv by lia.
  rewrite (pow2_split (K - e)) in Hv by lia. by apply Z.mul_lt_mono_pos_r in Hv.
Qed.

Lemma pval_add a b e : pval (a + b) e = pval a e + pval b e.
Proof. unfold pval. lia. Qed.

Lemma pval_sub a b e : pval (a - b) e = pval a e - pval b e.
Proof. unfold pval. lia. Qed.

Lemma val_opp s m e : val (S754_finite (negb s) m e) = - val (S754_finite s m e).
Proof. unfold val, pval. destruct s; simpl; lia. Qed.

(** ** The value of a rounding *)

(** A rounding of a number below [2^K] is finite, and within two units of
    the last place of such numbers, [2^(K - 52)], of it. *)
Lemma mk_val s m e m2 e2 K :
  Rounded m e m2 e2 -> - vscale <= e ->
  m < 2 ^ (K - e) -> emin <= K - 53 -> e <= K - 53 -> K <= 1023 ->
  is_finite (mk_float s m2 e2) = true /\
  val (mk_float s m2 e2) = cond_Zopp s (pval m2 e2) /\
  Z.abs (pval m2 e2 - pval m e) < 2 * 2 ^ (K - 52 + vscale).
Proof.
  intros [Hn [He Hmin] Hv HK _] Hs HmK H1 H2 H3. specialize (HK K HmK H1 H2).
  assert (is_finite (mk_float s m2 e2) = true /\ val (mk_float s m2 e2) = cond_Zopp s (pval m2 e2))
    as [Hf Hval].
  { unfold mk_float. destruct m2 as [|p|p]; [destruct s; split; reflexivity| |lia].
    unfold F64.emax, F64.prec. destruct (Z.leb_spec e2 (1024 - 53)); [|lia].
    split; [done|]. unfold val, pval. destruct s; simpl cond_Zopp; lia. }
  repeat split; [done..|].
  unfold pval. replace (e2 + vscale) with ((e2 - e) + (e + vscale)) by lia.
  rewrite Z.pow_add_r by lia.
  pose proof (pow2_pos (e + vscale) ltac:(lia)).
  pose proof (pow2_le_mono (e2 + vscale) (K - 52 + vscale) ltac:(lia)) as Hle.
  replace (e2 + vscale) with ((e2 - e) + (e + vscale)) in Hle by lia.
  rewrite Z.pow_add_r in Hle by lia. nia.
Qed.

Lemma binary_round_val s m e K :
  emin <= e -> Z.pos m < 2 ^ (K - e) -> emin <= K - 53 -> K <= 1023 ->
  let r := binary_round F64.prec F64.emax s m e in
  is_finite r = true /\
  Z.abs (val r - pval (cond_Zopp s (Z.pos m)) e) < 2 * 2 ^ (K - 52 + vscale).
Proof.
  intros He Hm HK1 HK2.
  destruct (binary_round_spec s m e) as (mz & ez & m2 & e2 & -> & (Hz & Hmz & Ha & Hmin) & Hr).
  specialize (Hmin He).
  pose proof (lt_pow2_nonneg (Z.pos m) (K - e) ltac:(lia)).
  assert (Z.pos mz < 2 ^ (K - ez)) as HmzK.
  { rewrite Hmz. replace (K - ez) with ((K - e) + (e - ez)) by lia.
    rewrite Z.pow_add_r by lia. pose proof (pow2_pos (e - ez)). nia. }
  assert (ez <= K - 53).
  { pose proof (Zdigits2_lt_pow2 (Z.pos mz) (K - ez)). fexp_lia. }
  destruct (mk_val s _ _ _ _ K Hr) as (Hf & Hv & Hd); [unfold vscale; fexp_lia|done..|].
  split; [done|]. rewrite Hv.
  assert (pval (Z.pos mz) ez = pval (Z.pos m) e) as Hp.
  { rewrite Hmz. replace ez with (e - (e - ez)) at 2 by lia.
    apply pval_shift; [lia|unfold vscale; fexp_lia]. }
  rewrite Hp in Hd. unfold pval in *. destruct s; simpl cond_Zopp; lia.
Qed.

Lemma binary_normalize_val m e sz K :
  emin <= e -> Z.abs m < 2 ^ (K - e) -> emin <= K - 53 -> K <= 1023 ->
  let r := binary_normalize F64.prec F64.emax m e sz in
  is_finite r = true /\ Z.abs (val r - pval m e) < 2 * 2 ^ (K - 52 + vscale).
Proof.
  intros He Hm HK1 HK2. destruct m as [|p|p]; simpl.
  - split; [done|]. unfold pval. pose proof (pow2_pos (K - 52 + vscale)).
    unfold vscale in *. fexp_lia.
  - by apply (binary_round_val false).
  - by apply (binary_round_val true).
Qed.

Lemma binary_normalize_pval m e sz K :
  emin <= e -> Z.abs (pval m e) < 2 ^ (K + vscale) ->
  emin <= K - 53 -> K <= 1023 ->
  let r := binary_normalize F64.prec F64.emax m e sz in
  is_finite r = true /\ Z.abs (val r - pval m e) < 2 * 2 ^ (K - 52 + vscale).
Proof.
  intros He Hm HK1 HK2. assert (0 <= e + vscale) by (unfold vscale; fexp_lia).
  pose proof (pow2_pos (e + vscale) ltac:(done)).
  destruct (decide (m = 0)) as [->|Hm0].
  { split; [done|]. pose proof (pow2_pos (K - 52 + vscale)).
    unfold pval, vscale in *. simpl. fexp_lia. }
  unfold pval in Hm.
  assert (e < K).
  { enough (e + vscale < K + vscale) by lia.
    apply pow2_lt_inv; [unfold vscale; fexp_lia|].
    rewrite Z.abs_mul, (Z.abs_eq (2 ^ _)) in Hm by lia. nia. }
  apply binary_normalize_val; [done| |done..].
  replace (K + vscale) with ((K - e) + (e + vscale)) in Hm by lia.
  rewrite (Z.pow_add_r 2 (K - e)), Z.abs_mul, (Z.abs_eq (2 ^ (e + vscale)))
    in Hm by lia.
  by apply Z.mul_lt_mono_pos_r in Hm.
Qed.

Lemma wf_finite s m e :
  wf (S754_finite s m e) = true ->
  emin <= e <= 971 /\ fexp (Zdigits2 (Z.pos m) + e) = e.
Proof. intros [_ Hv]%andb_true_iff. by apply (valid_finite s). Qed.

(** ** Sums and differences *)

Lemma shl_align_fst m e ez :
  ez <= e -> Z.pos (shl_align m e ez).1 = Z.pos m * 2 ^ (e - ez).
Proof.
  intros He. unfold shl_align. destruct (ez - e) as [|d|d] eqn:Hd; [|lia|].
  - replace (e - ez) with 0 by lia. simpl. lia.
  - simpl fst. rewrite iter_xO. do 2 f_equal. lia.
Qed.

Lemma aligned_val s m e ez :
  - vscale <= ez <= e ->
  pval (cond_Zopp s (Z.pos (shl_align m e ez).1)) ez = val (S754_finite s m e).
Proof.
  intros He. rewrite shl_align_fst by lia. unfold val.
  replace ez with (e - (e - ez)) at 2 by lia.
  rewrite <- (pval_shift (cond_Zopp s (Z.pos m)) e (e - ez)) by lia.
  f_equal. destruct s; simpl; lia.
Qed.

Section Sum.
Context (K : Z) (HK1 : emin <= K - 53) (HK2 : K <= 1023).

Let err : Z := 2 * 2 ^ (K - 52 + vscale).

Lemma err_pos : 0 < err.
Proof.
  unfold err. pose proof (pow2_pos (K - 52 + vscale)). unfold vscale in *.
  fexp_lia.
Qed.

Lemma normalize_sum_val sx mx ex sy my ey (op : Z -> Z -> Z) :
  (forall a b e, pval (op a b) e = op (pval a e) (pval b e)) ->
  wf (S754_finite sx mx ex) = true -> wf (S754_finite sy my ey) = true ->
  let x := S754_finite sx mx ex in let y := S754_finite sy my ey in
  Z.abs (op (val x) (val y)) < 2 ^ (K + vscale) ->
  let ez := Z.min ex ey in
  let r := binary_normalize F64.prec F64.emax
             (op (cond_Zopp sx (Z.pos (shl_align mx ex ez).1))
                 (cond_Zopp sy (Z.pos (shl_align my ey ez).1))) ez false in
  wf r = true /\ Z.abs (val r - op (val x) (val y)) < err.
Proof.
  intros Hop Hx Hy x y Hb ez r.
  apply wf_finite in Hx as [Hex _]. apply wf_finite in Hy as [Hey _].
  assert (emin <= ez /\ ez <= ex /\ ez <= ey) as (? & ? & ?) by (unfold ez; lia).
  assert (- vscale <= ez) by (unfold vscale; fexp_lia).
  pose proof (aligned_val sx mx ex ez ltac:(lia)) as Hx.
  pose proof (aligned_val sy my ey ez ltac:(lia)) as Hy.
  fold x in Hx. fold y in Hy. rewrite <- Hx, <- Hy, <- Hop in *.
  destruct (binary_normalize_pval _ ez false K ltac:(lia) Hb HK1 HK2) as [Hf Hv].
  split; [|done]. unfold wf. fold r in Hf. rewrite Hf. apply binary_normalize_valid.
Qed.

(** [x + y], when the exact sum is below [2^K]: well-formed, and less than
    [2^(K - 51)] from the exact sum. *)
Lemma add_val x y :
  wf x = true -> wf y = true -> Z.abs (val x + val y) < 2 ^ (K + vscale) ->
  wf (F64.add x y) = true /\ Z.abs (val (F64.add x y) - (val x + val y)) < err.
Proof.
  pose proof err_pos.
  destruct x as [sx| | |sx mx ex], y as [sy| | |sy my ey]; try done; intros Hx Hy Hb.
  - split; [by destruct sx, sy|]. destruct sx, sy; simpl; lia.
  - split; [done|]. simpl val. lia.
  - split; [done|]. simpl val. lia.
  - by apply (normalize_sum_val _ _ _ _ _ _ Z.add pval_add).
Qed.

(** [x - y], likewise. *)
Lemma sub_val x y :
  wf x = true -> wf y = true -> Z.abs (val x - val y) < 2 ^ (K + vscale) ->
  wf (F64.sub x y) = true /\ Z.abs (val (F64.sub x y) - (val x - val y)) < err.
Proof.
  pose proof err_pos.
  destruct x as [sx| | |sx mx ex], y as [sy| | |sy my ey]; try done; intros Hx Hy Hb.
  - split; [by destruct sx, sy|]. destruct sx, sy; simpl; lia.
  - split; [done|]. unfold F64.sub, SFsub. rewrite val_opp. simpl val. lia.
  - split; [done|]. simpl val. lia.
  - by apply (normalize_sum_val _ _ _ _ _ _ Z.sub pval_sub).
Qed.

End Sum.

(** ** Canonical representations *)

(** The mantissa and exponent of a well-formed finite number. *)
Definition canon (m : positive) (e : Z) : Prop :=
  emin <= e <= 971 /\ fexp (Zdigits2 (Z.pos m) + e) = e.

Lemma wf_canon s m e : wf (S754_finite s m e) = true -> canon m e.
Proof. apply wf_finite. Qed.

Lemma pval_pos m e : canon m e -> 0 < pval (Z.pos m) e.
Proof.
  intros [He _]. unfold pval.
  pose proof (pow2_pos (e + vscale) ltac:(unfold vscale; fexp_lia)). lia.
Qed.

(** ** Division by a whole number: [x / y] for [y] an integer below [2^53]

    [SFdiv] computes the integer quotient [q] of the mantissas at the
    exponent [e'], at least two places below the last place of the result,
    and rounds it. The divisor is [n * 1]: the quotient of the values lies
    between [q] and [q + 1] at that exponent. *)

Section Quotient.
Context (K n : Z) (HK1 : emin <= K - 53) (HK2 : K <= 1023) (Hn : 0 < n < 2 ^ 53).
Context (mx my : positive) (ex ey : Z).
Context (Hex : emin <= ex <= 971) (Hcy : canon my ey).
Context (Hy : pval (Z.pos my) ey = pval n 0).
Context (Hx : pval (Z.pos mx) ex < n * 2 ^ (K + vscale)).
Context (q e' : Z) (Hq : 0 <= q).
Context (He : e' = Z.min (fexp (Zdigits2 (Z.pos mx) + ex - (Zdigits2 (Z.pos my) + ey)))
                         (ex - ey)).
Context (Hdiv : q * Z.pos my <= Z.pos mx * 2 ^ (ex - ey - e') < (q + 1) * Z.pos my).

Lemma quot_divisor :
  -52 <= ey <= 0 /\ n < 2 ^ (Zdigits2 (Z.pos my) + ey) /\ Z.pos my = n * 2 ^ (- ey).
Proof.
  destruct Hcy as [Hey Hc]. unfold pval in Hy. rewrite Z.add_0_l in Hy.
  pose proof (Zdigits2_bounds (Z.pos my) ltac:(lia)) as [Hl Hu].
  pose proof (Zdigits2_ge_pow2 (Z.pos my) 0) as Hd. change (2 ^ 0) with 1 in Hd.
  assert (1 <= Z.pos my) as H1 by lia. specialize (Hd H1 ltac:(lia)).
  set (d := Zdigits2 (Z.pos my)) in Hl, Hu, Hd, Hc |- *. pose proof (pow2_pos vscale ltac:(done)).
  assert (ey <= 0) as Hle.
  { destruct (Z.le_gt_cases ey 0); [done|]. assert (d = 53) as Hd53 by fexp_lia.
    rewrite Hd53 in Hl. change (2 ^ (53 - 1)) with (2 ^ 52) in Hl.
    rewrite (Z.add_comm ey), (pow2_split vscale) in Hy by (unfold vscale; lia).
    assert (Z.pos my * 2 ^ ey = n) by (apply (Z.mul_reg_r _ _ (2 ^ vscale)); lia).
    pose proof (pow2_le_mono 1 ey ltac:(lia)). change (2 ^ 1) with 2 in *. nia. }
  assert (0 <= ey + vscale) by (unfold vscale; fexp_lia).
  assert (n * 2 ^ vscale < 2 ^ d * 2 ^ (ey + vscale)) as Hlt.
  { rewrite <- Hy. apply Z.mul_lt_mono_pos_r; [by apply pow2_pos|done]. }
  rewrite <- pow2_split in Hlt by lia.
  assert (0 < d + ey).
  { enough (vscale < d + (ey + vscale)) by lia. apply pow2_lt_inv; [lia|nia]. }
  split; [fexp_lia|]. split.
  - replace (d + (ey + vscale)) with ((d + ey) + vscale) in Hlt by lia.
    rewrite pow2_split in Hlt by lia. by apply Z.mul_lt_mono_pos_r in Hlt.
  - replace vscale with (- ey + (ey + vscale)) in Hy at 2 by lia.
    rewrite (pow2_split (- ey)) in Hy by lia. pow2 (ey + vscale).
    apply (Z.mul_reg_r _ _ (2 ^ (ey + vscale))); lia.
Qed.

Lemma quot_exp : emin <= e' <= K - 53.
Proof.
  destruct quot_divisor as (Hey & Hnd & _).
  pose proof (Zdigits2_bounds (Z.pos mx) ltac:(lia)) as [Hl _].
  pose proof (Zdigits2_ge_pow2 (Z.pos mx) 0) as Hd. change (2 ^ 0) with 1 in Hd.
  specialize (Hd ltac:(lia) ltac:(lia)).
  set (d1 := Zdigits2 (Z.pos mx)) in *. set (d2 := Zdigits2 (Z.pos my)) in *.
  assert (0 <= ex + vscale /\ 0 <= K + vscale) as [? ?] by (unfold vscale; fexp_lia).
  assert (0 < d2 + ey).
  { pose proof (lt_pow2_nonneg n (d2 + ey) ltac:(lia)).
    destruct (decide (d2 + ey = 0)) as [E|]; [rewrite E in Hnd; simpl in Hnd|]; lia. }
  pow2 (ex + vscale). pow2 (K + vscale).
  assert (2 ^ (d1 - 1 + (ex + vscale)) < 2 ^ (d2 + ey + (K + vscale))) as Hlt.
  { rewrite (pow2_split (d1 - 1)), (pow2_split (d2 + ey)) by lia. unfold pval in Hx.
    apply Z.le_lt_trans with (Z.pos mx * 2 ^ (ex + vscale));
      [apply Z.mul_le_mono_nonneg_r; lia|].
    apply Z.lt_trans with (n * 2 ^ (K + vscale)); [done|].
    apply Z.mul_lt_mono_pos_r; lia. }
  apply pow2_lt_inv in Hlt; [|lia]. fexp_lia.
Qed.

Lemma quot_value :
  n * pval q e' <= pval (Z.pos mx) ex < n * pval q e' + n * 2 ^ (e' + vscale).
Proof.
  destruct quot_divisor as (Hey & _ & Hmy). pose proof quot_exp as He'.
  assert (0 <= e' + ey + vscale) by (unfold vscale; fexp_lia).
  assert (e' <= ex - ey) by lia. pow2 (e' + ey + vscale). unfold pval.
  replace (ex + vscale) with ((ex - ey - e') + (e' + ey + vscale)) by lia.
  replace (e' + vscale) with (- ey + (e' + ey + vscale)) by lia.
  rewrite (pow2_split (ex - ey - e')), (pow2_split (- ey)) by lia.
  rewrite Hmy in Hdiv. destruct Hdiv as [Hl Hu].
  apply (Z.mul_le_mono_nonneg_r _ _ (2 ^ (e' + ey + vscale))) in Hl; [|lia].
  apply (Z.mul_lt_mono_pos_r (2 ^ (e' + ey + vscale))) in Hu; [|lia]. lia.
Qed.

Lemma quot_bound : q < 2 ^ (K - e').
Proof.
  pose proof quot_exp. pose proof quot_value as [Hl _].
  destruct (decide (q = 0)) as [->|]; [apply pow2_pos; lia|].
  apply pval_lt_pow2; [unfold vscale; fexp_lia|lia|]. nia.
Qed.

Lemma quot_spec :
  emin <= e' <= K - 53 /\ q < 2 ^ (K - e') /\
  n * pval q e' <= pval (Z.pos mx) ex < n * pval q e' + n * 2 ^ (e' + vscale).
Proof. auto using quot_exp, quot_bound, quot_value. Qed.

End Quotient.

(** A well-formed float whose value is a positive integer. *)
Lemma wf_positive y n :
  wf y = true -> 0 < n -> val y = pval n 0 ->
  exists my ey, y = S754_finite false my ey /\ canon my ey /\
    pval (Z.pos my) ey = pval n 0.
Proof.
  assert (0 < pval n 0 <-> 0 < n) as Hp
    by (unfold pval; pose proof (pow2_pos (0 + vscale) ltac:(done)); nia).
  destruct y as [s| | |s my ey]; try done; intros Hwf Hn Hv.
  { simpl in Hv. lia. }
  apply wf_canon in Hwf as Hc. destruct (val_abs_finite s my ey) as [_ Hs].
  pose proof (pval_pos _ _ Hc). rewrite Hs in Hv.
  destruct s; simpl in Hv; [lia|]. by exists my, ey.
Qed.

(** [x / y] for [y] a positive integer [n] below [2^53] and [x / n] below
    [2^K]: well-formed, and less than three units of the last place,
    [3 * 2^(K - 52)], from the exact quotient. *)
Lemma div_val K n x y :
  emin <= K - 53 -> K <= 1023 -> 0 < n < 2 ^ 53 ->
  wf x = true -> wf y = true -> val y = pval n 0 ->
  Z.abs (val x) < n * 2 ^ (K + vscale) ->
  wf (F64.div x y) = true /\
  Z.abs (n * val (F64.div x y) - val x) < 3 * n * 2 ^ (K - 52 + vscale).
Proof.
  intros HK1 HK2 Hn Hx Hy Hvy Hb.
  destruct (wf_positive y n Hy ltac:(lia) Hvy) as (my & ey & -> & Hcy & Hpy).
  pose proof (pow2_pos (K - 52 + vscale) ltac:(unfold vscale; fexp_lia)) as HP.
  destruct x as [s| | |s mx ex]; try done.
  { split; [by destruct s|]. simpl. nia. }
  destruct (wf_finite _ _ _ Hx) as [Hex _].
  destruct (val_abs_finite s mx ex) as [Ha Hv]. rewrite Ha in Hb.
  unfold F64.div.
  destruct (SFdiv_finite_spec s mx ex false my ey)
    as (q & e' & m2 & e2 & Heq & (Hq & He & Hdiv) & Hr).
  destruct (quot_spec K n HK1 Hn mx my ex ey Hex Hcy Hpy Hb q e' Hq He Hdiv)
    as (He' & Hqb & Hquo).
  destruct (mk_val s q e' m2 e2 K Hr) as (Hf & Hval & Hd);
    [unfold vscale; fexp_lia|done|fexp_lia|fexp_lia|lia|].
  split; [unfold wf; rewrite SFdiv_valid, andb_true_r|]; rewrite Heq, xorb_false_r;
    [done|].
  rewrite Hval, Hv.
  pose proof (pow2_le_mono (e' + vscale) (K - 52 + vscale)
                ltac:(unfold vscale; fexp_lia)).
  destruct s; simpl cond_Zopp; nia.
Qed.

Lemma wf_two : wf F64.two = true /\ val F64.two = pval 2 0.
Proof. by_compute. Qed.

(** [x / 2.0] for [x] below [2^K]: well-formed, and less than [2^(K - 51)]
    from the exact half. *)
Lemma half_val K x :
  emin <= K - 54 -> K <= 1023 ->
  wf x = true -> Z.abs (val x) < 2 ^ (K + vscale) ->
  wf (F64.div x F64.two) = true /\
  Z.abs (2 * val (F64.div x F64.two) - val x) < 4 * 2 ^ (K - 52 + vscale).
Proof.
  intros HK1 HK2 Hwf Hb. destruct wf_two as [Hw2 Hv2].
  assert (0 <= K - 53 + vscale) by (unfold vscale; fexp_lia).
  replace (K + vscale) with (1 + (K - 1 + vscale)) in Hb by lia.
  replace (K - 52 + vscale) with (1 + (K - 1 - 52 + vscale)) by lia.
  rewrite (pow2_split 1) in * by lia. change (2 ^ 1) with 2 in *.
  pow2 (K - 1 - 52 + vscale).
  destruct (div_val (K - 1) 2 x F64.two) as [? ?]; [lia..|done|done|done|done|].
  split; [done|lia].
Qed.


(** ** Products *)

(** The exact product of two canonical numbers lies at or below the
    exponent of its rounding. *)
Lemma mul_aligned mx ex my ey :
  canon mx ex -> canon my ey ->
  ex + ey <= fexp (Zdigits2 (Z.pos (mx * my)) + (ex + ey)).
Proof.
  intros [Hex Hcx] [Hey Hcy]. rewrite Pos2Z.inj_mul.
  pose proof (Zdigits2_mul (Z.pos mx) (Z.pos my) ltac:(lia) ltac:(lia)).
  pose proof (Zdigits2_ge_pow2 (Z.pos mx) 0) as Hdx.
  pose proof (Zdigits2_ge_pow2 (Z.pos my) 0) as Hdy.
  change (2 ^ 0) with 1 in *. specialize (Hdx ltac:(lia) ltac:(lia)).
  specialize (Hdy ltac:(lia) ltac:(lia)). fexp_lia.
Qed.

Lemma pval_mul a ea b eb :
  - vscale <= ea -> - vscale <= eb -> - vscale <= ea + eb ->
  pval (a * b) (ea + eb) * 2 ^ vscale = pval a ea * pval b eb.
Proof.
  intros Ha Hb Hab. unfold pval.
  transitivity (a * b * 2 ^ ((ea + eb + vscale) + vscale)); 
    [rewrite (pow2_split (ea + eb + vscale) vscale) by (done || lia); lia|].
  replace (ea + eb + vscale + vscale) with ((ea + vscale) + (eb + vscale)) by lia.
  rewrite (pow2_split (ea + vscale)) by lia. lia.
Qed.

(** [x * y], when the exact product is below [2^K]: well-formed, and less
    than [2^(K - 51)] from the exact product. The product of two values is
    in units of [2^-(2 * vscale)]. *)
Lemma mul_val K x y :
  emin <= K - 53 -> K <= 1023 -> wf x = true -> wf y = true ->
  Z.abs (val x * val y) < 2 ^ (K + vscale) * 2 ^ vscale ->
  wf (F64.mul x y) = true /\
  Z.abs (val (F64.mul x y) * 2 ^ vscale - val x * val y)
    < 2 * 2 ^ (K - 52 + vscale) * 2 ^ vscale.
Proof.
  intros HK1 HK2 Hx Hy Hb. pose proof (pow2_pos vscale ltac:(done)) as HS.
  pose proof (pow2_pos (K - 52 + vscale) ltac:(unfold vscale; fexp_lia)) as HP.
  destruct x as [sx| | |sx mx ex], y as [sy| | |sy my ey]; try done;
    try (split; [done|simpl; nia]).
  apply wf_canon in Hx as Hcx. apply wf_canon in Hy as Hcy.
  pose proof (mul_aligned _ _ _ _ Hcx Hcy) as Hal.
  destruct Hcx as [Hex _], Hcy as [Hey _].
  destruct (val_abs_finite sx mx ex) as [_ Hvx].
  destruct (val_abs_finite sy my ey) as [_ Hvy]. rewrite Hvx, Hvy in *.
  pose proof (pval_mul (Z.pos mx) ex (Z.pos my) ey) as Hm.
  specialize (Hm ltac:(unfold vscale; fexp_lia) ltac:(unfold vscale; fexp_lia)
                 ltac:(unfold vscale; fexp_lia)).
  assert (pval (Z.pos (mx * my)) (ex + ey) < 2 ^ (K + vscale)) as Hlt.
  { rewrite Pos2Z.inj_mul. apply (Z.mul_lt_mono_pos_r (2 ^ vscale)); [done|].
    rewrite Hm. destruct sx, sy; simpl cond_Zopp in Hb; lia. }
  destruct (pval_lt_pow2 (Z.pos (mx * my)) (ex + ey) K) as [HmK HeK];
    [unfold vscale; fexp_lia|done|done|].
  unfold F64.mul, SFmul.
  destruct (binary_round_aux_spec (xorb sx sy) (Z.pos (mx * my)) (ex + ey) loc_Exact)
    as (m2 & e2 & -> & Hr); [lia|].
  assert (ex + ey <= K - 53).
  { pose proof (Zdigits2_lt_pow2 (Z.pos (mx * my)) (K - (ex + ey))
                  (conj (Pos2Z.is_pos _) HmK)). fexp_lia. }
  destruct (mk_val (xorb sx sy) _ _ _ _ K Hr) as (Hf & Hval & Hd);
    [unfold vscale; fexp_lia|done..|].
  split; [unfold wf; rewrite Hf; by eapply mk_valid|].
  rewrite Hval. rewrite Pos2Z.inj_mul in Hd.
  apply (Z.mul_lt_mono_pos_r (2 ^ vscale)) in Hd; [|done].
  rewrite <- (Z.abs_eq (2 ^ vscale)), <- Z.abs_mul in Hd by lia.
  destruct sx, sy; simpl cond_Zopp; lia.
Qed.

(** ** Absolute value and order *)

(** [x.abs()] is exact. *)
Lemma abs_val x : wf x = true -> wf (F64.abs x) = true /\ val (F64.abs x) = Z.abs (val x).
Proof.
  destruct x as [s| | |s m e]; try done; intros Hwf; (split; [done|]).
  destruct (val_abs_finite s m e) as [-> _]. by destruct (val_abs_finite false m e).
Qed.

(** The order of canonical representations, exponent first, is the order
    of the values. *)
Lemma canon_exp_lt m e m' e' :
  canon m e -> canon m' e' -> e < e' -> pval (Z.pos m) e < pval (Z.pos m') e'.
Proof.
  intros [He Hc] [He' Hc'] Hlt. unfold pval.
  pose proof (Zdigits2_bounds (Z.pos m) ltac:(lia)) as [_ Hm].
  pose proof (Zdigits2_bounds (Z.pos m') ltac:(lia)) as [Hm' _].
  assert (Zdigits2 (Z.pos m) <= 53) as Hd by fexp_lia.
  assert (Zdigits2 (Z.pos m') = 53) as Hd' by fexp_lia.
  rewrite Hd' in Hm'. change (2 ^ (53 - 1)) with (2 ^ 52) in Hm'.
  pose proof (pow2_le_mono (Zdigits2 (Z.pos m)) 53 ltac:(simpl in *; lia)).
  assert (0 <= e + vscale) by (unfold vscale; fexp_lia).
  pose proof (pow2_pos (e + vscale) ltac:(done)).
  pose proof (pow2_le_mono (53 + (e + vscale)) (52 + (e' + vscale)) ltac:(lia)) as Hp.
  rewrite (pow2_split 53), (pow2_split 52) in Hp by lia.
  pose proof (pow2_pos (e' + vscale) ltac:(lia)).
  assert (Z.pos m * 2 ^ (e + vscale) < 2 ^ 53 * 2 ^ (e + vscale))
    by (apply Z.mul_lt_mono_pos_r; lia).
  assert (2 ^ 52 * 2 ^ (e' + vscale) <= Z.pos m' * 2 ^ (e' + vscale))
    by (apply Z.mul_le_mono_nonneg_r; lia).
  lia.
Qed.

Lemma canon_lt m e m' e' :
  canon m e -> canon m' e' ->
  (e < e' \/ (e = e' /\ (m < m')%positive)) <->
  pval (Z.pos m) e < pval (Z.pos m') e'.
Proof.
  intros Hc Hc'.
  assert (forall a b : positive, pval (Z.pos a) e < pval (Z.pos b) e <-> (a < b)%positive) as Heq.
  { intros a b. unfold pval.
    pose proof (pow2_pos (e + vscale) ltac:(destruct Hc; unfold vscale; fexp_lia)).
    rewrite <- Z.mul_lt_mono_pos_r by done. lia. }
  split.
  - intros [Hlt|[<- Hlt]]; [by apply canon_exp_lt|by apply Heq].
  - intros Hv. destruct (Z.lt_trichotomy e e') as [?|[<-|Hgt]]; [by left| |].
    + right. split; [done|]. by apply Heq.
    + pose proof (canon_exp_lt _ _ _ _ Hc' Hc Hgt). lia.
Qed.

(** The key of [<=] in [Binary64.v] orders well-formed floats by value. *)
Lemma key_lt_val x y :
  wf x = true -> wf y = true ->
  lex_lt (F64.ieee_key x) (F64.ieee_key y) <-> val x < val y.
Proof.
  destruct x as [sx| | |sx mx ex], y as [sy| | |sy my ey]; try done;
    intros Hx Hy; try apply wf_canon in Hx; try apply wf_canon in Hy.
  - destruct sx, sy; simpl; lia.
  - destruct (val_abs_finite sy my ey) as [_ ->]. pose proof (pval_pos _ _ Hy).
    destruct sx, sy; simpl; lia.
  - destruct (val_abs_finite sx mx ex) as [_ ->]. pose proof (pval_pos _ _ Hx).
    destruct sx, sy; simpl; lia.
  - destruct (val_abs_finite sx mx ex) as [_ ->].
    destruct (val_abs_finite sy my ey) as [_ ->].
    pose proof (pval_pos _ _ Hx). pose proof (pval_pos _ _ Hy).
    pose proof (canon_lt _ _ _ _ Hx Hy). pose proof (canon_lt _ _ _ _ Hy Hx).
    destruct sx, sy; simpl; lia.
Qed.

Lemma wf_not_nan x : wf x = true -> F64.is_nan x = false.
Proof. by destruct x. Qed.

(** [x <= y] on well-formed floats is the order of the values. *)
Lemma le_val x y :
  wf x = true -> wf y = true -> F64.le x y = true <-> val x <= val y.
Proof.
  intros Hx Hy. rewrite le_key, (key_lt_val y x Hy Hx).
  pose proof (wf_not_nan x Hx). pose proof (wf_not_nan y Hy). intuition lia.
Qed.

(** ** Bounded magnitude *)

(** The float [2^b], and the numbers of magnitude at most [2^b]. *)
Definition pow2f (b : Z) : F64.f64 := S754_finite false 4503599627370496 (b - 52).

Definition below (b : Z) (x : F64.f64) : bool := F64.le (F64.abs x) (pow2f b).

Lemma pow2f_val b :
  -1022 <= b <= 1023 -> wf (pow2f b) = true /\ val (pow2f b) = 2 ^ (b + vscale).
Proof.
  intros Hb. split.
  - unfold wf, valid, valid_binary, bounded, canonical_mantissa, pow2f. simpl is_finite.
    rewrite andb_true_l. change (digits2_pos 4503599627370496) with 53%positive.
    apply andb_true_iff. split; [apply Z.eqb_eq|apply Z.leb_le]; fexp_lia.
  - unfold pow2f, val, pval. simpl cond_Zopp. change (Z.pos 4503599627370496) with (2 ^ 52).
    rewrite <- Z.pow_add_r by (unfold vscale; lia). f_equal. lia.
Qed.

Lemma below_val b x :
  -1022 <= b <= 1023 -> valid x = true -> below b x = true ->
  wf x = true /\ Z.abs (val x) <= 2 ^ (b + vscale).
Proof.
  intros Hb Hv Hs. destruct (pow2f_val b Hb) as [Hwb Hvb].
  assert (wf x = true) as Hwf.
  { unfold wf. rewrite Hv, andb_true_r. by destruct x as [|[]| |]. }
  split; [done|]. destruct (abs_val x Hwf) as [Ha <-]. rewrite <- Hvb.
  by apply le_val.
Qed.

(** ** Exact roundings *)

Lemma binary_round_exact s m e :
  fexp (Zdigits2 (Z.pos m) + e) <= e -> e <= 971 ->
  let r := binary_round F64.prec F64.emax s m e in
  wf r = true /\ val r = pval (cond_Zopp s (Z.pos m)) e.
Proof.
  intros He Hmax r. unfold r, binary_round. pose proof (shl_align_spec m e) as Ha.
  pose proof (shl_align_exp m e (fexp (Z.pos (digits2_pos m) + e))) as Hx.
  destruct (shl_align _ _ _) as [mz ez]. destruct Ha as (Hez & Hmz & Hal & Hmin).
  simpl in Hx. assert (emin <= e) by fexp_lia. specialize (Hmin ltac:(done)).
  assert (fexp (Zdigits2 (Z.pos mz) + ez) <= ez).
  { rewrite Hmz. pow2 (e - ez). rewrite Zdigits2_log2, Z.log2_mul_pow2 by lia.
    simpl Zdigits2 in He. rewrite digits2_pos_log2 in *. fexp_lia. }
  rewrite binary_round_aux_exact by (done || lia). unfold mk_float.
  unfold F64.emax, F64.prec. destruct (Z.leb_spec ez (1024 - 53)); [|lia]. split.
  - unfold wf, valid, valid_binary, bounded, canonical_mantissa. simpl is_finite.
    rewrite andb_true_l. apply andb_true_iff.
    split; [apply Z.eqb_eq; simpl Zdigits2 in *; lia|]. apply Z.leb_le. fexp_lia.
  - unfold val. rewrite <- (pval_shift _ e (e - ez)) by (unfold vscale; fexp_lia).
    replace (e - (e - ez)) with ez by lia. f_equal. destruct s; simpl; lia.
Qed.

(** An integer below [2^53] converts to [f64] without rounding. *)
Lemma cast_u64_exact n :
  0 <= n < 2 ^ 53 -> wf (F64.cast_u64 n) = true /\ val (F64.cast_u64 n) = pval n 0.
Proof.
  intros Hn. unfold F64.cast_u64, binary_normalize.
  destruct n as [|p|p]; [done| |lia]. apply (binary_round_exact false); [|lia].
  pose proof (Zdigits2_lt_pow2 (Z.pos p) 53 ltac:(lia)). fexp_lia.
Qed.
