(* ===== verification/Parse.v ===== *)
(** [str::parse::<f64>]: the grammar Rust documents for [f64::from_str] and
    the correctly rounded conversion of a decimal to binary64.

    The grammar, on the whole token (no surrounding blanks are skipped):
<<
      Float  ::= Sign? ( 'inf' | 'infinity' | 'nan' | Number )
      Number ::= ( Digit+ | Digit+ '.' Digit* | Digit* '.' Digit+ ) Exp?
      Exp    ::= 'e' Sign? Digit+
>>
    with the letters in either case. The empty string is the error
    [Empty], any other mismatch [Invalid]. The value of a [Number] with
    digits [d] (dot removed), [k] digits after the dot and exponent [x] is
    [d * 10^(x - k)], rounded to nearest, ties to even. *)

From Stdlib Require Import ZArith NArith List Lia SpecFloat.
From Stdlib Require Import Strings.Byte Strings.String.
From stdpp Require Import base tactics option list.
From S2P Require Import Prelude RustStd Float Binary64 Rounding.

Import ListNotations.

Module Dec2Flt.

Definition is_digit (b : byte) : bool :=
  ((48 <=? Byte.to_N b) && (Byte.to_N b <=? 57))%N.

Definition digit_value (b : byte) : Z := Z.of_N (Byte.to_N b) - 48.

(** ASCII lower case of a letter; other bytes are kept. *)
Definition to_ascii_lowercase (b : byte) : byte :=
  if ((65 <=? Byte.to_N b) && (Byte.to_N b <=? 90))%N
  then default b (Byte.of_N (Byte.to_N b + 32))
  else b.

(** The longest prefix of digits, and what follows it. *)
Fixpoint span_digits (s : list byte) : list byte * list byte :=
  match s with
  | b :: s' =>
      if is_digit b
      then let '(ds, rest) := span_digits s' in (b :: ds, rest)
      else ([], s)
  | [] => ([], [])
  end.

(** The number a string of digits denotes. *)
Definition decimal_value (ds : list byte) : Z :=
  fold_left (fun acc d => 10 * acc + digit_value d) ds 0.

(** An optional sign: whether it is [-], and the rest. *)
Definition parse_sign (s : list byte) : bool * list byte :=
  match s with
  | "-"%byte :: s' => (true, s')
  | "+"%byte :: s' => (false, s')
  | _ => (false, s)
  end.

(** What follows the [e]: a signed, non-empty run of digits up to the end. *)
Definition parse_exp (s : list byte) : option Z :=
  let '(neg, s1) := parse_sign s in
  match span_digits s1 with
  | ((_ :: _) as ds, []) => Some (if neg then - decimal_value ds else decimal_value ds)
  | _ => None
  end.

(** [Number]: the digits as an integer, and the power of ten it is
    scaled by. *)
Definition parse_number (s : list byte) : option (Z * Z) :=
  let '(int, s1) := span_digits s in
  let '(frac, s2) :=
    match s1 with
    | "."%byte :: s1' => span_digits s1'
    | _ => ([], s1)
    end in
  match int ++ frac with
  | [] => None
  | ds =>
      let m := decimal_value ds in
      let scale := - Z.of_nat (length frac) in
      match s2 with
      | [] => Some (m, scale)
      | b :: s3 =>
          if decide (to_ascii_lowercase b = "e"%byte)
          then match parse_exp s3 with
               | Some e => Some (m, e + scale)
               | None => None
               end
          else None
      end
  end.

(** ['inf'], ['infinity'] and ['nan'], on a lower-cased string. *)
Definition parse_inf_nan (s : list byte) : option F64.f64 :=
  if decide (s = list_byte_of_string "nan") then Some S754_nan
  else if decide (s = list_byte_of_string "inf") then Some (S754_infinity false)
  else if decide (s = list_byte_of_string "infinity") then Some (S754_infinity false)
  else None.

(** [(-1)^neg * m * 10^e], correctly rounded. A non-negative power of ten
    is multiplied in exactly before the one rounding; a negative one is
    divided out by [SFdiv], whose quotient is rounded once. *)
Definition dec2flt (neg : bool) (m e : Z) : F64.f64 :=
  match m with
  | Zpos p =>
      if 0 <=? e
      then binary_normalize F64.prec F64.emax
             (if neg then Z.neg p * 10 ^ e else Z.pos p * 10 ^ e) 0 neg
      else SFdiv F64.prec F64.emax
             (S754_finite neg p 0) (S754_finite false (Z.to_pos (10 ^ (- e))) 0)
  | _ => S754_zero neg
  end.

(** [s.parse::<f64>()]. *)
Definition parse (s : list byte) : Result F64.f64 :=
  match s with
  | [] => Err (ParseFloatError Empty)
  | _ =>
      let '(neg, s1) := parse_sign s in
      match parse_number s1 with
      | Some (m, e) => Ok (dec2flt neg m e)
      | None =>
          match parse_inf_nan (map to_ascii_lowercase s1) with
          | Some x => Ok (if neg then SFopp x else x)
          | None => Err (ParseFloatError Invalid)
          end
      end
  end.

End Dec2Flt.

#[export] Instance F64_from_str : FromStr F64.f64 := Dec2Flt.parse.

(** The value of a literal, for stating examples; [0.0] when the string is
    not a number. *)
Definition parse_f64 (s : string) : F64.f64 :=
  match Dec2Flt.parse (list_byte_of_string s) with
  | Ok x => x
  | Err _ => F64.zero
  end.

(** ** Tokens made of digits *)

Section Digits.
Import Dec2Flt.
Implicit Types (b : byte) (ds : list byte).

Definition digits ds : Prop := Forall (fun b => is_digit b = true) ds.

#[export] Instance digits_dec ds : Decision (digits ds).
Proof. unfold digits. apply _. Defined.

Lemma parse_sign_digit b ds :
  is_digit b = true -> parse_sign (b :: ds) = (false, b :: ds).
Proof. by destruct b. Qed.

Lemma span_digits_all ds : digits ds -> span_digits ds = (ds, []).
Proof. induction 1 as [|b ds Hb _ IH]; simpl; [done|]. by rewrite Hb, IH. Qed.

Lemma digit_value_nonneg b : is_digit b = true -> 0 <= digit_value b.
Proof.
  unfold is_digit, digit_value. intros [Hlo _]%andb_true_iff.
  apply N.leb_le in Hlo. lia.
Qed.

Lemma decimal_value_nonneg ds : digits ds -> 0 <= decimal_value ds.
Proof.
  intros Hds. unfold decimal_value. apply fold_left_invariant; [done|].
  intros acc d Hacc Hd. eapply Forall_forall in Hds; [|done].
  pose proof (digit_value_nonneg _ Hds). lia.
Qed.

Lemma parse_number_digits ds :
  ds <> [] -> digits ds -> parse_number ds = Some (decimal_value ds, 0).
Proof.
  intros Hne Hds. unfold parse_number. rewrite (span_digits_all _ Hds).
  rewrite app_nil_r. by destruct ds.
Qed.

Lemma dec2flt_integer m : 0 <= m -> dec2flt false m 0 = F64.cast_u64 m.
Proof.
  destruct m as [|p|p]; [done| |lia]. intros _. unfold dec2flt, F64.cast_u64.
  simpl (0 <=? 0). cbv iota. by rewrite Z.pow_0_r, Z.mul_1_r.
Qed.

(** A token made of decimal digits parses, and its value is the
    integer the digits denote converted to [f64] as a cast does: rounded
    to the nearest binary64 number. *)
Theorem parse_digits ds :
  ds <> [] -> digits ds -> parse ds = Ok (F64.cast_u64 (decimal_value ds)).
Proof.
  intros Hne Hds. destruct ds as [|b ds']; [done|]. unfold parse.
  rewrite parse_sign_digit by (by inversion Hds).
  rewrite parse_number_digits by done.
  by rewrite dec2flt_integer by by apply decimal_value_nonneg.
Qed.

(** The text of a natural number that is at most [2^k]. *)
Definition natural_below (k : Z) ds : Prop :=
  ds <> [] /\ digits ds /\ decimal_value ds <= 2 ^ k.

#[export] Instance natural_below_dec k ds : Decision (natural_below k ds).
Proof. unfold natural_below. apply _. Defined.

End Digits.

(** ** The parser returns valid numbers

    Whatever the token, a number [parse] returns is a float in canonical
    form: its mantissa has 53 binary digits, or fewer at the least
    exponent, and its exponent is in range. *)

Section Valid.
Import Dec2Flt.

Lemma dec2flt_valid neg m e : valid (dec2flt neg m e) = true.
Proof.
  unfold dec2flt. destruct m as [|p|p]; [done| |done].
  destruct (0 <=? e); [apply binary_normalize_valid|apply SFdiv_valid].
Qed.

Lemma parse_inf_nan_valid s x :
  parse_inf_nan s = Some x -> valid x = true /\ valid (SFopp x) = true.
Proof. unfold parse_inf_nan. repeat case_decide; by intros [= <-]. Qed.

(** The parser returns valid numbers: every [f64] that [parse] returns,
    on any token, is a zero, an infinity, the NaN, or a finite number whose
    mantissa and exponent are the canonical ones of IEEE 754 binary64. *)
Theorem parse_valid s x : parse s = Ok x -> valid x = true.
Proof.
  unfold parse. destruct s as [|b s]; [done|].
  destruct (parse_sign (b :: s)) as [neg s1].
  destruct (parse_number s1) as [[m e]|]; [intros [= <-]; apply dec2flt_valid|].
  destruct (parse_inf_nan _) as [y|] eqn:Hy; [|done]. intros [= <-].
  apply parse_inf_nan_valid in Hy as [? ?]. by destruct neg.
Qed.

End Valid.

(** ** The parser on the literals of the program and on known bit patterns *)

Definition parse_str (s : string) : Result F64.f64 :=
  Dec2Flt.parse (list_byte_of_string s).

Example parse_literals :
  parse_str "0.0" = Ok F64.zero /\
  parse_str "2.0" = Ok F64.two /\
  parse_str "0.001" = Ok F64.tol /\
  parse_str "1e-3" = Ok F64.tol.
Proof. by_compute. Qed.

Example parse_known_values :
  parse_str "0.1" = Ok (S754_finite false 0x1999999999999A (-56)) /\
  parse_str "1e23" = Ok (S754_finite false 0x152D02C7E14AF6 24) /\
  parse_str "5e-324" = Ok (S754_finite false 1 (-1074)) /\
  parse_str "1.7976931348623157E308" = Ok (S754_finite false 0x1FFFFFFFFFFFFF 971) /\
  parse_str "1e309" = Ok (S754_infinity false) /\
  parse_str "-.5" = Ok (S754_finite true 0x10000000000000 (-53)) /\
  parse_str "3.819822494817282e-8" = Ok (S754_finite false 0x1481EC8F491DCD (-77)) /\
  parse_str "38.67522961537808" = Ok (S754_finite false 0x13566DEC8DAB75 (-47)) /\
  parse_str "-0" = Ok (S754_zero true) /\
  parse_str "-Infinity" = Ok (S754_infinity true) /\
  parse_str "NaN" = Ok S754_nan.
Proof. by_compute. Qed.

Example parse_rejects :
  parse_str "" = Err (ParseFloatError Empty) /\
  parse_str "x" = Err (ParseFloatError Invalid) /\
  parse_str "." = Err (ParseFloatError Invalid) /\
  parse_str "+" = Err (ParseFloatError Invalid) /\
  parse_str "1e" = Err (ParseFloatError Invalid) /\
  parse_str "e1" = Err (ParseFloatError Invalid) /\
  parse_str "1_000" = Err (ParseFloatError Invalid) /\
  parse_str "0x10" = Err (ParseFloatError Invalid) /\
  parse_str "1.5 " = Err (ParseFloatError Invalid) /\
  parse_str "infinit" = Err (ParseFloatError Invalid).
Proof. by_compute. Qed.

Lemma parse_digits_witness :
  parse_str "18446744073709551615" = Ok (F64.cast_u64 (2 ^ 64 - 1)).
Proof.
  exact (parse_digits (list_byte_of_string "18446744073709551615")
           ltac:(done) ltac:(by_decide)).
Defined.

Lemma parse_valid_witness : valid (S754_finite false 0x1999999999999A (-56)) = true.
Proof. exact (parse_valid (list_byte_of_string "0.1") _ eq_refl). Defined.
