(* ===== verification/Scan.v ===== *)
(** The scan engine: [file_stat::for_file].

    A file is what a [BufReader] over it delivers: the bytes that can be
    read and whether reading then ends at the end of the file or with an
    I/O error. [split] is [BufRead::split], [from_utf8] is
    [String::from_utf8], and [for_file] runs a closure, modelled as a
    function on the state it captures, over the parsed tokens.

    [stream] is the contract of the engine: the values of a file up to the
    first failure, and that failure. [for_file_stream] shows that [for_file]
    folds the closure over exactly these values, in order, and returns that
    outcome. *)

From Stdlib Require Import ZArith NArith List Lia SpecFloat.
From Stdlib Require Import Strings.Byte Strings.String.
From stdpp Require Import base tactics option list.
From S2P Require Import Prelude RustStd Float Binary64 Rounding Parse.

Import ListNotations.

(** ** Files *)

(** What reading a file yields: its readable bytes, and whether the read
    after them fails. *)
Record reader := Reader {
  bytes : list byte;
  fails : bool;
}.

(** The files that can be opened, by name. *)
Definition FileSystem : Type := string -> option reader.

(** [File::open(filename)] followed by [BufReader::new]. *)
Definition File_open (fs : FileSystem) (filename : string) : Result reader :=
  match fs filename with
  | Some r => Ok r
  | None => Err IoError
  end.

(** ** [BufRead::split]

    The items of [reader.split(delim)]: each call of [read_until] takes the
    bytes up to and including the next delimiter and yields them without
    it; at the end of the file a last chunk is yielded if it is not empty
    (so a final delimiter adds no empty item); a failing read yields the
    error in place of the chunk being read. *)
Fixpoint split_bytes (delim : byte) (bs : list byte) (fails : bool)
  : list (Result (list byte)) :=
  match bs with
  | [] => if fails then [Err IoError] else []
  | b :: bs' =>
      if decide (b = delim) then Ok [] :: split_bytes delim bs' fails
      else match split_bytes delim bs' fails with
           | Ok chunk :: items => Ok (b :: chunk) :: items
           | Err e :: items => Err e :: items
           | [] => [Ok [b]]
           end
  end.

Definition split (r : reader) (delim : byte) : list (Result (list byte)) :=
  split_bytes delim (bytes r) (fails r).

(** *** The items of a file of delimited chunks

    [terminated delim chunks] is the file in which every chunk is followed
    by the delimiter, and [join delim chunks] the one in which the
    delimiter stands between the chunks only. *)

Definition terminated (delim : byte) (chunks : list (list byte)) : list byte :=
  concat (map (fun c => c ++ [delim]) chunks).

Fixpoint join (delim : byte) (chunks : list (list byte)) : list byte :=
  match chunks with
  | [] => []
  | [c] => c
  | c :: chunks' => c ++ delim :: join delim chunks'
  end.

Section SplitFacts.
Context (delim : byte).
Implicit Types (c bs : list byte) (chunks : list (list byte)).

Lemma split_bytes_chunk c bs fails :
  delim ∉ c ->
  split_bytes delim (c ++ delim :: bs) fails = Ok c :: split_bytes delim bs fails.
Proof.
  induction c as [|b c IH]; intros Hc; simpl.
  - by rewrite decide_True.
  - apply not_elem_of_cons in Hc as [Hb Hc].
    rewrite decide_False by done. by rewrite IH.
Qed.

Lemma split_bytes_last c :
  delim ∉ c -> c <> [] -> split_bytes delim c false = [Ok c].
Proof.
  induction c as [|b c IH]; intros Hc Hne; [done|]. simpl.
  apply not_elem_of_cons in Hc as [Hb Hc]. rewrite decide_False by done.
  destruct c as [|b' c]; [done|]. by rewrite IH.
Qed.

Lemma split_bytes_torn c :
  delim ∉ c -> split_bytes delim c true = [Err IoError].
Proof.
  induction c as [|b c IH]; intros Hc; [done|]. simpl.
  apply not_elem_of_cons in Hc as [Hb Hc]. rewrite decide_False by done.
  by rewrite IH.
Qed.

Lemma split_bytes_terminated chunks bs fails :
  Forall (fun c => delim ∉ c) chunks ->
  split_bytes delim (terminated delim chunks ++ bs) fails =
    map Ok chunks ++ split_bytes delim bs fails.
Proof.
  unfold terminated. induction 1 as [|c chunks Hc _ IH]; [done|]. simpl.
  rewrite <- !app_assoc. simpl. by rewrite split_bytes_chunk, IH.
Qed.

Lemma join_terminated chunks c :
  join delim (chunks ++ [c]) = terminated delim chunks ++ c.
Proof.
  unfold terminated. induction chunks as [|c' chunks IH]; [done|].
  simpl. destruct (chunks ++ [c]) eqn:Heq; [by destruct chunks|].
  rewrite <- app_assoc. simpl. by rewrite <- IH, <- app_assoc.
Qed.

(** Every file is a sequence of terminated chunks followed by a chunk
    without delimiter, and its items are these chunks, the last one only
    if it is not empty. *)
Lemma split_bytes_decompose bs :
  exists chunks c,
    Forall (fun c => delim ∉ c) chunks /\ (delim ∉ c) /\
    bs = terminated delim chunks ++ c.
Proof.
  induction bs as [|b bs (chunks & c & Hcs & Hc & ->)].
  { exists [], []. repeat split; [constructor|apply not_elem_of_nil]. }
  destruct (decide (b = delim)) as [->|Hb].
  { exists ([] :: chunks), c. repeat split; [|done].
    constructor; [apply not_elem_of_nil|done]. }
  destruct chunks as [|c' chunks].
  - exists [], (b :: c). repeat split; [done|]. by apply not_elem_of_cons.
  - exists ((b :: c') :: chunks), c. apply Forall_cons in Hcs as [Hc' Hcs].
    repeat split; [|done]. constructor; [by apply not_elem_of_cons|done].
Qed.

Lemma terminated_join chunks :
  chunks <> [] -> terminated delim chunks = join delim chunks ++ [delim].
Proof.
  destruct chunks as [|c chunks _] using rev_ind; [done|]. intros _.
  rewrite join_terminated. unfold terminated.
  rewrite map_app, concat_app. simpl. by rewrite app_nil_r, app_assoc.
Qed.

(** The items of tokens joined by single delimiters. *)
Lemma split_bytes_join tokens :
  Forall (fun tok => (delim ∉ tok) /\ tok <> []) tokens ->
  split_bytes delim (join delim tokens) false = map Ok tokens.
Proof.
  destruct tokens as [|c chunks _] using rev_ind; [done|].
  intros [Hcs [[Hc Hne] _]%Forall_cons]%Forall_app.
  rewrite join_terminated, split_bytes_terminated, split_bytes_last, map_app;
    [done..|].
  eapply Forall_impl; [exact Hcs|]. by intros ? [? ?].
Qed.


(** Splitting loses nothing: the items of a file that reads without
    error are chunks without the delimiter which, joined by single
    delimiters, give back the file, up to one delimiter at its end. *)
Theorem split_covers r :
  fails r = false ->
  exists chunks,
    split r delim = map Ok chunks /\
    Forall (fun c => delim ∉ c) chunks /\
    (bytes r = join delim chunks \/ bytes r = join delim chunks ++ [delim]).
Proof.
  destruct r as [bs f]. simpl. intros ->. unfold split. simpl.
  destruct (split_bytes_decompose bs) as (chunks & c & Hcs & Hc & ->).
  rewrite split_bytes_terminated by done.
  destruct (decide (c = [])) as [->|Hne].
  - exists chunks. rewrite !app_nil_r. repeat split; [done|].
    destruct (decide (chunks = [])) as [->|]; [by left|].
    right. by apply terminated_join.
  - exists (chunks ++ [c]). rewrite split_bytes_last, map_app by done.
    repeat split; [|by left; rewrite join_terminated].
    apply Forall_app. by repeat constructor.
Qed.

End SplitFacts.

(** ** [String::from_utf8]

    The well-formed byte sequences of UTF-8 (Unicode, table 3-7). *)

Definition byte_in (lo hi : N) (b : byte) : bool :=
  ((lo <=? Byte.to_N b) && (Byte.to_N b <=? hi))%N.

Definition utf8_cont : byte -> bool := byte_in 0x80 0xBF.

(** Whether [b0 b1 b2] starts a three-byte sequence. *)
Definition utf8_3 (b0 b1 b2 : byte) : bool :=
  ((byte_in 0xE0 0xE0 b0 && byte_in 0xA0 0xBF b1)
   || (byte_in 0xE1 0xEC b0 && utf8_cont b1)
   || (byte_in 0xED 0xED b0 && byte_in 0x80 0x9F b1)
   || (byte_in 0xEE 0xEF b0 && utf8_cont b1))
  && utf8_cont b2.

(** Whether [b0 b1 b2 b3] is a four-byte sequence. *)
Definition utf8_4 (b0 b1 b2 b3 : byte) : bool :=
  ((byte_in 0xF0 0xF0 b0 && byte_in 0x90 0xBF b1)
   || (byte_in 0xF1 0xF3 b0 && utf8_cont b1)
   || (byte_in 0xF4 0xF4 b0 && byte_in 0x80 0x8F b1))
  && utf8_cont b2 && utf8_cont b3.

Fixpoint is_utf8 (bs : list byte) : bool :=
  match bs with
  | [] => true
  | b0 :: r0 =>
      if byte_in 0x00 0x7F b0 then is_utf8 r0
      else match r0 with
      | [] => false
      | b1 :: r1 =>
          if byte_in 0xC2 0xDF b0 && utf8_cont b1 then is_utf8 r1
          else match r1 with
          | [] => false
          | b2 :: r2 =>
              if utf8_3 b0 b1 b2 then is_utf8 r2
              else match r2 with
              | [] => false
              | b3 :: r3 => utf8_4 b0 b1 b2 b3 && is_utf8 r3
              end
          end
      end
  end.

(** The [String] has the bytes it was made from. *)
Definition from_utf8 (data : list byte) : Result (list byte) :=
  if is_utf8 data then Ok data else Err FromUtf8Error.

(** ASCII text is UTF-8. *)
Lemma from_utf8_ascii data :
  Forall (fun b => byte_in 0x00 0x7F b = true) data -> from_utf8 data = Ok data.
Proof.
  unfold from_utf8. intros Hd.
  assert (is_utf8 data = true) as ->; [|done].
  induction Hd as [|b bs Hb _ IH]; [done|]. simpl. by rewrite Hb.
Qed.

Section Scan.
Context {F : Type} `{FromStr F}.

(** ** [for_file] *)

(** [String::from_utf8(data?)?.parse::<f64>()?] on one item of the split. *)
Definition parse_item (data : Result (list byte)) : Result F :=
  let? chunk := data in
  let? s := from_utf8 chunk in
  from_str s.

(** The [for] loop: [action] on each item in turn, until one fails. The
    closure is a function on the state it captures; the state is returned
    with the outcome, since the caller owns it. *)
Fixpoint for_each {St : Type} (action : St -> F -> St)
    (items : list (Result (list byte))) (st : St) : St * Result unit :=
  match items with
  | [] => (st, Ok tt)
  | data :: items' =>
      match parse_item data with
      | Ok x => for_each action items' (action st x)
      | Err e => (st, Err e)
      end
  end.

Definition for_file {St : Type} (fs : FileSystem) (filename : string)
    (action : St -> F -> St) (st : St) : St * Result unit :=
  match File_open fs filename with
  | Err e => (st, Err e)
  | Ok reader => for_each action (split reader " "%byte) st
  end.

(** ** The contract: the stream of a file *)

(** The values parsed before the first failure, and the outcome. *)
Fixpoint parse_items (items : list (Result (list byte))) : list F * Result unit :=
  match items with
  | [] => ([], Ok tt)
  | data :: items' =>
      match parse_item data with
      | Ok x => let '(xs, r) := parse_items items' in (x :: xs, r)
      | Err e => ([], Err e)
      end
  end.

Definition stream (fs : FileSystem) (filename : string) : list F * Result unit :=
  match File_open fs filename with
  | Err e => ([], Err e)
  | Ok reader => parse_items (split reader " "%byte)
  end.

(** What a statistic that is a function [f] of the values returns: [f] of
    the stream when every token parses, the error of the stream otherwise. *)
Definition on_stream {A} (fs : FileSystem) (filename : string)
    (f : list F -> A) : Result A :=
  let '(xs, r) := stream fs filename in
  let? _ := r in Ok (f xs).

Lemma for_each_parse_items {St} (action : St -> F -> St) items st :
  for_each action items st =
    (fold_left action (parse_items items).1 st, (parse_items items).2).
Proof.
  revert st. induction items as [|data items IH]; intros st; simpl; [done|].
  destruct (parse_item data) as [x|e]; simpl; [|done].
  rewrite IH. by destruct (parse_items items).
Qed.

(** The scan of a stream that is known. *)
Lemma for_file_of_stream {St} fs filename (action : St -> F -> St) st xs r :
  stream fs filename = (xs, r) ->
  for_file fs filename action st = (fold_left action xs st, r).
Proof.
  unfold for_file, stream. destruct (File_open fs filename); simpl.
  - rewrite for_each_parse_items. by intros ->.
  - by intros [= <- <-].
Qed.

(** C2. The scan engine meets its
    contract: on every file system, file name, closure and initial state,
    [for_file] leaves the state obtained by applying the closure once to
    each value of the file's stream, in file order, stopping before the
    first item that cannot be read, decoded or parsed, and it returns the
    outcome of the stream ([Ok] or that first error). *)
Theorem for_file_stream {St} fs filename (action : St -> F -> St) st :
  for_file fs filename action st =
    (fold_left action (stream fs filename).1 st, (stream fs filename).2).
Proof.
  unfold for_file, stream. destruct (File_open fs filename); simpl; [|done].
  apply for_each_parse_items.
Qed.

(** The stream of items that all parse. *)
Lemma parse_items_tokens (tokens : list (list byte)) (xs : list F) :
  Forall2 (fun tok x => parse_item (Ok tok) = Ok x) tokens xs ->
  parse_items (map Ok tokens) = (xs, Ok tt).
Proof.
  induction 1 as [|tok x tokens xs Hx _ IH]; [done|].
  cbn [map parse_items]. by rewrite Hx, IH.
Qed.

(** The stream of tokens joined by single spaces is the stream of the
    tokens. *)
Lemma stream_join fs filename r (tokens : list (list byte)) :
  fs filename = Some r ->
  fails r = false ->
  bytes r = join " " tokens ->
  Forall (fun tok => (" "%byte ∉ tok) /\ tok <> []) tokens ->
  stream fs filename = parse_items (map Ok tokens).
Proof.
  intros Hfs Hf Hbs Htok. unfold stream, File_open. rewrite Hfs. simpl.
  f_equal. destruct r as [bs f]. simpl in *. subst.
  by apply split_bytes_join.
Qed.

(** C9. The stream of a well-formed file: when the file is a sequence of
    tokens joined by single spaces, each token not empty, without a space
    and the text of a number, the stream of the file is the sequence of
    these numbers, and it does not fail. *)
Theorem stream_of_tokens fs filename r (tokens : list (list byte)) xs :
  fs filename = Some r ->
  fails r = false ->
  bytes r = join " " tokens ->
  Forall (fun tok => (" "%byte ∉ tok) /\ tok <> []) tokens ->
  Forall2 (fun tok x => parse_item (Ok tok) = Ok x) tokens xs ->
  stream fs filename = (xs, Ok tt).
Proof.
  intros Hfs Hf Hbs Htok Hxs.
  by rewrite (stream_join _ _ _ _ Hfs Hf Hbs Htok), (parse_items_tokens _ _ Hxs).
Qed.

(** Every value of the stream is what [parse] returns on some token. *)
Lemma parse_items_parsed items :
  Forall (fun x => exists s, from_str s = Ok x) (parse_items items).1.
Proof.
  induction items as [|data items IH]; [constructor|]. simpl.
  destruct (parse_item data) as [x|e] eqn:Hx; [|constructor].
  destruct (parse_items items) as [xs r]. constructor; [|done].
  unfold parse_item in Hx. destruct data as [chunk|]; [|done]. simpl in Hx.
  destruct (from_utf8 chunk) as [s|]; [|done]. by exists s.
Qed.

Lemma stream_parsed fs filename :
  Forall (fun x => exists s, from_str s = Ok x) (stream fs filename).1.
Proof.
  unfold stream. destruct (File_open fs filename); [|constructor].
  apply parse_items_parsed.
Qed.

(** A property of the captured state that holds before the scan and that
    each call of the closure preserves holds when [for_file] returns,
    whether the scan ends with the file or on a failure. *)
Lemma for_file_invariant {St} (I : St -> Prop) fs filename
    (action : St -> F -> St) st :
  I st -> (forall st x, I st -> I (action st x)) ->
  I (for_file fs filename action st).1.
Proof.
  intros Hst Hstep. destruct (stream fs filename) as [xs r] eqn:Hs.
  rewrite (for_file_of_stream _ _ _ _ _ _ Hs). simpl.
  apply fold_left_invariant; auto.
Qed.

Section OnStream.
Context {A : Type} (fs : FileSystem) (filename : string) (f : list F -> A).

Lemma on_stream_Ok xs :
  stream fs filename = (xs, Ok tt) -> on_stream fs filename f = Ok (f xs).
Proof. unfold on_stream. by intros ->. Qed.

Lemma on_stream_Err xs e :
  stream fs filename = (xs, Err e) -> on_stream fs filename f = Err e.
Proof. unfold on_stream. by intros ->. Qed.

(** A result that is right on both outcomes of the stream is [on_stream]. *)
Lemma on_stream_intro (r : Result A) :
  (forall xs, stream fs filename = (xs, Ok tt) -> r = Ok (f xs)) ->
  (forall xs e, stream fs filename = (xs, Err e) -> r = Err e) ->
  r = on_stream fs filename f.
Proof.
  unfold on_stream. destruct (stream fs filename) as [xs [[]|e]]; eauto.
Qed.

Lemma on_stream_Ok_inv a :
  on_stream fs filename f = Ok a ->
  exists xs, stream fs filename = (xs, Ok tt) /\ a = f xs.
Proof.
  unfold on_stream. destruct (stream fs filename) as [xs [[]|e]]; [|done].
  intros [= <-]. by exists xs.
Qed.

End OnStream.

End Scan.

(** ** The values of a stream, in binary64 *)


Lemma values_valid fs filename (xs : list F64.f64) r :
  stream fs filename = (xs, r) -> Forall (fun x => valid x = true) xs.
Proof.
  intros Hs. pose proof (stream_parsed fs filename) as Hp. rewrite Hs in Hp.
  eapply Forall_impl; [exact Hp|]. intros x [s Hx]. by eapply parse_valid.
Qed.

(** ** Files of natural numbers, in binary64 *)

Lemma digits_ascii ds :
  digits ds -> Forall (fun b => byte_in 0x00 0x7F b = true) ds.
Proof. intros Hds. eapply Forall_impl; [exact Hds|]. intros b. by destruct b. Qed.

Lemma digits_no_space ds : digits ds -> " "%byte ∉ ds.
Proof.
  unfold digits. rewrite Forall_forall. intros Hds Hin. by apply Hds in Hin.
Qed.

(** One item of digits: it decodes, and parses as the integer it denotes. *)
Lemma parse_item_digits ds :
  ds <> [] -> digits ds ->
  parse_item (Ok ds) = Ok (F64.cast_u64 (Dec2Flt.decimal_value ds)).
Proof.
  intros Hne Hds. unfold parse_item. simpl.
  rewrite from_utf8_ascii by by apply digits_ascii. by apply parse_digits.
Qed.

(** The stream of a file of natural numbers: when the file is a
    sequence of non-empty strings of decimal digits joined by single
    spaces, the scan decodes and parses every item, and the stream is the
    sequence of the integers the strings denote, each rounded to the
    nearest binary64 number; it does not fail, however many digits the
    strings have. *)
Theorem stream_of_naturals fs filename r (tokens : list (list byte)) :
  fs filename = Some r ->
  fails r = false ->
  bytes r = join " " tokens ->
  Forall (fun tok => tok <> [] /\ digits tok) tokens ->
  stream fs filename =
    (map (fun tok => F64.cast_u64 (Dec2Flt.decimal_value tok)) tokens, Ok tt).
Proof.
  intros Hfs Hf Hbs Htok. rewrite (stream_join _ _ _ _ Hfs Hf Hbs).
  - apply parse_items_tokens. clear Hbs.
    induction Htok as [|tok toks [Hne Hds] _ IH]; [constructor|].
    constructor; [by apply parse_item_digits|done].
  - eapply Forall_impl; [exact Htok|]. intros tok [Hne Hds].
    split; [by apply digits_no_space|done].
Qed.

(** ** Files for examples *)

(** The file system with one readable file, of the given content. *)
Definition one_file (name content : string) : FileSystem :=
  fun n => if String.eqb n name
           then Some (Reader (list_byte_of_string content) false)
           else None.

(** The same file on a device that fails once the content is read. *)
Definition failing_file (name content : string) : FileSystem :=
  fun n => if String.eqb n name
           then Some (Reader (list_byte_of_string content) true)
           else None.

(** The file of the specification's scenario, ["1 2 3 4 5"], and its values
    as binary64. *)
Definition sample_fs : FileSystem := one_file "data" "1 2 3 4 5".

Definition sample_values : list F64.f64 :=
  [ S754_finite false 4503599627370496 (-52);
    S754_finite false 4503599627370496 (-51);
    S754_finite false 6755399441055744 (-51);
    S754_finite false 4503599627370496 (-50);
    S754_finite false 5629499534213120 (-50) ].

Lemma sample_stream : stream sample_fs "data" = (sample_values, Ok tt).
Proof. by_compute. Qed.

(** A file with a malformed token, an empty file, and a file on a device
    that fails after its last byte. *)
Definition bad_fs : FileSystem := one_file "data" "1 2 x 4".

Lemma bad_stream :
  stream bad_fs "data" = (take 2 sample_values, Err (ParseFloatError Invalid)).
Proof. by_compute. Qed.

Definition empty_fs : FileSystem := one_file "data" "".

Lemma empty_stream : @stream F64.f64 _ empty_fs "data" = ([], Ok tt).
Proof. by_compute. Qed.

Definition torn_fs : FileSystem := failing_file "data" "1 2 3".

Lemma torn_stream : stream torn_fs "data" = (take 2 sample_values, Err IoError).
Proof. by_compute. Qed.

(** ** The theorems on the sample file *)

Definition sample_tokens : list (list byte) :=
  map list_byte_of_string ["1"; "2"; "3"; "4"; "5"]%string.


Lemma split_covers_witness :
  exists chunks,
    split (Reader (list_byte_of_string "1 2 ") false) " " = map Ok chunks /\
    Forall (fun c => " "%byte ∉ c) chunks /\
    (list_byte_of_string "1 2 " = join " " chunks \/
     list_byte_of_string "1 2 " = join " " chunks ++ [" "%byte]).
Proof.
  exact (split_covers " " (Reader (list_byte_of_string "1 2 ") false) eq_refl).
Defined.

Lemma stream_of_tokens_witness : stream sample_fs "data" = (sample_values, Ok tt).
Proof.
  apply (stream_of_tokens sample_fs "data"
           (Reader (list_byte_of_string "1 2 3 4 5") false) sample_tokens);
    [done | done | done | by_decide | repeat constructor].
Defined.

Definition naturals_fs : FileSystem :=
  one_file "data" "7 0042 18446744073709551616".

Definition counts_fs : FileSystem := one_file "data" "7 0042 4294967296".

Definition counts_tokens : list (list byte) :=
  map list_byte_of_string ["7"; "0042"; "4294967296"]%string.

Lemma stream_of_naturals_witness :
  stream naturals_fs "data" =
    ([ S754_finite false 7881299347898368 (-50);
       S754_finite false 5910974510923776 (-47);
       S754_finite false 4503599627370496 12 ], Ok tt).
Proof.
  pose proof (stream_of_naturals naturals_fs "data"
    (Reader (list_byte_of_string "7 0042 18446744073709551616") false)
    (map list_byte_of_string ["7"; "0042"; "18446744073709551616"])%string
    eq_refl eq_refl eq_refl) as H.
  assert (Hd : Forall (fun tok => tok <> [] /\ digits tok)
            (map list_byte_of_string
               ["7"; "0042"; "18446744073709551616"]%string)) by by_decide.
  exact (H Hd).
Defined.
