(* ===== verification/Stats.v ===== *)
(** The one- and two-pass statistics: [len], [min_max], [average],
    [dispersion] and [tails].

    Each is a scan with a closure over local variables; here the closure is
    a step function on the tuple of the variables it captures, and the
    statistic reads the result off the final tuple. The theorems relate
    each statistic to the stream of the file: what it returns when every
    token parses, and that it fails with the stream's error otherwise. *)

From Stdlib Require Import ZArith NArith List Lia SpecFloat.
From Stdlib Require Import Strings.Byte Strings.String.
From stdpp Require Import base tactics option list sets.
From S2P Require Import Prelude RustStd Float Binary64 Parse Scan.

Import ListNotations.

Section Stats.
Context {F : Type} `{FloatOps F} `{FromStr F}.
Implicit Types (fs : FileSystem) (filename : string) (x : F) (xs : list F).

(** ** [len] *)

(** The closure [|_| size += 1]. *)
Definition len_step (size : Z) (_ : F) : Z := u64_add size 1.

Definition len fs filename : Result Z :=
  let '(size, r) := for_file fs filename len_step 0 in
  let? _ := r in
  Ok size.

(** ** [min_max] *)

(** [val_min.insert(x.min(val_min.unwrap_or(x)))] and its twin: the new
    content of the option. *)
Definition min_step (val_min : option F) x : option F :=
  Some (f_min x (unwrap_or val_min x)).
Definition max_step (val_max : option F) x : option F :=
  Some (f_max x (unwrap_or val_max x)).

(** The closure of [min_max], on [(val_min, val_max)]. *)
Definition min_max_step (st : option F * option F) x : option F * option F :=
  let '(val_min, val_max) := st in
  (min_step val_min x, max_step val_max x).

Definition min_max fs filename : Result (option (F * F)) :=
  let '((val_min, val_max), r) := for_file fs filename min_max_step (None, None) in
  let? _ := r in
  Ok (Option_zip val_min val_max).

(** ** [average] *)

(** The closure of [average], on [(sum, len)]. *)
Definition average_step (st : F * Z) x : F * Z :=
  let '(sum, len) := st in
  (f_add sum x, u64_add len 1).

Definition average fs filename : Result F :=
  let '((sum, len), r) := for_file fs filename average_step (f_zero, 0) in
  let? _ := r in
  Ok (f_div sum (of_u64 len)).

(** ** [dispersion] *)

(** The closure of [dispersion], on [(sum, len)], with [x_avr] captured. *)
Definition dispersion_step (x_avr : F) (st : F * Z) x : F * Z :=
  let '(sum, len) := st in
  (f_add sum (powi2 (f_sub x x_avr)), u64_add len 1).

Definition dispersion fs filename : Result F :=
  let? x_avr := average fs filename in
  let '((sum, len), r) := for_file fs filename (dispersion_step x_avr) (f_zero, 0) in
  let? _ := r in
  Ok (f_div sum (of_u64 len)).

(** ** [tails] *)

(** The closure of [tails], on [(left, right)], with [len] captured. *)
Definition tails_step (len : nat) (st : list F * list F) x : list F * list F :=
  let left := if (length st.1 <? len)%nat then Vec_push st.1 x else st.1 in
  let right := VecDeque_push_back st.2 x in
  let right := if (len <? length right)%nat then VecDeque_pop_front right else right in
  (left, right).

Definition tails fs filename (len : nat) : Result (list F * list F) :=
  let '(st, r) := for_file fs filename (tails_step len) ([], []) in
  let? _ := r in
  Ok (st.1, st.2).

(** ** Reference definitions on the list of values *)

(** The sum as the program takes it: from [0.0], left to right. *)
Definition fsum xs : F := fold_left f_add xs f_zero.

(** The count as the program takes it: modulo [2^64]. *)
Definition count_u64 xs : Z := wrap_u64 (Z.of_nat (length xs)).

Definition mean xs : F := f_div (fsum xs) (of_u64 (count_u64 xs)).

(** The sum of the squared deviations from [m]. *)
Definition fsum_sq (m : F) xs : F :=
  fold_left (fun s x => f_add s (powi2 (f_sub x m))) xs f_zero.

(** Population variance: the squared deviations from the mean, over [n]. *)
Definition variance xs : F :=
  f_div (fsum_sq (mean xs) xs) (of_u64 (count_u64 xs)).

(** ** The statistics on a stream without failure *)

Section OnValues.
Context fs filename xs (Hstream : @stream F _ fs filename = (xs, Ok tt)).

Lemma len_Ok : len fs filename = Ok (count_u64 xs).
Proof.
  unfold len. rewrite (for_file_of_stream _ _ _ _ _ _ Hstream). simpl.
  f_equal. apply (u64_count_fold xs 0).
Qed.

Lemma average_fold (s : F) :
  fold_left average_step xs (s, 0) = (fold_left f_add xs s, count_u64 xs).
Proof.
  etrans; [exact (fold_left_pair f_add (fun n _ => u64_add n 1) xs s 0)|].
  f_equal. apply (u64_count_fold xs 0).
Qed.

Lemma average_Ok : average fs filename = Ok (mean xs).
Proof.
  unfold average. rewrite (for_file_of_stream _ _ _ _ _ _ Hstream).
  by rewrite average_fold.
Qed.

Lemma dispersion_fold (m s : F) :
  fold_left (dispersion_step m) xs (s, 0) =
    (fold_left (fun s x => f_add s (powi2 (f_sub x m))) xs s, count_u64 xs).
Proof.
  etrans; [exact (fold_left_pair (fun s x => f_add s (powi2 (f_sub x m)))
                     (fun n _ => u64_add n 1) xs s 0)|].
  f_equal. apply (u64_count_fold xs 0).
Qed.

Lemma dispersion_Ok : dispersion fs filename = Ok (variance xs).
Proof.
  unfold dispersion. rewrite average_Ok. simpl.
  rewrite (for_file_of_stream _ _ _ _ _ _ Hstream).
  by rewrite dispersion_fold.
Qed.

Lemma min_max_Ok :
  min_max fs filename =
    Ok (Option_zip (fold_left min_step xs None) (fold_left max_step xs None)).
Proof.
  unfold min_max. rewrite (for_file_of_stream _ _ _ _ _ _ Hstream).
  rewrite (fold_left_pair min_step max_step xs None None
           : fold_left min_max_step _ _ = _).
  reflexivity.
Qed.

Lemma tails_fold k :
  fold_left (tails_step k) xs ([], []) = (take k xs, drop (length xs - k) xs).
Proof.
  clear Hstream. induction xs as [|x p IH] using rev_ind.
  { by rewrite take_nil, drop_nil. }
  rewrite fold_left_snoc, IH, length_app. unfold tails_step. simpl.
  unfold Vec_push, VecDeque_push_back, VecDeque_pop_front.
  rewrite length_app, length_take, length_drop. simpl. f_equal.
  - case_ltb.
    + rewrite !take_ge by (rewrite ?length_app; simpl; lia). done.
    + rewrite take_app_le by lia. done.
  - case_ltb.
    + rewrite <- (drop_app_le p [x]) by lia.
      change (tail ?l) with (drop 1 l). rewrite drop_drop. f_equal. lia.
    + replace (length p - k)%nat with 0%nat by lia.
      replace (length p + 1 - k)%nat with 0%nat by lia. done.
Qed.

Lemma tails_Ok k :
  tails fs filename k = Ok (take k xs, drop (length xs - k) xs).
Proof.
  unfold tails. rewrite (for_file_of_stream _ _ _ _ _ _ Hstream).
  by rewrite tails_fold.
Qed.

End OnValues.

(** ** The extrema bound the ordered values *)

Section Extrema.
Context `{!FloatOrderLaws F}.

(** The running minimum is a value of the list, below its ordered values. *)
Lemma min_fold_spec xs :
  match fold_left min_step xs None with
  | None => xs = []
  | Some lo => lo ∈ xs /\ lower_bound lo (.∈ xs)
  end.
Proof.
  induction xs as [|x p IH] using rev_ind; [done|].
  rewrite fold_left_snoc. unfold min_step at 1.
  destruct (fold_left min_step p None) as [lo|]; simpl.
  - destruct IH as [Hin Hlo]. split.
    + destruct (f_min_cases x lo) as [-> | ->]; set_solver.
    + intros y Hy. apply (f_min_lower_bound x lo _ Hlo). set_solver.
  - subst p. rewrite f_min_idem. split; [set_solver|].
    intros y Hy Hoy. by apply list_elem_of_singleton in Hy as ->.
Qed.

Lemma max_fold_spec xs :
  match fold_left max_step xs None with
  | None => xs = []
  | Some hi => hi ∈ xs /\ upper_bound hi (.∈ xs)
  end.
Proof.
  induction xs as [|x p IH] using rev_ind; [done|].
  rewrite fold_left_snoc. unfold max_step at 1.
  destruct (fold_left max_step p None) as [hi|]; simpl.
  - destruct IH as [Hin Hhi]. split.
    + destruct (f_max_cases x hi) as [-> | ->]; set_solver.
    + intros y Hy. apply (f_max_upper_bound x hi _ Hhi). set_solver.
  - subst p. rewrite f_max_idem. split; [set_solver|].
    intros y Hy Hoy. by apply list_elem_of_singleton in Hy as ->.
Qed.

(** The two folds of [min_max], when both hold a value. *)
Lemma extrema_bounds xs lo hi :
  Option_zip (fold_left min_step xs None) (fold_left max_step xs None)
    = Some (lo, hi) ->
  lo ∈ xs /\ hi ∈ xs /\ lower_bound lo (.∈ xs) /\ upper_bound hi (.∈ xs).
Proof.
  pose proof (min_fold_spec xs) as Hmin. pose proof (max_fold_spec xs) as Hmax.
  destruct (fold_left min_step xs None), (fold_left max_step xs None);
    intros [=]; subst.
  destruct Hmin, Hmax. auto.
Qed.

Lemma extrema_None xs :
  Option_zip (fold_left min_step xs None) (fold_left max_step xs None) = None
  <-> xs = [].
Proof.
  pose proof (min_fold_spec xs) as Hmin. pose proof (max_fold_spec xs) as Hmax.
  destruct (fold_left min_step xs None), (fold_left max_step xs None);
    simpl; split; intros; simplify_eq; try done.
  all: by destruct Hmin as [?%elem_of_nil _] || destruct Hmax as [?%elem_of_nil _].
Qed.

End Extrema.

(** ** The statistics on a stream that fails *)

Section OnFailure.
Context fs filename xs e (Hstream : @stream F _ fs filename = (xs, Err e)).

Lemma len_failure : len fs filename = Err e.
Proof.
  unfold len. rewrite (for_file_of_stream _ _ _ _ _ _ Hstream).
  by destruct (fold_left _ _ _).
Qed.

Lemma min_max_failure : min_max fs filename = Err e.
Proof.
  unfold min_max. rewrite (for_file_of_stream _ _ _ _ _ _ Hstream).
  by destruct (fold_left _ _ _) as [? ?].
Qed.

Lemma average_failure : average fs filename = Err e.
Proof.
  unfold average. rewrite (for_file_of_stream _ _ _ _ _ _ Hstream).
  by destruct (fold_left _ _ _) as [? ?].
Qed.

Lemma dispersion_failure : dispersion fs filename = Err e.
Proof. unfold dispersion. by rewrite average_failure. Qed.

Lemma tails_failure k : tails fs filename k = Err e.
Proof.
  unfold tails. by rewrite (for_file_of_stream _ _ _ _ _ _ Hstream).
Qed.

(** C36. When a file cannot be opened or read, or one of its tokens is not
    a number, every one-pass or two-pass statistic fails with that error:
    none returns a value computed from the tokens before the failure. *)
Theorem statistics_fail k :
  len fs filename = Err e /\ min_max fs filename = Err e /\
  average fs filename = Err e /\ dispersion fs filename = Err e /\
  tails fs filename k = Err e.
Proof.
  auto using len_failure, min_max_failure, average_failure,
    dispersion_failure, tails_failure.
Qed.

End OnFailure.

(** ** The statistics as functions of the stream *)

(** C30. [len] returns the number of tokens of the file modulo [2^64] when
    every token parses, and the error of the stream otherwise. *)
Theorem len_values fs filename :
  len fs filename = on_stream fs filename count_u64.
Proof. apply on_stream_intro; [apply len_Ok | apply len_failure]. Qed.

(** On a file whose tokens all parse and are fewer than [2^64], [len]
    returns their number. *)
Theorem len_counts fs filename xs :
  stream fs filename = (xs, Ok tt) ->
  Z.of_nat (length xs) < u64_modulus ->
  len fs filename = Ok (Z.of_nat (length xs)).
Proof.
  intros Hs Hn. rewrite (len_Ok _ _ _ Hs). unfold count_u64.
  rewrite wrap_u64_exact; [done|int_lia].
Qed.

(** C10. [average] returns the sum of the values, added from [0.0] in file
    order, divided by their number cast to [f64], when every token parses,
    and the error of the stream otherwise. *)
Theorem average_values fs filename :
  average fs filename = on_stream fs filename mean.
Proof. apply on_stream_intro; [apply average_Ok | apply average_failure]. Qed.

(** C11. [dispersion] returns the population variance when every token
    parses: the squares of the deviations from the result of [average],
    added from [0.0] in file order, divided by the number of values (not by
    one less); it returns the error of the stream otherwise. *)
Theorem dispersion_values fs filename :
  dispersion fs filename = on_stream fs filename variance.
Proof.
  apply on_stream_intro; [apply dispersion_Ok | apply dispersion_failure].
Qed.

(** C5. [tails] with bound [k] returns the first [k] values and the last
    [k] values of the file, both in file order (all the values when there
    are fewer than [k]), when every token parses, and the error of the
    stream otherwise. *)
Theorem tails_values fs filename k :
  tails fs filename k =
    on_stream fs filename (fun xs => (take k xs, drop (length xs - k) xs)).
Proof.
  apply on_stream_intro; [intros; by apply tails_Ok | intros; by eapply tails_failure].
Qed.

(** The two containers [tails] returns have [min(n, k)] elements each,
    for a file of [n] values. *)
Theorem tails_lengths fs filename xs k l r :
  stream fs filename = (xs, Ok tt) ->
  tails fs filename k = Ok (l, r) ->
  length l = (length xs `min` k)%nat /\ length r = (length xs `min` k)%nat.
Proof.
  intros Hs. rewrite (tails_Ok _ _ _ Hs). intros [= <- <-].
  rewrite length_take, length_drop. lia.
Qed.

(** *** [tails] in bounded memory *)

(** The two containers hold at most [len] values each. *)
Definition window_ok (len : nat) (st : list F * list F) : Prop :=
  (length st.1 <= len)%nat /\ (length st.2 <= len)%nat.

Lemma tails_step_window len st x :
  window_ok len st -> window_ok len (tails_step len st x).
Proof.
  intros [Hl Hr]. unfold window_ok, tails_step. simpl.
  unfold Vec_push, VecDeque_push_back, VecDeque_pop_front. split.
  - case_ltb; rewrite ?length_app; simpl; lia.
  - case_ltb; rewrite ?length_tl, ?length_app in *; simpl in *; lia.
Qed.

(** C25. [tails] runs in memory bounded by its argument: whatever the file
    holds and however the scan ends, neither container holds more than
    [len] values when a call of the closure returns, so neither does when
    [for_file] returns. *)
Theorem tails_bounded fs filename len :
  (forall st x, window_ok len st -> window_ok len (tails_step len st x)) /\
  window_ok len (for_file fs filename (tails_step len) ([], [])).1.
Proof.
  split; [apply tails_step_window|].
  apply for_file_invariant; [split; simpl; lia|apply tails_step_window].
Qed.

Section ExtremaOfFile.
Context `{!FloatOrderLaws F}.

(** C6. On a file whose tokens all parse, the pair [min_max] returns
    consists of two values of the file, the first [<=] every value of the
    file that is not a NaN and the second [>=] every such value. *)
Theorem min_max_bounds fs filename xs lo hi :
  stream fs filename = (xs, Ok tt) ->
  min_max fs filename = Ok (Some (lo, hi)) ->
  lo ∈ xs /\ hi ∈ xs /\
  forall y, y ∈ xs -> ordered y -> f_le lo y = true /\ f_le y hi = true.
Proof.
  intros Hs. rewrite (min_max_Ok _ _ _ Hs). intros [= Hz].
  apply extrema_bounds in Hz as (? & ? & Hlo & Hhi). repeat split; auto.
Qed.

(** On a file whose tokens all parse, [min_max] returns [None] exactly
    when the file has no token. *)
Theorem min_max_None_iff fs filename xs :
  stream fs filename = (xs, Ok tt) ->
  min_max fs filename = Ok None <-> xs = [].
Proof.
  intros Hs. rewrite (min_max_Ok _ _ _ Hs), <- extrema_None.
  split; [by intros [=] | by intros ->].
Qed.

End ExtremaOfFile.

End Stats.

(** ** The theorems on the sample files *)

Lemma len_counts_witness : len sample_fs "data" = Ok 5.
Proof. exact (len_counts _ _ _ sample_stream eq_refl). Defined.

Lemma tails_lengths_witness :
  length (take 2 sample_values) = 2%nat /\ length (drop 3 sample_values) = 2%nat.
Proof.
  exact (tails_lengths sample_fs "data" sample_values 2 _ _ sample_stream
           (tails_Ok _ _ _ sample_stream 2)).
Defined.

Lemma statistics_fail_witness :
  len bad_fs "data" = Err (ParseFloatError Invalid) /\
  min_max bad_fs "data" = Err (ParseFloatError Invalid) /\
  average bad_fs "data" = Err (ParseFloatError Invalid) /\
  dispersion bad_fs "data" = Err (ParseFloatError Invalid) /\
  tails bad_fs "data" 2 = Err (ParseFloatError Invalid).
Proof. exact (statistics_fail _ _ _ _ bad_stream 2). Defined.

Lemma min_max_bounds_witness :
  let lo := S754_finite false 4503599627370496 (-52) in
  let hi := S754_finite false 5629499534213120 (-50) in
  lo ∈ sample_values /\ hi ∈ sample_values /\
  forall y, y ∈ sample_values -> ordered y -> f_le lo y = true /\ f_le y hi = true.
Proof. exact (min_max_bounds sample_fs "data" sample_values _ _ sample_stream eq_refl). Defined.

Lemma min_max_None_iff_witness :
  min_max empty_fs "data" = Ok None <-> ([] : list F64.f64) = [].
Proof. exact (min_max_None_iff empty_fs "data" [] empty_stream). Defined.
