(* ===== verification/Moments.v ===== *)
(** The accuracy of [average] and [dispersion], in binary64.

    [average] adds the values from [0.0] and divides by the count;
    [dispersion] adds the squares of the deviations from that average and
    divides by the count. Each operation rounds. This file bounds the
    result for a file of at most [2^c] values of magnitude at most [2^b]:
    the average is within [2^(b + c - 48)] of the exact mean of the values,
    and the dispersion within [2^(2 b + c - 43)] of their exact population
    variance.

    The exact quantities are integers: [vsum xs] is the sum of the values
    in units of [2^-vscale], and [vdev xs] the sum of the squares of
    [n * x - vsum xs], which is [n^2] times the sum of the squared
    deviations from the mean. The bounds are counted in units of the last
    place of [2^b], [U = 2^(b - 52)], so that [lia] sees numerals. *)

From Stdlib Require Import ZArith List Lia SpecFloat.
From Stdlib Require Import Strings.Byte Strings.String.
From stdpp Require Import base tactics option list.
From S2P Require Import Prelude RustStd Float Binary64 Rounding Accuracy.
From S2P Require Import Parse Scan Stats.

Import ListNotations.

(** ** Sums of floats *)

(** The exact sum of the values. *)
Definition vsum (xs : list F64.f64) : Z := zsum val xs.

(** Well-formed, and at most [M] in magnitude. *)
Definition within (M : Z) (x : F64.f64) : Prop := wf x = true /\ Z.abs (val x) <= M.

Lemma within_bound M xs : Forall (within M) xs -> Z.abs (vsum xs) <= Z.of_nat (length xs) * M.
Proof. intros Hxs. apply zsum_bound. eapply Forall_impl; [exact Hxs|]. by intros x [_ ?]. Qed.

Section SumList.
Context (K : Z) (HK1 : emin <= K - 53) (HK2 : K <= 1023).
Context (M : Z).

Let err : Z := 2 * 2 ^ (K - 52 + vscale).

(** Adding the values of [xs] to [s], which is [j] roundings from [t]:
    each addition adds one rounding, as long as the sums stay below
    [2^K]. *)
Lemma fold_add_val xs : forall s t j,
  Forall (within M) xs -> wf s = true -> 0 <= j -> Z.abs (val s - t) <= j * err ->
  Z.abs t + Z.of_nat (length xs) * M + (j + Z.of_nat (length xs)) * err
    < 2 ^ (K + vscale) ->
  wf (fold_left F64.add xs s) = true /\
  Z.abs (val (fold_left F64.add xs s) - (t + vsum xs))
    <= (j + Z.of_nat (length xs)) * err.
Proof.
  pose proof (err_pos K HK1) as Herr. fold err in Herr.
  induction xs as [|x xs IH]; intros s t j Hxs Hs Hj Hst Hb; simpl.
  { split; [done|]. unfold vsum. simpl. lia. }
  apply Forall_cons in Hxs as [[Hx HxM] Hxs]. simpl length in Hb.
  destruct (add_val K HK1 HK2 s x Hs Hx) as [Hw Hv]; [fold err; nia|].
  fold err in Hv.
  destruct (IH (F64.add s x) (t + val x) (j + 1)) as [Hw' Hv'];
    [done|done|lia|lia|lia|].
  split; [done|]. unfold vsum in *. simpl zsum. lia.
Qed.

(** The sum from [0.0]. *)
Lemma fsum_val xs :
  Forall (within M) xs ->
  Z.of_nat (length xs) * (M + err) < 2 ^ (K + vscale) ->
  wf (fsum xs) = true /\ Z.abs (val (fsum xs) - vsum xs) <= Z.of_nat (length xs) * err.
Proof.
  intros Hxs Hb.
  destruct (fold_add_val xs F64.zero 0 0 Hxs) as [Hw Hv]; [done|done|simpl; lia|simpl; lia|].
  split; [done|]. by rewrite !Z.add_0_l in Hv.
Qed.

End SumList.

(** [n^2] times the exact sum of the squared deviations from the exact
    mean: the squared deviations of the [n * x] from the sum. *)
Definition vdev (xs : list F64.f64) : Z :=
  zsum (fun x => (Z.of_nat (length xs) * val x - vsum xs) ^ 2) xs.

(** The squared deviations from any [m] exceed those from the mean by the
    square of the distance from [m] to the mean, [n] times. *)
Lemma dev_shift xs m :
  let n := Z.of_nat (length xs) in
  n ^ 2 * zsum (fun x => (val x - m) ^ 2) xs = vdev xs + n * (vsum xs - n * m) ^ 2.
Proof.
  intros n. pose proof (zsum_linear (fun x => (val x - m) ^ 2) (n ^ 2) 0 xs) as Hl.
  rewrite Z.mul_0_r, Z.add_0_r in Hl. rewrite <- Hl.
  rewrite (zsum_ext _ (fun x => ((n * val x - vsum xs) + (vsum xs - n * m)) ^ 2))
    by (intros; ring).
  rewrite (zsum_sq_shift (fun x => n * val x - vsum xs)).
  pose proof (zsum_linear val n (- vsum xs) xs) as Hz. fold n (vsum xs) in Hz.
  rewrite (zsum_ext (fun x => n * val x - vsum xs) (fun x => n * val x + - vsum xs))
    by (intros; ring).
  rewrite Hz. unfold vdev. fold n. ring.
Qed.

(** ** The mean *)

Section Bounded.
Context (b c : Z) (Hb : -512 <= b <= 485) (Hc : 0 <= c <= 48).
Context (xs : list F64.f64) (Hne : xs <> []).
Context (Hlen : Z.of_nat (length xs) <= 2 ^ c).
Context (Hxs : Forall (within (2 ^ (b + vscale))) xs).

Let n : Z := Z.of_nat (length xs).
Let C : Z := 2 ^ c.
Let U : Z := 2 ^ (b - 52 + vscale).

Lemma pow_U k e : 0 <= k -> e = k + (b - 52 + vscale) -> 2 ^ e = 2 ^ k * U.
Proof. intros Hk ->. apply pow2_split; [done|unfold vscale; lia]. Qed.

Lemma pow_CU k e : 0 <= k -> e = k + c + (b - 52 + vscale) -> 2 ^ e = 2 ^ k * (C * U).
Proof.
  intros Hk ->. unfold C, U.
  rewrite <- !pow2_split by (unfold vscale; lia). f_equal. lia.
Qed.

Lemma sizes :
  0 < n <= C /\ C <= 2 ^ 48 /\ 0 < U /\
  n * U <= C * U /\ n * (C * U) <= 2 ^ 48 * (n * U).
Proof.
  assert (0 < n) by (unfold n; destruct xs; [done|simpl; lia]).
  assert (C <= 2 ^ 48) by (apply pow2_le_mono; lia).
  assert (0 < U) by (apply pow2_pos; unfold vscale; lia).
  repeat split; [done|done|done|done|nia|nia].
Qed.

Lemma count_exact :
  wf (F64.cast_u64 (count_u64 xs)) = true /\ val (F64.cast_u64 (count_u64 xs)) = pval n 0.
Proof.
  destruct sizes as ((? & ?) & ? & _). pow_consts.
  unfold count_u64. rewrite wrap_u64_exact by (unfold in_u64, u64_modulus; fold n; lia).
  apply cast_u64_exact. fold n. pow_consts. lia.
Qed.

(** The average of at most [2^c] numbers of magnitude at most [2^b]. *)
Lemma mean_val :
  wf (mean xs) = true /\ Z.abs (n * val (mean xs) - vsum xs) < n * (4 * C + 6) * U.
Proof.
  destruct sizes as ((Hn & HnC) & HC & HU & HnU & HnCU).
  destruct count_exact as [Hwn Hvn].
  pose proof (within_bound _ _ Hxs) as Hsum. fold n in Hsum.
  destruct (fsum_val (b + c + 1) ltac:(fexp_lia) ltac:(lia) (2 ^ (b + vscale)) xs Hxs)
    as [Hws Hvs].
  { fold n. rewrite (pow_U 52 (b + vscale)), (pow_CU 1 (b + c + 1 - 52 + vscale)),
      (pow_CU 53 (b + c + 1 + vscale)) by lia. pow_consts. nia. }
  fold n in Hvs. rewrite (pow_CU 1 (b + c + 1 - 52 + vscale)) in Hvs by lia.
  rewrite (pow_U 52 (b + vscale)) in Hsum by lia. pow_consts.
  destruct (div_val (b + 1) n (fsum xs) (F64.cast_u64 (count_u64 xs)))
    as [Hwa Hva]; [fexp_lia|lia|pow_consts; lia|done|done|done| |].
  { rewrite (pow_U 53 (b + 1 + vscale)) by lia. pow_consts. lia. }
  rewrite (pow_U 1 (b + 1 - 52 + vscale)) in Hva by lia. pow_consts.
  split; [done|]. change (mean xs) with (F64.div (fsum xs) (F64.cast_u64 (count_u64 xs))).
  lia.
Qed.

(** *** The squared deviations *)

Let u : Z := 2 ^ vscale.
Let U2 : Z := 2 ^ (2 * b - 104 + vscale).
Let a : F64.f64 := mean xs.

Lemma pow_U2 k e : 0 <= k -> e = k + (2 * b - 104 + vscale) -> 2 ^ e = 2 ^ k * U2.
Proof. intros Hk ->. apply pow2_split; [done|unfold vscale; lia]. Qed.

Lemma pow_CU2 k e :
  0 <= k -> e = k + c + (2 * b - 104 + vscale) -> 2 ^ e = 2 ^ k * (C * U2).
Proof.
  intros Hk ->. unfold C, U2.
  rewrite <- !pow2_split by (unfold vscale; lia). f_equal. lia.
Qed.

Lemma units : 0 < u /\ 0 < U2 /\ U * U = U2 * u.
Proof.
  unfold u, U2, U. split; [by apply pow2_pos|].
  split; [apply pow2_pos; unfold vscale; lia|].
  rewrite <- !pow2_split by (unfold vscale; lia). f_equal. lia.
Qed.

Lemma mean_bound : wf a = true /\ Z.abs (val a) <= 2 ^ 53 * U.
Proof.
  destruct sizes as ((Hn & HnC) & HC & HU & HnU & HnCU).
  destruct mean_val as [Hwa Hva]. split; [done|]. fold a in Hva.
  pose proof (within_bound _ _ Hxs) as Hsum. fold n in Hsum.
  rewrite (pow_U 52 (b + vscale)) in Hsum by lia. pow_consts.
  apply (Z.mul_le_mono_pos_l _ _ n); [done|].
  rewrite <- (Z.abs_eq n) at 1 by lia. rewrite <- Z.abs_mul. nia.
Qed.

(** The deviation [x - a] of a value from the average. *)
Lemma dev_val x :
  within (2 ^ (b + vscale)) x ->
  wf (F64.sub x a) = true /\
  Z.abs (val (F64.sub x a) - (val x - val a)) < 8 * U /\
  Z.abs (val x - val a) <= 3 * 2 ^ 52 * U.
Proof.
  destruct sizes as (_ & _ & HU & _). destruct mean_bound as [Hwa Hba].
  rewrite (pow_U 52 (b + vscale)) by lia. intros [Hwx Hbx]. pow_consts.
  destruct (sub_val (b + 2) ltac:(fexp_lia) ltac:(lia) x a Hwx Hwa) as [Hw Hv].
  { rewrite (pow_U 54 (b + 2 + vscale)) by lia. pow_consts. lia. }
  rewrite (pow_U 2 (b + 2 - 52 + vscale)) in Hv by lia. pow_consts.
  split; [done|]. lia.
Qed.

(** Its square, as [powi(2)] computes it. *)
Definition sq_dev (m x : F64.f64) : F64.f64 := powi2 (F64.sub x m).

Lemma sq_val x :
  within (2 ^ (b + vscale)) x ->
  within (2 ^ 108 * U2) (sq_dev a x) /\
  Z.abs (val (sq_dev a x) * u - (val x - val a) ^ 2) <= 3 * 2 ^ 57 * (U * U).
Proof.
  destruct sizes as (_ & _ & HU & _). destruct units as (Hu & HU2 & HUU).
  intros Hx. destruct (dev_val x Hx) as (Hwd & Hvd & Hbd).
  set (d := val (F64.sub x a)) in *. set (e := val x - val a) in *. pow_consts.
  pose proof (Z.square_nonneg U) as HUU0.
  assert (d * d < (2 ^ 108 - 2 ^ 57) * (U * U)) as Hdd.
  { pose proof (abs_sq_lt d ((3 * 2 ^ 52 + 8) * U) ltac:(pow_consts; lia)).
    pow_consts. lia. }
  destruct (mul_val (2 * b + 4) (F64.sub x a) (F64.sub x a)) as [Hwp Hvp];
    [fexp_lia|lia|done|done| |].
  { fold d u. rewrite (pow_U2 108 (2 * b + 4 + vscale)), <- Z.mul_assoc, <- HUU by lia.
    rewrite Z.abs_eq by nia. pow_consts. lia. }
  fold d u in Hvp.
  rewrite (pow_U2 56 (2 * b + 4 - 52 + vscale)), <- !Z.mul_assoc, <- HUU in Hvp by lia.
  change (F64.mul (F64.sub x a) (F64.sub x a)) with (sq_dev a x) in *.
  pow_consts.
  assert (Z.abs (d * d - e ^ 2) <= 2 ^ 58 * (U * U)) as Hde.
  { pose proof (abs_mul_le (d - e) (d + e) (8 * U) ((6 * 2 ^ 52 + 8) * U)
                  ltac:(lia) ltac:(pow_consts; lia)) as Hm.
    replace ((d - e) * (d + e)) with (d * d - e ^ 2) in Hm by lia.
    pow_consts. lia. }
  pow_consts. split; [split; [done|]|lia].
  apply (Z.mul_le_mono_pos_r _ _ u); [done|].
  rewrite <- (Z.abs_eq u) at 1 by lia. rewrite <- Z.abs_mul, <- Z.mul_assoc, <- HUU. lia.
Qed.

Lemma fsum_sq_map m : fsum_sq m xs = fsum (map (sq_dev m) xs).
Proof. apply (fold_left_map_r F64.add (sq_dev m)). Qed.

(** The exact sum of the squared deviations from the computed average. *)
Let Q : Z := zsum (fun x => (val x - val a) ^ 2) xs.
Let ps : list F64.f64 := map (sq_dev a) xs.

Lemma sizes2 :
  n * U2 <= C * U2 /\ n * (C * U2) <= 2 ^ 48 * (n * U2) /\
  n * (C * U2) <= 2 ^ 48 * (C * U2).
Proof.
  destruct sizes as ((Hn & HnC) & HC & _). destruct units as (_ & HU2 & _).
  repeat split; nia.
Qed.

Lemma squares_within : Forall (within (2 ^ 108 * U2)) ps /\ Z.of_nat (length ps) = n.
Proof.
  split; [|unfold ps; by rewrite length_map].
  apply Forall_map. eapply Forall_impl; [exact Hxs|]. intros x Hx. by apply sq_val.
Qed.

Lemma squares_sum : Z.abs (vsum ps * u - Q) <= n * (3 * 2 ^ 57 * (U * U)).
Proof.
  unfold vsum, ps. rewrite zsum_map.
  pose proof (zsum_linear (fun x => val (sq_dev a x)) u 0 xs) as Hl.
  rewrite Z.mul_0_r, Z.add_0_r in Hl. rewrite Z.mul_comm, <- Hl.
  apply zsum_close. eapply Forall_impl; [exact Hxs|]. intros x Hx.
  destruct (sq_val x Hx) as [_ Hv]. by rewrite Z.add_0_r, Z.mul_comm.
Qed.

Lemma fsum_sq_val :
  wf (fsum ps) = true /\
  Z.abs (val (fsum ps) - vsum ps) <= n * (2 ^ 58 * (C * U2)) /\
  Z.abs (val (fsum ps)) < n * (2 ^ 109 * U2).
Proof.
  destruct sizes as ((Hn & HnC) & HC & _). destruct units as (_ & HU2 & _).
  destruct sizes2 as (H1 & H2 & H3). destruct squares_within as [Hps Hlen'].
  pose proof (within_bound _ _ Hps) as Hsum. rewrite Hlen' in Hsum.
  destruct (fsum_val (2 * b + c + 5) ltac:(fexp_lia) ltac:(lia) _ ps Hps) as [Hws Hvs].
  { rewrite Hlen', (pow_CU2 57 (2 * b + c + 5 - 52 + vscale)),
      (pow_CU2 109 (2 * b + c + 5 + vscale)) by lia. pow_consts. lia. }
  rewrite Hlen', (pow_CU2 57 (2 * b + c + 5 - 52 + vscale)) in Hvs by lia.
  pow_consts. repeat split; [done|lia|lia].
Qed.

(** The dispersion, against the exact mean square deviation from the
    computed average. *)
Lemma variance_val :
  wf (variance xs) = true /\
  Z.abs (n * val (variance xs) * u - Q) < n * (2 ^ 58 * (C + 3) * (U * U)).
Proof.
  destruct sizes as ((Hn & HnC) & HC & _). destruct units as (Hu & HU2 & HUU).
  destruct count_exact as [Hwn Hvn]. destruct fsum_sq_val as (Hws & Hvs & Hbs).
  pose proof squares_sum as Hq.
  destruct (div_val (2 * b + 5) n (fsum ps) (F64.cast_u64 (count_u64 xs)))
    as [Hwv Hvv]; [fexp_lia|lia|pow_consts; lia|done|done|done| |].
  { by rewrite (pow_U2 109 (2 * b + 5 + vscale)) by lia. }
  rewrite (pow_U2 57 (2 * b + 5 - 52 + vscale)) in Hvv by lia.
  assert (variance xs = F64.div (fsum ps) (F64.cast_u64 (count_u64 xs))) as ->
    by (unfold variance; by rewrite fsum_sq_map).
  apply (abs_scale_lt _ _ u Hu) in Hvv. apply (abs_scale_le _ _ u Hu) in Hvs.
  split; [done|]. rewrite HUU in *. pow_consts. lia.
Qed.

Lemma growth W :
  0 <= W -> W * (C * C) <= 2 ^ 48 * (W * C) /\ W <= W * C.
Proof. destruct sizes as ((Hn & HnC) & HC & _). intros. split; nia. Qed.

(** The dispersion, against the exact population variance. *)
Lemma variance_exact :
  Z.abs (n ^ 3 * (val (variance xs) * u) - vdev xs) < n ^ 3 * (2 ^ 61 * (C * (U * U))).
Proof.
  destruct sizes as ((Hn & HnC) & HC & HU & _). destruct mean_val as [_ Hm].
  destruct variance_val as [_ Hv]. pose proof (dev_shift xs (val a)) as Hs.
  simpl in Hs. fold n a Q in Hs, Hm.
  apply (abs_scale_lt _ _ (n * n) ltac:(nia)) in Hv.
  rewrite <- Z.abs_opp, Z.opp_sub_distr, Z.add_comm, Z.add_opp_r in Hm.
  apply abs_sq_lt in Hm. apply (Z.mul_lt_mono_pos_l n) in Hm; [|done].
  assert (0 <= n * ((vsum xs - n * val a) * (vsum xs - n * val a)))
    by (apply Z.mul_nonneg_nonneg; [lia|apply Z.square_nonneg]).
  destruct (growth (n * n * n * (U * U)) ltac:(nia)). pow_consts. lia.
Qed.

(** *** The bounds as powers of two *)

Lemma mean_accurate :
  wf (mean xs) = true /\
  Z.abs (n * val (mean xs) - vsum xs) < n * 2 ^ (b + c - 48 + vscale).
Proof.
  destruct sizes as ((Hn & HnC) & HC & HU & HnU & HnCU).
  destruct mean_val as [Hw Hv]. split; [done|].
  rewrite (pow_CU 4 (b + c - 48 + vscale)) by lia. pow_consts. nia.
Qed.

Lemma variance_accurate :
  wf (variance xs) = true /\
  Z.abs (n ^ 3 * (val (variance xs) * 2 ^ vscale) - vdev xs)
    < n ^ 3 * 2 ^ (2 * b + c - 43 + 2 * vscale).
Proof.
  destruct variance_val as [Hw _]. split; [done|].
  replace (2 ^ (2 * b + c - 43 + 2 * vscale)) with (2 ^ 61 * (C * (U * U)));
    [apply variance_exact|].
  unfold C, U. rewrite <- !pow2_split by (unfold vscale; lia). f_equal. lia.
Qed.

End Bounded.

(** ** The statistics of a file of bounded values *)

Lemma values_within fs filename (xs : list F64.f64) r b :
  stream fs filename = (xs, r) -> -1022 <= b <= 1023 ->
  Forall (fun x => below b x = true) xs -> Forall (within (2 ^ (b + vscale))) xs.
Proof.
  intros Hs Hb Hxs. pose proof (values_valid _ _ _ _ Hs) as Hv.
  eapply Forall_impl; [apply Forall_and; split; [exact Hv|exact Hxs]|].
  intros x [? ?]. by apply below_val.
Qed.

(** C13. The average is accurate in binary64: on a file that is read to its
    end and holds at least one and at most [2^c] values, each at most [2^b]
    in magnitude, [average] returns a finite number within
    [2^(b + c - 48)] of the exact mean of the values, for [c] up to 48 and
    [b] from -512 to 485. The sum and its [n] roundings stay below
    [2^(b + c + 1)], and the count converts to [f64] without rounding. *)
Theorem average_accurate fs filename xs b c :
  stream fs filename = (xs, Ok tt) -> xs <> [] ->
  -512 <= b <= 485 -> 0 <= c <= 48 -> Z.of_nat (length xs) <= 2 ^ c ->
  Forall (fun x => below b x = true) xs ->
  exists a, average fs filename = Ok a /\ wf a = true /\
    Z.abs (Z.of_nat (length xs) * val a - vsum xs)
      < Z.of_nat (length xs) * 2 ^ (b + c - 48 + vscale).
Proof.
  intros Hs Hne Hb Hc Hlen Hxs. exists (mean xs).
  split; [by apply average_Ok|]. apply mean_accurate; [done..|].
  eapply values_within; [done|lia|done].
Qed.

(** C14. The dispersion is accurate in binary64: on such a file [dispersion]
    returns a finite number within [2^(2 b + c - 43)] of the exact
    population variance of the values, the mean of the squares of their
    deviations from their exact mean; the error of the average it starts
    from is included. *)
Theorem dispersion_accurate fs filename xs b c :
  stream fs filename = (xs, Ok tt) -> xs <> [] ->
  -512 <= b <= 485 -> 0 <= c <= 48 -> Z.of_nat (length xs) <= 2 ^ c ->
  Forall (fun x => below b x = true) xs ->
  exists v, dispersion fs filename = Ok v /\ wf v = true /\
    Z.abs (Z.of_nat (length xs) ^ 3 * (val v * 2 ^ vscale) - vdev xs)
      < Z.of_nat (length xs) ^ 3 * 2 ^ (2 * b + c - 43 + 2 * vscale).
Proof.
  intros Hs Hne Hb Hc Hlen Hxs. exists (variance xs).
  split; [by apply dispersion_Ok|]. apply variance_accurate; [done..|].
  eapply values_within; [done|lia|done].
Qed.

(** ** The average and the extrema *)

(** The values lie between the extrema [min_max] returns. *)
Lemma extrema_val (xs : list F64.f64) lo hi :
  Forall (fun x => wf x = true) xs ->
  Option_zip (fold_left min_step xs None) (fold_left max_step xs None) = Some (lo, hi) ->
  Forall (fun x => val lo <= val x <= val hi) xs.
Proof.
  intros Hwf Hz. apply extrema_bounds in Hz as (Hlo & Hhi & Hlb & Hub).
  assert (forall x, x ∈ xs -> wf x = true) as Hw by (by apply Forall_forall).
  apply Forall_forall. intros x Hx.
  assert (ordered x) by (by apply ordered_is_nan, wf_not_nan, Hw).
  split; apply le_val; auto.
Qed.

(** C15. The average lies between the extrema, up to its rounding: on a file
    of at most [2^c] values of magnitude at most [2^b], the result of
    [average] is above the minimum and below the maximum that [min_max]
    returns by less than [2^(b + c - 48)]. It need not lie between them. *)
Theorem average_near_extrema fs filename xs b c lo hi :
  stream fs filename = (xs, Ok tt) ->
  -512 <= b <= 485 -> 0 <= c <= 48 -> Z.of_nat (length xs) <= 2 ^ c ->
  Forall (fun x => below b x = true) xs ->
  min_max fs filename = Ok (Some (lo, hi)) ->
  exists a, average fs filename = Ok a /\ wf a = true /\
    val lo - 2 ^ (b + c - 48 + vscale) < val a < val hi + 2 ^ (b + c - 48 + vscale).
Proof.
  intros Hs Hb Hc Hlen Hxs Hmm. rewrite (min_max_Ok _ _ _ Hs) in Hmm.
  injection Hmm as Hz. exists (mean xs). split; [by apply average_Ok|].
  assert (xs <> []) as Hne by (by intros ->).
  pose proof (values_within _ _ _ _ b Hs ltac:(lia) Hxs) as Hw.
  destruct (mean_accurate b c Hb Hc xs Hne Hlen Hw) as [Hwa Hva]. split; [done|].
  assert (Forall (fun x => wf x = true) xs) as Hwf
    by (eapply Forall_impl; [exact Hw|]; by intros x [? _]).
  pose proof (zsum_between val _ _ xs (extrema_val xs lo hi Hwf Hz)) as Hsum.
  fold (vsum xs) in Hsum.
  assert (0 < Z.of_nat (length xs)) by (destruct xs; [done|simpl; lia]).
  split; apply (Z.mul_lt_mono_pos_l (Z.of_nat (length xs))); lia.
Qed.

(** ** Files of natural numbers *)

Lemma below_cast_u64 b n :
  0 <= b <= 52 -> 0 <= n <= 2 ^ b -> below b (F64.cast_u64 n) = true.
Proof.
  intros Hb Hn. pose proof (pow2_le_mono b 52 ltac:(lia)). pow_consts.
  destruct (cast_u64_exact n ltac:(pow_consts; lia)) as [Hwf Hv].
  destruct (abs_val _ Hwf) as [Hwa Ha]. destruct (pow2f_val b ltac:(lia)) as [Hwb Hvb].
  unfold below. apply le_val; [done..|]. rewrite Ha, Hv, Hvb. unfold pval.
  rewrite Z.add_0_l, (pow2_split b vscale) by (done || lia).
  pose proof (pow2_pos vscale ltac:(done)). 
  rewrite Z.abs_eq by (apply Z.mul_nonneg_nonneg; lia). apply Z.mul_le_mono_nonneg_r; lia.
Qed.

Lemma vsum_cast_u64 (tokens : list (list byte)) :
  Forall (fun tok => 0 <= Dec2Flt.decimal_value tok < 2 ^ 53) tokens ->
  vsum (map (fun tok => F64.cast_u64 (Dec2Flt.decimal_value tok)) tokens)
  = zsum Dec2Flt.decimal_value tokens * 2 ^ vscale.
Proof.
  unfold vsum. rewrite zsum_map.
  induction 1 as [|tok toks Htok _ IH]; simpl zsum; [done|].
  destruct (cast_u64_exact _ Htok) as [_ ->]. rewrite IH. unfold pval.
  rewrite Z.add_0_l. lia.
Qed.

(** C22. From the bytes to the mean: on a file of at most [2^c] non-empty
    strings of decimal digits joined by single spaces, each denoting an
    integer of at most [2^b], [average] returns a finite number within
    [2^(b + c - 48)] of the mean of these integers, for [b] up to 52 and
    [c] up to 48. *)
Theorem average_of_naturals fs filename r (tokens : list (list byte)) b c :
  fs filename = Some r -> fails r = false -> bytes r = join " " tokens ->
  tokens <> [] -> 0 <= b <= 52 -> 0 <= c <= 48 ->
  Z.of_nat (length tokens) <= 2 ^ c ->
  Forall (natural_below b) tokens ->
  exists a, average fs filename = Ok a /\ wf a = true /\
    Z.abs (Z.of_nat (length tokens) * val a
           - zsum Dec2Flt.decimal_value tokens * 2 ^ vscale)
      < Z.of_nat (length tokens) * 2 ^ (b + c - 48 + vscale).
Proof.
  intros Hfs Hf Hbs Hne Hb Hc Hlen Htok.
  set (xs := map (fun tok => F64.cast_u64 (Dec2Flt.decimal_value tok)) tokens).
  assert (stream fs filename = (xs, Ok tt)) as Hs.
  { apply (stream_of_naturals _ _ _ _ Hfs Hf Hbs).
    eapply Forall_impl; [exact Htok|]. by intros tok (? & ? & ?). }
  assert (Forall (fun tok => 0 <= Dec2Flt.decimal_value tok <= 2 ^ b) tokens) as Hv.
  { eapply Forall_impl; [exact Htok|]. intros tok (_ & Hd & Hle).
    pose proof (decimal_value_nonneg tok Hd). lia. }
  assert (Forall (fun x => below b x = true) xs) as Hbel.
  { apply Forall_map. eapply Forall_impl; [exact Hv|]. intros tok ?.
    by apply below_cast_u64. }
  pose proof (pow2_le_mono b 52 ltac:(lia)) as Hp.
  rewrite <- (vsum_cast_u64 tokens), <- (length_map (fun tok => F64.cast_u64 (Dec2Flt.decimal_value tok)) tokens).
  - fold xs. exists (mean xs). split; [by apply average_Ok|].
    apply mean_accurate; [lia|done|by destruct tokens|unfold xs; by rewrite length_map|].
    eapply values_within; [done|lia|done].
  - eapply Forall_impl; [exact Hv|]. intros tok ?. pow_consts. simpl in *. lia.
Qed.

(** ** The sign of the dispersion *)

(** A NaN, or a number whose sign bit is clear. *)
Definition nonneg (x : F64.f64) : bool :=
  match x with
  | S754_nan => true
  | S754_zero s | S754_infinity s | S754_finite s _ _ => negb s
  end.

Lemma nonneg_mk_float m e : nonneg (mk_float false m e) = true.
Proof. unfold mk_float. destruct m; [done| |done]. by case_if. Qed.

Lemma nonneg_normalize m e : 0 <= m -> nonneg (binary_normalize F64.prec F64.emax m e false) = true.
Proof.
  destruct m as [|p|p]; [done| |lia]. intros _. simpl.
  destruct (binary_round_spec false p e) as (mz & ez & m2 & e2 & -> & _).
  apply nonneg_mk_float.
Qed.

Lemma nonneg_add x y : nonneg x = true -> nonneg y = true -> nonneg (F64.add x y) = true.
Proof.
  destruct x as [[]|[]| |[] mx ex], y as [[]|[]| |[] my ey]; try done. intros _ _.
  apply nonneg_normalize. simpl cond_Zopp. lia.
Qed.

Lemma nonneg_square x : nonneg (F64.mul x x) = true.
Proof.
  destruct x as [[]|[]| |s m e]; try done. unfold F64.mul, SFmul.
  destruct (binary_round_aux_spec (xorb s s) (Z.pos (m * m)) (e + e) loc_Exact)
    as (m2 & e2 & -> & _); [lia|].
  rewrite xorb_nilpotent. apply nonneg_mk_float.
Qed.

Lemma nonneg_div x y : nonneg x = true -> nonneg y = true -> nonneg (F64.div x y) = true.
Proof.
  destruct x as [[]|[]| |[] mx ex], y as [[]|[]| |[] my ey]; try done. intros _ _.
  destruct (SFdiv_finite_spec false mx ex false my ey) as (q & e' & m2 & e2 & Heq & _).
  unfold F64.div. rewrite Heq. apply nonneg_mk_float.
Qed.

Lemma nonneg_cast_u64 n : 0 <= n -> nonneg (F64.cast_u64 n) = true.
Proof. apply nonneg_normalize. Qed.

Lemma nonneg_fsum_sq m (xs : list F64.f64) : nonneg (fsum_sq m xs) = true.
Proof.
  unfold fsum_sq. apply fold_left_invariant; [done|].
  intros s x Hs _. apply nonneg_add; [done|apply nonneg_square].
Qed.

Lemma nonneg_variance (xs : list F64.f64) : nonneg (variance xs) = true.
Proof.
  apply nonneg_div; [apply nonneg_fsum_sq|]. apply nonneg_cast_u64.
  pose proof (wrap_u64_range (Z.of_nat (length xs))) as Hr. unfold in_u64 in Hr.
  unfold count_u64. lia.
Qed.

Lemma nonneg_le x : nonneg x = true -> F64.is_nan x = true \/ F64.le F64.zero x = true.
Proof. destruct x as [[]|[]| |[] m e]; try done; by (left + right). Qed.

(** C16. The dispersion is never negative in binary64: whatever the file,
    the values and their number, a result of [dispersion] is a NaN or a
    number that is at least zero, its sign bit clear. No rounding, overflow
    or cancellation in the two passes makes the sum of the squares
    negative. *)
Theorem dispersion_sign fs filename v :
  dispersion fs filename = Ok v ->
  nonneg v = true /\ (F64.is_nan v = true \/ F64.le F64.zero v = true).
Proof.
  destruct (stream fs filename) as [xs [[]|e]] eqn:Hs.
  - rewrite (dispersion_Ok _ _ _ Hs). intros [= <-].
    split; [|apply nonneg_le]; apply nonneg_variance.
  - by rewrite (dispersion_failure _ _ _ _ Hs).
Qed.

(** ** The theorems on the sample file *)

Example sample_moments :
  average sample_fs "data" = Ok (parse_f64 "3") /\
  dispersion sample_fs "data" = Ok (parse_f64 "2") /\
  vsum sample_values = 15 * 2 ^ vscale /\
  vdev sample_values = 250 * (2 ^ vscale * 2 ^ vscale).
Proof. by_compute. Qed.

Lemma sample_below : Forall (fun x => below 3 x = true) sample_values.
Proof. by_decide. Qed.

Lemma average_accurate_witness :
  exists a, average sample_fs "data" = Ok a /\ wf a = true /\
    Z.abs (5 * val a - vsum sample_values) < 5 * 2 ^ (3 + 3 - 48 + vscale).
Proof.
  exact (average_accurate sample_fs "data" sample_values 3 3 sample_stream
           ltac:(done) ltac:(lia) ltac:(lia) ltac:(by vm_compute) sample_below).
Defined.

Lemma dispersion_accurate_witness :
  exists v, dispersion sample_fs "data" = Ok v /\ wf v = true /\
    Z.abs (5 ^ 3 * (val v * 2 ^ vscale) - vdev sample_values)
      < 5 ^ 3 * 2 ^ (2 * 3 + 3 - 43 + 2 * vscale).
Proof.
  exact (dispersion_accurate sample_fs "data" sample_values 3 3 sample_stream
           ltac:(done) ltac:(lia) ltac:(lia) ltac:(by vm_compute) sample_below).
Defined.

Lemma sample_min_max :
  min_max sample_fs "data" = Ok (Some (parse_f64 "1", parse_f64 "5")).
Proof. by_compute. Qed.

Lemma average_near_extrema_witness :
  exists a, average sample_fs "data" = Ok a /\ wf a = true /\
    val (parse_f64 "1") - 2 ^ (3 + 3 - 48 + vscale) < val a
      < val (parse_f64 "5") + 2 ^ (3 + 3 - 48 + vscale).
Proof.
  exact (average_near_extrema sample_fs "data" sample_values 3 3 _ _ sample_stream
           ltac:(lia) ltac:(lia) ltac:(by vm_compute) sample_below sample_min_max).
Defined.

Lemma average_of_naturals_witness :
  exists a, average counts_fs "data" = Ok a /\ wf a = true /\
    Z.abs (3 * val a - zsum Dec2Flt.decimal_value counts_tokens * 2 ^ vscale)
      < 3 * 2 ^ (32 + 2 - 48 + vscale).
Proof.
  pose proof (average_of_naturals counts_fs "data"
    (Reader (list_byte_of_string "7 0042 4294967296") false) counts_tokens 32 2
    eq_refl eq_refl eq_refl) as H.
  assert (Hne : counts_tokens <> []) by done.
  assert (Hn : Z.of_nat (length counts_tokens) <= 2 ^ 2) by (by vm_compute).
  assert (Hd : Forall (natural_below 32) counts_tokens) by by_decide.
  exact (H Hne ltac:(lia) ltac:(lia) Hn Hd).
Defined.

Lemma dispersion_sign_witness :
  nonneg (parse_f64 "2") = true /\
  (F64.is_nan (parse_f64 "2") = true \/ F64.le F64.zero (parse_f64 "2") = true).
Proof. apply (dispersion_sign sample_fs "data"). by vm_compute. Defined.
