(* ===== verification/Median.v ===== *)
(** The median by bisection: [is_median], [find_median] and [median].

    [is_median] scans the file once and classifies a candidate value by
    the numbers of values below, equal to and above it in the order of
    [total_cmp]. [find_median] halves an interval until its width is at most
    [0.001]; it recurses without a bound, so the model takes fuel, one unit
    per call, and a run that exhausts it is [OutOfFuel]. [median] seeds the
    interval with the extrema and panics on an empty stream. The relation
    [Returns] is the same recursion without fuel, and [bisect] the same
    recursion along given verdicts. *)

From Stdlib Require Import ZArith NArith List Lia SpecFloat.
From Stdlib Require Import Strings.Byte Strings.String.
From stdpp Require Import base tactics option list sets.
From S2P Require Import Prelude RustStd Float Binary64 Parse Scan Stats.

Import ListNotations.

Section Median.
Context {F : Type} `{FloatOps F} `{FromStr F}.
Implicit Types (fs : FileSystem) (filename : string) (x val : F) (xs : list F).

(** ** [is_median] *)

(** The closure of [is_median], on [(less, eq, greater)], with [val]
    captured. *)
Definition is_median_step val (st : Z * Z * Z) x : Z * Z * Z :=
  let '(less, eq, greater) := st in
  match total_cmp x val with
  | Less => (i64_add less 1, eq, greater)
  | Equal => (less, i64_add eq 1, greater)
  | Greater => (less, eq, i64_add greater 1)
  end.

(** The verdict on the three counters. *)
Definition verdict (less eq greater : Z) : Ordering :=
  if i64_abs (i64_sub greater less) <? i64_add eq 1 then Equal
  else if greater <? less then Less
  else Greater.

Definition is_median fs filename val : Result Ordering :=
  let '((less, eq, greater), r) :=
    for_file fs filename (is_median_step val) (0, 0, 0) in
  let? _ := r in
  Ok (verdict less eq greater).

(** ** [find_median] and [median] *)

(** The candidate of one step: [(right + left) / 2.0]. *)
Definition midpoint (left right : F) : F := f_div (f_add right left) f_two.

(** The test that ends the search: [(left - right).abs() <= 0.001]. *)
Definition converged (left right : F) : bool :=
  f_le (f_abs (f_sub left right)) f_tol.

Fixpoint find_median (fuel : nat) fs filename (left right : F) : Run F :=
  match fuel with
  | O => OutOfFuel
  | S fuel' =>
      if converged left right then Finished (Ok left)
      else
        let mid := midpoint left right in
        match is_median fs filename mid with
        | Err e => Finished (Err e)
        | Ok Less => find_median fuel' fs filename left mid
        | Ok Equal => find_median fuel' fs filename left mid
        | Ok Greater => find_median fuel' fs filename mid right
        end
  end.

Definition median (fuel : nat) fs filename : Run F :=
  match min_max fs filename with
  | Err e => Finished (Err e)
  | Ok extrema =>
      match expect extrema "median requires 1+ value" with
      | Finished (Ok (min, max)) => find_median fuel fs filename min max
      | Finished (Err e) => Finished (Err e)
      | Panicked msg => Panicked msg
      | OutOfFuel => OutOfFuel
      end
  end.

(** ** Counting, on the list of values *)

(** How many values compare as [o] to [val]. *)
Definition count_cmp (o : Ordering) val xs : nat :=
  length (filter (fun x => total_cmp x val = o) xs).

(** More than half of the values are strictly above [val]: the verdict
    [Greater], stated on the list. *)
Definition more_above xs val : Prop :=
  (count_cmp Less val xs + count_cmp Equal val xs < count_cmp Greater val xs)%nat.

#[export] Instance more_above_dec xs val : Decision (more_above xs val).
Proof. unfold more_above. apply _. Defined.

Lemma count_cmp_snoc o val xs x :
  count_cmp o val (xs ++ [x]) =
    (count_cmp o val xs + if decide (total_cmp x val = o) then 1 else 0)%nat.
Proof.
  unfold count_cmp. rewrite filter_app, length_app. f_equal.
  rewrite filter_cons, filter_nil. by case_decide.
Qed.

(** The three counts partition the list. *)
Lemma count_cmp_total val xs :
  (count_cmp Less val xs + count_cmp Equal val xs + count_cmp Greater val xs
   = length xs)%nat.
Proof.
  induction xs as [|x p IH] using rev_ind; [done|].
  rewrite !count_cmp_snoc, length_app. simpl.
  destruct (total_cmp x val); repeat case_decide; try done; lia.
Qed.

(** The counters after a scan: the counts, wrapped to [i64]. *)
Lemma is_median_fold val xs :
  fold_left (is_median_step val) xs (0, 0, 0) =
    (wrap_i64 (Z.of_nat (count_cmp Less val xs)),
     wrap_i64 (Z.of_nat (count_cmp Equal val xs)),
     wrap_i64 (Z.of_nat (count_cmp Greater val xs))).
Proof.
  induction xs as [|x p IH] using rev_ind; [done|].
  rewrite fold_left_snoc, IH, !count_cmp_snoc. unfold is_median_step.
  destruct (total_cmp x val); rewrite i64_add_wrap;
    repeat case_decide; try done; repeat f_equal; lia.
Qed.

(** The verdict on exact counts, without machine integers. *)
Definition verdict_spec (less eq greater : nat) : Ordering :=
  if decide (less + eq < greater)%nat then Greater
  else if decide (greater + eq < less)%nat then Less
  else Equal.

(** While the counts stay below [i64::MAX], the verdict on the wrapped
    counters is the verdict on the counts: no operation of the test
    overflows. (At [i64::MAX] values all equal to the candidate, [eq + 1]
    would wrap.) *)
Lemma verdict_exact (less eq greater : nat) :
  Z.of_nat (less + eq + greater) < i64_MAX ->
  verdict (wrap_i64 (Z.of_nat less)) (wrap_i64 (Z.of_nat eq))
          (wrap_i64 (Z.of_nat greater)) = verdict_spec less eq greater.
Proof.
  intros Hn. unfold verdict, verdict_spec.
  rewrite !wrap_i64_exact by int_lia.
  rewrite i64_sub_exact by int_lia.
  rewrite i64_abs_exact, i64_add_exact by int_lia.
  repeat case_ltb; repeat case_decide; (done || lia).
Qed.

Section OnValues.
Context fs filename xs (Hstream : @stream F _ fs filename = (xs, Ok tt)).

Lemma is_median_values val :
  is_median fs filename val =
    Ok (verdict (wrap_i64 (Z.of_nat (count_cmp Less val xs)))
                (wrap_i64 (Z.of_nat (count_cmp Equal val xs)))
                (wrap_i64 (Z.of_nat (count_cmp Greater val xs)))).
Proof.
  unfold is_median. rewrite (for_file_of_stream _ _ _ _ _ _ Hstream).
  by rewrite is_median_fold.
Qed.

Lemma is_median_Ok val :
  Z.of_nat (length xs) < i64_MAX ->
  is_median fs filename val =
    Ok (verdict_spec (count_cmp Less val xs) (count_cmp Equal val xs)
                     (count_cmp Greater val xs)).
Proof.
  intros Hn. rewrite is_median_values, verdict_exact; [done|].
  by rewrite count_cmp_total.
Qed.

Lemma is_median_Greater_iff val :
  Z.of_nat (length xs) < i64_MAX ->
  is_median fs filename val = Ok Greater <-> more_above xs val.
Proof.
  intros Hn. rewrite is_median_Ok by done. unfold verdict_spec, more_above.
  repeat case_decide; split; intros; simplify_eq; (done || lia).
Qed.

(** *** The bisection brackets the balance point

    The search keeps two facts, whatever the arithmetic does: its lower end
    is the initial one or a candidate with more than half of the values
    strictly above it, and its upper end is the initial one or a candidate
    without that property. *)

Context (Hlen : Z.of_nat (length xs) < i64_MAX).

Lemma find_median_step fuel left right :
  find_median (S fuel) fs filename left right =
    if converged left right then Finished (Ok left)
    else if decide (more_above xs (midpoint left right))
         then find_median fuel fs filename (midpoint left right) right
         else find_median fuel fs filename left (midpoint left right).
Proof.
  simpl. destruct (converged left right); [done|].
  rewrite is_median_Ok by done. unfold verdict_spec, more_above.
  repeat case_decide; (done || lia).
Qed.

Lemma find_median_invariant fuel left right v :
  find_median fuel fs filename left right = Finished (Ok v) ->
  (v = left \/ more_above xs v) /\
  exists r, (r = right \/ ~ more_above xs r) /\ converged v r = true.
Proof.
  revert left right. induction fuel as [|fuel IH]; intros left right; [done|].
  rewrite find_median_step.
  destruct (converged left right) eqn:Hc.
  { intros [= <-]. split; [by left|]. exists right. split; [by left|done]. }
  case_decide as Hm; intros Hv; apply IH in Hv as [Hlo (r & Hhi & Hr)].
  - split; [right; by destruct Hlo as [->|]|]. by exists r.
  - split; [done|]. exists r. split; [|done]. right. by destruct Hhi as [->|].
Qed.

(** A step that leaves the interval as it is repeats for ever: when the
    interval is wider than the tolerance and the candidate is the end it
    replaces, no amount of fuel lets the search return. *)
Lemma find_median_stuck left right :
  converged left right = false ->
  (if decide (more_above xs (midpoint left right))
   then midpoint left right = left else midpoint left right = right) ->
  forall fuel, find_median fuel fs filename left right = OutOfFuel.
Proof.
  intros Hc Hmid fuel. induction fuel as [|fuel IH]; [done|].
  rewrite find_median_step, Hc. case_decide; by rewrite Hmid.
Qed.

(** With a stream that parses, no scan of the search fails. *)
Lemma find_median_no_error fuel left right e :
  find_median fuel fs filename left right <> Finished (Err e).
Proof.
  revert left right. induction fuel as [|fuel IH]; intros left right; [done|].
  rewrite find_median_step. repeat case_match; auto; done.
Qed.

Lemma find_median_no_panic fuel left right msg :
  find_median fuel fs filename left right <> Panicked msg.
Proof.
  revert left right. induction fuel as [|fuel IH]; intros left right; [done|].
  rewrite find_median_step. repeat case_match; auto; done.
Qed.

End OnValues.

(** C3. On a file whose tokens all parse, fewer than [i64::MAX] of them,
    a run of [find_median] on the interval [left, right] does not fail and
    does not panic, and when it returns a value [v] there is an upper end
    [r] with [|v - r| <= 0.001] (as the program computes it) such that [v]
    is [left] or has more than half of the values strictly above it, and [r]
    is [right] or has at most half of the values strictly above it. *)
Theorem find_median_brackets fuel fs filename xs left right :
  @stream F _ fs filename = (xs, Ok tt) ->
  Z.of_nat (length xs) < i64_MAX ->
  match find_median fuel fs filename left right with
  | Finished (Ok v) =>
      (v = left \/ more_above xs v) /\
      exists r, (r = right \/ ~ more_above xs r) /\ converged v r = true
  | Finished (Err _) | Panicked _ => False
  | OutOfFuel => True
  end.
Proof.
  intros Hs Hn.
  destruct (find_median fuel fs filename left right) as [[v|e]|msg|] eqn:Hrun.
  - by eapply find_median_invariant.
  - by eapply find_median_no_error.
  - by eapply find_median_no_panic.
  - done.
Qed.

(** A scan that fails makes [is_median] fail. *)
Lemma is_median_failure fs filename xs e val :
  @stream F _ fs filename = (xs, Err e) -> is_median fs filename val = Err e.
Proof.
  intros Hs. unfold is_median. rewrite (for_file_of_stream _ _ _ _ _ _ Hs).
  by destruct (fold_left _ _ _) as [[? ?] ?].
Qed.

(** C4. On a file of fewer than [i64::MAX] tokens [is_median] answers
    [Greater] when the values strictly above the candidate outnumber the
    others, [Less] when the values strictly below it outnumber the others,
    and [Equal] otherwise, the counters not overflowing; when the stream
    fails it returns that error. *)
Theorem is_median_spec fs filename val :
  Z.of_nat (length (@stream F _ fs filename).1) < i64_MAX ->
  is_median fs filename val =
    on_stream fs filename (fun xs =>
      verdict_spec (count_cmp Less val xs) (count_cmp Equal val xs)
                   (count_cmp Greater val xs)).
Proof.
  intros Hn. apply on_stream_intro.
  - intros xs Hs. rewrite Hs in Hn. by apply is_median_Ok.
  - intros xs e Hs. by eapply is_median_failure.
Qed.

(** [median] searches between the extrema. *)
Lemma median_of_extrema fuel fs filename lo hi :
  min_max fs filename = Ok (Some (lo, hi)) ->
  median fuel fs filename = find_median fuel fs filename lo hi.
Proof. intros Hmm. unfold median. by rewrite Hmm. Qed.

(** On a file without tokens [median] panics, with the message of its
    [expect], whatever the fuel. *)
Theorem median_empty_panics fuel fs filename :
  @stream F _ fs filename = ([], Ok tt) ->
  median fuel fs filename = Panicked "median requires 1+ value".
Proof. intros Hs. unfold median. by rewrite (min_max_Ok _ _ _ Hs). Qed.

(** On a file that cannot be opened or read, or one of whose tokens
    does not parse, [median] returns that error, without a search. *)
Theorem median_failure fuel fs filename xs e :
  @stream F _ fs filename = (xs, Err e) ->
  median fuel fs filename = Finished (Err e).
Proof. intros Hs. unfold median. by rewrite (min_max_failure _ _ _ _ Hs). Qed.

(** More fuel does not change the result of a run of [find_median]
    that finished: the fuel of the model cuts runs and does nothing else. *)
Theorem find_median_fuel_mono fuel fuel' fs filename left right r :
  (fuel <= fuel')%nat ->
  find_median fuel fs filename left right = Finished r ->
  find_median fuel' fs filename left right = Finished r.
Proof.
  revert fuel' left right. induction fuel as [|fuel IH]; intros fuel' left right Hf; [done|].
  destruct fuel' as [|fuel']; [lia|]. simpl.
  repeat case_match; auto; apply IH; lia.
Qed.

(** ** The search without fuel

    [Returns fs filename left right r]: the call
    [find_median(filename, left, right)] returns [r]. One rule per [return]
    of the function: the interval has converged, the scan of [is_median]
    fails, or the recursive call of one of the three branches returns. *)

Inductive Returns fs filename : F -> F -> Result F -> Prop :=
  | Returns_converged left right :
      converged left right = true ->
      Returns fs filename left right (Ok left)
  | Returns_Err left right e :
      converged left right = false ->
      is_median fs filename (midpoint left right) = Err e ->
      Returns fs filename left right (Err e)
  | Returns_Less left right r :
      converged left right = false ->
      is_median fs filename (midpoint left right) = Ok Less ->
      Returns fs filename left (midpoint left right) r ->
      Returns fs filename left right r
  | Returns_Equal left right r :
      converged left right = false ->
      is_median fs filename (midpoint left right) = Ok Equal ->
      Returns fs filename left (midpoint left right) r ->
      Returns fs filename left right r
  | Returns_Greater left right r :
      converged left right = false ->
      is_median fs filename (midpoint left right) = Ok Greater ->
      Returns fs filename (midpoint left right) right r ->
      Returns fs filename left right r.


Lemma fuel_of_Returns fs filename left right r :
  Returns fs filename left right r ->
  exists fuel, find_median fuel fs filename left right = Finished r.
Proof.
  induction 1 as [left right Hc|left right e Hc Ho
                 |left right r Hc Ho _ [fuel IH]|left right r Hc Ho _ [fuel IH]
                 |left right r Hc Ho _ [fuel IH]].
  1,2: exists 1%nat; simpl; by rewrite Hc, ?Ho.
  all: exists (S fuel); simpl; by rewrite Hc, Ho.
Qed.


(** A run that is out of fuel whatever the fuel is a call that does not
    return. *)
Lemma OutOfFuel_diverges fs filename left right :
  (forall fuel, find_median fuel fs filename left right = OutOfFuel) ->
  forall r, ~ Returns fs filename left right r.
Proof.
  intros Hout r [fuel Hrun]%fuel_of_Returns. by rewrite Hout in Hrun.
Qed.

(** ** The path of a search

    [bisect os left right] is what [find_median] returns from [left] and
    [right] when the successive calls of [is_median] answer [os]: the
    recursion of [find_median] with each scan replaced by its verdict. *)

Fixpoint bisect (os : list Ordering) (left right : F) : option F :=
  match os with
  | [] => if converged left right then Some left else None
  | o :: os' =>
      if converged left right then None
      else
        let mid := midpoint left right in
        match o with
        | Greater => bisect os' mid right
        | _ => bisect os' left mid
        end
  end.

(** A search that returns a value has followed a path, one verdict per
    scan, and the fuel it needs is the length of the path plus one. *)
Lemma find_median_bisect fuel fs filename left right v :
  find_median fuel fs filename left right = Finished (Ok v) ->
  exists os, (length os < fuel)%nat /\ bisect os left right = Some v.
Proof.
  revert left right. induction fuel as [|fuel IH]; intros left right; [done|].
  simpl. destruct (converged left right) eqn:Hc.
  { intros [= <-]. exists []. simpl. rewrite Hc. split; [lia|done]. }
  destruct (is_median fs filename (midpoint left right)) as [[| |]|e] eqn:Ho;
    [| | |done]; intros (os & Hlen & Hos)%IH.
  1: exists (Less :: os). 2: exists (Equal :: os). 3: exists (Greater :: os).
  all: simpl; rewrite Hc; split; [lia|done].
Qed.

End Median.

(** ** The theorems on the sample files *)

(** [3.0], and the result of the search on the sample file. *)
Definition sample_three : F64.f64 := S754_finite false 6755399441055744 (-51).
Definition sample_median : F64.f64 := S754_finite false 6753200417800192 (-51).

Lemma sample_median_run : median 13 sample_fs "data" = Finished (Ok sample_median).
Proof. by_compute. Qed.

Lemma is_median_spec_witness :
  is_median sample_fs "data" sample_three =
    on_stream sample_fs "data" (fun xs =>
      verdict_spec (count_cmp Less sample_three xs)
        (count_cmp Equal sample_three xs) (count_cmp Greater sample_three xs)).
Proof. refine (is_median_spec sample_fs "data" sample_three _). by vm_compute. Defined.

Lemma find_median_brackets_witness :
  match find_median 13 sample_fs "data"
          (S754_finite false 4503599627370496 (-52))
          (S754_finite false 5629499534213120 (-50)) with
  | Finished (Ok v) =>
      (v = S754_finite false 4503599627370496 (-52) \/
       more_above sample_values v) /\
      exists r, (r = S754_finite false 5629499534213120 (-50) \/
                 ~ more_above sample_values r) /\ converged v r = true
  | Finished (Err _) | Panicked _ => False
  | OutOfFuel => True
  end.
Proof.
  pose proof (find_median_brackets 13 sample_fs "data" sample_values
                (S754_finite false 4503599627370496 (-52))
                (S754_finite false 5629499534213120 (-50)) sample_stream) as H.
  assert (Hn : Z.of_nat (length sample_values) < i64_MAX) by reflexivity.
  exact (H Hn).
Defined.

Lemma median_empty_panics_witness :
  median 7 empty_fs "data" = (Panicked "median requires 1+ value" : Run F64.f64).
Proof. exact (median_empty_panics 7 _ _ empty_stream). Defined.

Lemma median_failure_witness :
  median 7 bad_fs "data" = (Finished (Err (ParseFloatError Invalid)) : Run F64.f64).
Proof. exact (median_failure 7 _ _ _ _ bad_stream). Defined.

Lemma find_median_fuel_mono_witness :
  find_median 40 sample_fs "data"
    (S754_finite false 4503599627370496 (-52))
    (S754_finite false 5629499534213120 (-50)) = Finished (Ok sample_median).
Proof.
  refine (find_median_fuel_mono 13 40 _ _ _ _ _ _ sample_median_run). lia.
Defined.

