(* ===== verification/MedianSpec.v ===== *)
(** The median [median] is measured against: the lower median of the
    values, read off the sorted list.

    The verdict of [is_median] is a count; this file turns it into an order
    fact. For the lower median [m] of a non-empty list (the element of
    index [(n - 1) / 2] once sorted by [total_cmp]), more than half of the
    values lie strictly above [v] exactly when [v] is strictly below [m].
    With it the count invariant of the bisection reads: the result is at
    most [m], and [m] is at most the last upper end. *)

From Stdlib Require Import ZArith NArith List Lia SpecFloat.
From Stdlib Require Import Strings.Byte Strings.String.
From stdpp Require Import base tactics option list sets sorting.
From S2P Require Import Prelude RustStd Float Binary64 Parse Scan Stats Median.

Import ListNotations.

Section Reference.
Context {F : Type} `{TotalCmpLaws F}.
Implicit Types (x v m : F) (xs s : list F).

(** The values in the order of [total_cmp]. *)
Definition sorted_values xs : list F := merge_sort tle xs.

(** The lower median: the middle element of the sorted values, the first of
    the two middle ones when their number is even. *)
Definition lower_median xs : option F :=
  sorted_values xs !! ((length xs - 1) / 2)%nat.

(** How many values are at most [v]. *)
Definition count_le v xs : nat := length (filter (fun x => tle x v) xs).

Lemma count_le_cons v x xs :
  count_le v (x :: xs) = ((if decide (tle x v) then 1 else 0) + count_le v xs)%nat.
Proof. unfold count_le. rewrite filter_cons. by case_decide. Qed.

Lemma count_le_app v xs ys : count_le v (xs ++ ys) = (count_le v xs + count_le v ys)%nat.
Proof. unfold count_le. by rewrite filter_app, length_app. Qed.

Lemma count_le_cmp v xs :
  count_le v xs = (count_cmp Less v xs + count_cmp Equal v xs)%nat.
Proof.
  induction xs as [|x p IH] using rev_ind; [done|].
  rewrite count_le_app, !count_cmp_snoc, IH, count_le_cons.
  change (count_le v []) with 0%nat.
  repeat case_decide; unfold tle in *; try lia;
    destruct (total_cmp x v); intuition congruence.
Qed.

Lemma count_le_Permutation v xs ys : xs ≡ₚ ys -> count_le v xs = count_le v ys.
Proof. intros Hp. unfold count_le. by rewrite Hp. Qed.

Lemma count_le_all v xs : Forall (fun y => tle y v) xs -> count_le v xs = length xs.
Proof.
  induction 1 as [|y l Hy _ IH]; [done|].
  rewrite count_le_cons, IH. by case_decide.
Qed.

Lemma count_le_none v xs : Forall (fun y => tlt v y) xs -> count_le v xs = 0%nat.
Proof.
  induction 1 as [|y l Hy _ IH]; [done|].
  rewrite count_le_cons, IH. case_decide; [|done].
  by apply tlt_not_tle in Hy.
Qed.

(** More than half of the values are strictly above [v] when fewer than
    half are at most [v]. *)
Lemma more_above_count_le xs v :
  more_above xs v <-> (2 * count_le v xs < length xs)%nat.
Proof.
  unfold more_above. rewrite count_le_cmp, <- (count_cmp_total v xs). lia.
Qed.

(** In a sorted list, what is at most [v] sits before any element above
    [v], and reaches past any element at most [v]. *)
Lemma count_le_sorted_lt s k m v :
  StronglySorted tle s -> s !! k = Some m -> tlt v m -> (count_le v s <= k)%nat.
Proof.
  intros Hs Hk Hv. rewrite <- (take_drop_middle s k m Hk) in Hs |- *.
  apply StronglySorted_app in Hs as (_ & _ & [Hm _]%StronglySorted_cons).
  rewrite count_le_app, (count_le_none v (m :: _)).
  - unfold count_le. pose proof (length_filter (fun x => tle x v) (take k s)).
    rewrite length_take in *. lia.
  - constructor; [done|]. eapply Forall_impl; [exact Hm|].
    intros y Hy. by eapply tlt_tle_trans.
Qed.

Lemma count_le_sorted_ge s k m v :
  StronglySorted tle s -> s !! k = Some m -> tle m v -> (k < count_le v s)%nat.
Proof.
  intros Hs Hk Hv. pose proof (lookup_lt_Some _ _ _ Hk) as Hlt.
  rewrite <- (take_drop_middle s k m Hk) in Hs |- *.
  rewrite (cons_middle m), app_assoc in Hs |- *.
  apply StronglySorted_app in Hs as (_ & Hs & _).
  rewrite count_le_app, (count_le_all v (take k s ++ [m])).
  - rewrite length_app, length_take. simpl. lia.
  - apply Forall_app. split; [|by constructor].
    apply StronglySorted_app in Hs as (Hm & _ & _).
    apply Forall_forall. intros y Hy.
    eapply tle_trans; [|exact Hv]. apply Hm; [done|by left].
Qed.

Lemma sorted_values_sorted xs : StronglySorted tle (sorted_values xs).
Proof. apply StronglySorted_merge_sort; apply _. Qed.

Lemma sorted_values_Permutation xs : sorted_values xs ≡ₚ xs.
Proof. apply merge_sort_Permutation. Qed.

Lemma lower_median_is_Some xs : xs <> [] -> is_Some (lower_median xs).
Proof.
  intros Hne. apply lookup_lt_is_Some.
  rewrite (Permutation_length (sorted_values_Permutation xs)).
  pose proof (Nat.div_mod_eq (length xs - 1) 2).
  destruct xs; [done|]. simpl length in *. lia.
Qed.

Lemma lower_median_elem_of xs m : lower_median xs = Some m -> m ∈ xs.
Proof.
  intros Hm. rewrite <- (sorted_values_Permutation xs).
  by eapply list_elem_of_lookup_2.
Qed.

(** For the lower median [m] of a list of values, more than half of the
    values are strictly above [v] in the order of [total_cmp] exactly when
    [v] is strictly below [m]. *)
Lemma more_above_iff_below_median xs m v :
  lower_median xs = Some m -> more_above xs v <-> tlt v m.
Proof.
  intros Hm. rewrite more_above_count_le.
  rewrite <- (count_le_Permutation v _ _ (sorted_values_Permutation xs)).
  pose proof (sorted_values_sorted xs) as Hs.
  pose proof (Nat.div_mod_eq (length xs - 1) 2) as Hd.
  pose proof (Nat.mod_upper_bound (length xs - 1) 2) as Hr.
  assert (length xs <> 0%nat) as Hn.
  { apply lower_median_elem_of in Hm. by destruct xs; [apply elem_of_nil in Hm|]. }
  split.
  - intros Hc. apply tlt_not_tle. intros Hv.
    pose proof (count_le_sorted_ge _ _ _ _ Hs Hm Hv). lia.
  - intros Hv. pose proof (count_le_sorted_lt _ _ _ _ Hs Hm Hv). lia.
Qed.

End Reference.

(** ** [median] against the lower median *)

Section Soundness.
Context {F : Type} `{FloatOrderLaws F} `{FromStr F}.

(** C7. On a file whose tokens all parse, fewer than [i64::MAX] of them,
    with lower median [m]: [is_median] answers [Greater] for a candidate
    exactly when the candidate is strictly below [m] in the order of
    [total_cmp]. The answers [Less] and [Equal] both say that the lower
    median is at most the candidate. *)
Theorem is_median_Greater_below_median fs filename xs m v :
  stream fs filename = (xs, Ok tt) ->
  Z.of_nat (length xs) < i64_MAX ->
  lower_median xs = Some m ->
  is_median fs filename v = Ok Greater <-> tlt v m.
Proof.
  intros Hs Hlen Hm. rewrite (is_median_Greater_iff _ _ _ Hs) by done.
  by apply more_above_iff_below_median.
Qed.

(** An interval whose left end is the left end of an interval that holds
    the lower median [m], or has more values above it than at or below it,
    and whose right end is the right end of that interval, or has not,
    holds [m], when its ends are within the tolerance of each other. *)
Lemma bracket_sound xs m left right v r :
  lower_median xs = Some m -> ordered m ->
  f_le left m = true -> f_le m right = true ->
  v = left \/ more_above xs v ->
  r = right \/ ~ more_above xs r ->
  converged v r = true ->
  f_le v m = true /\ f_le m r = true.
Proof.
  intros Hm Hom Hlo Hhi Hv Hr Hc.
  destruct (f_sub_abs_le_ordered _ _ _ Hc) as [Hov Hor]. split.
  - destruct Hv as [-> | Hv]; [done|].
    apply f_le_of_tle; [done..|]. apply tlt_tle.
    by apply (more_above_iff_below_median xs m v Hm).
  - destruct Hr as [-> | Hr]; [done|].
    apply f_le_of_tle; [done..|].
    destruct (decide (tle m r)) as [|Hn]; [done|]. exfalso. apply Hr.
    apply (more_above_iff_below_median xs m r Hm). by apply tlt_not_tle.
Qed.

(** The search started on an interval that holds the lower median [m]
    returns a value that is at most [m], within the tolerance of a value
    that is at least [m]. *)
Lemma find_median_sound fuel fs filename xs m left right v :
  stream fs filename = (xs, Ok tt) ->
  Z.of_nat (length xs) < i64_MAX ->
  lower_median xs = Some m -> ordered m ->
  f_le left m = true -> f_le m right = true ->
  find_median fuel fs filename left right = Finished (Ok v) ->
  exists r, f_le v m = true /\ f_le m r = true /\ converged v r = true.
Proof.
  intros Hs Hlen Hm Hom Hlo Hhi Hfm.
  destruct (find_median_invariant _ _ _ Hs Hlen _ _ _ _ Hfm) as [Hv (r & Hr & Hc)].
  destruct (bracket_sound xs m left right v r) as [? ?]; [done..|]. by exists r.
Qed.

(** The extrema of a file without NaN enclose its lower median. *)
Lemma extrema_enclose_median xs lo hi :
  Option_zip (fold_left min_step xs None) (fold_left max_step xs None)
    = Some (lo, hi) ->
  Forall ordered xs ->
  exists m, lower_median xs = Some m /\ ordered m /\
    f_le lo m = true /\ f_le m hi = true.
Proof.
  intros (Hlo & Hhi & Hblo & Hbhi)%extrema_bounds Hord.
  destruct (lower_median_is_Some xs) as [m Hm].
  { intros ->. by apply elem_of_nil in Hlo. }
  pose proof (lower_median_elem_of _ _ Hm) as Hmx.
  assert (ordered m) as Hom by (by eapply Forall_forall in Hord).
  exists m. repeat split; [done..|by apply Hblo|by apply Hbhi].
Qed.

(** C1. On a file whose tokens all parse, none to a NaN, with fewer than
    [i64::MAX] of them: when [median] returns a value [v], the lower median
    [m] of the values exists, [v <= m], and there is an [r] with [m <= r]
    and [|v - r| <= 0.001] (the difference as the program computes it). *)
Theorem median_sound fuel fs filename xs v :
  stream fs filename = (xs, Ok tt) ->
  Z.of_nat (length xs) < i64_MAX ->
  Forall ordered xs ->
  median fuel fs filename = Finished (Ok v) ->
  exists m r, lower_median xs = Some m /\
    f_le v m = true /\ f_le m r = true /\ converged v r = true.
Proof.
  intros Hs Hlen Hord. unfold median. rewrite (min_max_Ok _ _ _ Hs).
  destruct (Option_zip _ _) as [[lo hi]|] eqn:Hmm; simpl; [|done]. intros Hfm.
  destruct (extrema_enclose_median _ _ _ Hmm Hord) as (m & Hm & Hom & Hlo & Hhi).
  destruct (find_median_sound _ _ _ _ _ _ _ _ Hs Hlen Hm Hom Hlo Hhi Hfm)
    as (r & ?). by exists m, r.
Qed.

End Soundness.

(** ** The theorems on the sample file *)

Lemma sample_lower_median : lower_median sample_values = Some sample_three.
Proof. by_compute. Qed.

Lemma is_median_Greater_below_median_witness :
  is_median sample_fs "data" sample_median = Ok Greater <->
  tlt sample_median sample_three.
Proof.
  pose proof (is_median_Greater_below_median sample_fs "data" sample_values
                sample_three sample_median sample_stream) as H.
  assert (Hn : Z.of_nat (length sample_values) < i64_MAX) by reflexivity.
  exact (H Hn sample_lower_median).
Defined.

Lemma sample_ordered : Forall ordered sample_values.
Proof. by repeat constructor. Qed.

Lemma median_sound_witness :
  exists m r, lower_median sample_values = Some m /\
    f_le sample_median m = true /\ f_le m r = true /\
    converged sample_median r = true.
Proof.
  exact (median_sound 13 sample_fs "data" sample_values sample_median
           sample_stream eq_refl sample_ordered sample_median_run).
Defined.
