(* ===== verification/Scenarios.v ===== *)
(** The program on binary64: the scenarios of the specification, run, and
    the inputs on which properties the specification expects do not hold
    of the code.

    Every statement here is about concrete files, parsed and computed with
    the binary64 arithmetic of [Binary64.v]; the statements quantified over
    the fuel say that a run does not return. *)

From Stdlib Require Import ZArith NArith List Lia SpecFloat.
From Stdlib Require Import Strings.Byte Strings.String.
From stdpp Require Import base tactics option list sets.
From S2P Require Import Prelude RustStd Float Binary64 Parse Scan Stats Median MedianSpec.

Import ListNotations.

(** ** The scenario ["1 2 3 4 5"] with [k = 2] *)

(** On the file ["1 2 3 4 5"]: [len] is 5, [min_max] is (1, 5),
    [average] is 3, [dispersion] is 2, [tails] with bound 2 gives the prefix
    [1, 2] and the suffix [4, 5], and [median], with 13 units of fuel,
    returns a value [v <= 3] with [|3 - v| <= 0.001]. *)
Theorem scenario_one_to_five :
  len sample_fs "data" = Ok 5 /\
  min_max sample_fs "data" = Ok (Some (parse_f64 "1", parse_f64 "5")) /\
  average sample_fs "data" = Ok (parse_f64 "3") /\
  dispersion sample_fs "data" = Ok (parse_f64 "2") /\
  tails sample_fs "data" 2 =
    Ok ([parse_f64 "1"; parse_f64 "2"], [parse_f64 "4"; parse_f64 "5"]) /\
  exists v, median 13 sample_fs "data" = Finished (Ok v) /\
    f_le v (parse_f64 "3") = true /\ converged (parse_f64 "3") v = true.
Proof.
  do 5 (split; [by_compute|]). exists sample_median. by_compute.
Qed.

(** ** The empty file *)


(** ** Where tokens end *)


(** ** Rounding against the expected properties *)




(** ** Runs of [median] that do not return *)

Definition infinity_fs : FileSystem := one_file "data" "inf".

Lemma infinity_stream :
  stream infinity_fs "data" = ([S754_infinity false], Ok tt).
Proof. by_compute. Qed.

(** On the file ["inf"] [median] never returns: the width of the
    interval, [inf - inf], is a NaN, which is not [<= 0.001], and the
    midpoint is [inf] again. *)
Theorem median_diverges_on_infinity fuel :
  median fuel infinity_fs "data" = (OutOfFuel : Run F64.f64).
Proof.
  rewrite (median_of_extrema _ _ _ (S754_infinity false) (S754_infinity false))
    by by_compute.
  apply (find_median_stuck _ _ _ infinity_stream); by_compute.
Qed.

Definition large_fs : FileSystem :=
  one_file "data" "1e16 10000000000000002 10000000000000002".

Definition large_values : list F64.f64 :=
  [ S754_finite false 5000000000000000 1;
    S754_finite false 5000000000000001 1;
    S754_finite false 5000000000000001 1 ].

Lemma large_stream : stream large_fs "data" = (large_values, Ok tt).
Proof. by_compute. Qed.

(** On a file with the values [1e16], [1e16 + 2], [1e16 + 2] (adjacent
    binary64 numbers, 2 apart) [median] never returns: the midpoint rounds
    to the lower end, two of the three values are above it, and the
    interval stays as it is, wider than 0.001. *)
Theorem median_diverges_on_large_values fuel :
  median fuel large_fs "data" = (OutOfFuel : Run F64.f64).
Proof.
  rewrite (median_of_extrema _ _ _ (S754_finite false 5000000000000000 1)
             (S754_finite false 5000000000000001 1)) by by_compute.
  apply (find_median_stuck _ _ _ large_stream); by_compute.
Qed.

Definition huge_fs : FileSystem := one_file "data" "1e308 1.5e308".

Definition huge_values : list F64.f64 :=
  [ S754_finite false 5010420900022432 971;
    S754_finite false 7515631350033648 971 ].

Lemma huge_stream : stream huge_fs "data" = (huge_values, Ok tt).
Proof. by_compute. Qed.

(** On the file ["1e308 1.5e308"] [median] never returns: the sum of
    the ends overflows, the midpoint is [+inf], every value is below it,
    and from then on the interval is [1e308, +inf], of infinite width and
    with [+inf] as its midpoint again. *)
Theorem median_diverges_on_overflow fuel :
  median fuel huge_fs "data" = (OutOfFuel : Run F64.f64).
Proof.
  rewrite (median_of_extrema _ _ _ (S754_finite false 5010420900022432 971)
             (S754_finite false 7515631350033648 971)) by by_compute.
  destruct fuel as [|fuel]; [done|].
  rewrite (find_median_step _ _ _ huge_stream) by by_compute.
  replace (converged _ _) with false by by_compute.
  replace (midpoint _ _) with (S754_infinity false : F64.f64) by by_compute.
  rewrite decide_False by by_decide.
  apply (find_median_stuck _ _ _ huge_stream); by_compute.
Qed.

(** C20. The search need not return. On three files [median] is cut by
    every amount of fuel: on [1e16], [1e16 + 2], [1e16 + 2], adjacent
    binary64 numbers further apart than the tolerance, the midpoint rounds
    to the lower end and the interval is never narrowed; on [inf] the
    width of the interval is a NaN; on [1e308], [1.5e308] the sum of the
    ends overflows and the midpoint is [+inf] from then on. *)
Theorem median_diverges fuel :
  median fuel large_fs "data" = (OutOfFuel : Run F64.f64) /\
  median fuel infinity_fs "data" = (OutOfFuel : Run F64.f64) /\
  median fuel huge_fs "data" = (OutOfFuel : Run F64.f64).
Proof.
  auto using median_diverges_on_large_values, median_diverges_on_infinity,
    median_diverges_on_overflow.
Qed.
