(* ===== verification/Report.v ===== *)
(** The report: [main] and its timer [elapsed].

    [main] reads the monotonic clock, runs the statistics one after the
    other on a fixed path and prints a line for each. Here the world of
    [main] is explicit: the readings of the clock, the [static mut X] of
    [elapsed], and the lines printed so far. A line holds the values that
    are printed; their text is in [Format.v]. A program is a function on
    the world that returns a [Run]: it finishes with a value or an error,
    panics, or is cut by the fuel of [median]; after an error or a panic
    nothing more runs. The file ends with the run recorded in the
    source. *)

From Stdlib Require Import ZArith List Lia String SpecFloat.
From stdpp Require Import base tactics option list.
From S2P Require Import Prelude RustStd Float Binary64 Parse Scan Stats Median.

Import ListNotations.

(** [on_values Hstream] rewrites the statistics of a stream without
    failure by their results. *)
Ltac on_values Hstream :=
  rewrite ?(len_Ok _ _ _ Hstream), ?(average_Ok _ _ _ Hstream),
    ?(dispersion_Ok _ _ _ Hstream), ?(tails_Ok _ _ _ Hstream).

(** ** Time

    An [Instant] is a reading of the monotonic clock and a [Duration] a
    difference of two, both in nanoseconds. [Instant::elapsed] is
    [Instant::now() - self], and the difference saturates at zero. *)

Definition Instant : Type := Z.
Definition Duration : Type := Z.

Definition duration_since (later earlier : Instant) : Duration :=
  Z.max 0 (later - earlier).

Section Report.
Context {F : Type} `{FloatOps F} `{FromStr F}.

(** The lines of the report, by their labels. *)
Inductive Line :=
  | LEN (n : Z) (d : Duration)
  | MIN_MAX (extrema : F * F) (d : Duration)
  | AVERAGE (x : F) (d : Duration)
  | DISPERSION (x : F) (d : Duration)
  | MEDIAN (x : F) (d : Duration)
  | LEFT_TAIL (xs : list F) (d : Duration)
  | RIGHT_TAIL (xs : list F)
  | TIME_TOOK (d : Duration).

(** The world: [clock i] is what the [i]-th call of [Instant::now]
    returns, [reads] counts the calls made, [X] is the static of
    [elapsed] and [stdout] the lines printed, oldest first. *)
Record World := mkWorld {
  clock : nat -> Instant;
  reads : nat;
  X : option Instant;
  stdout : list Line;
}.

Definition Prog (A : Type) : Type := World -> Run A * World.

Definition ret {A} (a : A) : Prog A := fun w => (Finished (Ok a), w).

Definition bind {A B} (m : Prog A) (k : A -> Prog B) : Prog B :=
  fun w =>
    match m w with
    | (Finished (Ok a), w') => k a w'
    | (Finished (Err e), w') => (Finished (Err e), w')
    | (Panicked msg, w') => (Panicked msg, w')
    | (OutOfFuel, w') => (OutOfFuel, w')
    end.

(** [r?] in [main], and a call that may panic or not return. *)
Definition try {A} (r : Result A) : Prog A := fun w => (Finished r, w).
Definition call {A} (r : Run A) : Prog A := fun w => (r, w).

Definition Instant_now : Prog Instant :=
  fun w => (Finished (Ok (clock w (reads w))),
            mkWorld (clock w) (S (reads w)) (X w) (stdout w)).

Definition println (l : Line) : Prog unit :=
  fun w => (Finished (Ok tt),
            mkWorld (clock w) (reads w) (X w) (stdout w ++ [l])).

(** The two accesses to the static of [elapsed]. *)
Definition get_X : Prog (option Instant) := fun w => (Finished (Ok (X w)), w).
Definition set_X (t : Instant) : Prog unit :=
  fun w => (Finished (Ok tt), mkWorld (clock w) (reads w) (Some t) (stdout w)).

Notation "x <- m ;; k" := (bind m (fun x => k))
  (at level 100, m at next level, right associativity,
   format "'[v' x  '<-'  m  ;; '/' k ']'").
Notation "m ;;; k" := (bind m (fun _ => k))
  (at level 100, right associativity).

(** [Instant::elapsed]. *)
Definition Instant_elapsed (t : Instant) : Prog Duration :=
  now <- Instant_now ;;
  ret (duration_since now t).

(** [elapsed]: the time since the previous call ended, or since the
    beginning of this call when it is the first. *)
Definition elapsed : Prog Duration :=
  x <- get_X ;;
  x <- match x with
       | None => now <- Instant_now ;; set_X now ;;; ret now
       | Some x => ret x
       end ;;
  d <- Instant_elapsed x ;;
  now <- Instant_now ;;
  set_X now ;;;
  ret d.

Definition filename : string := "testdata/bigfile.txt".

(** The bound [main] passes to [tails]. *)
Definition tail_bound : nat := Z.to_nat 10000.

Definition main (fuel : nat) (fs : FileSystem) : Prog unit :=
  start_time <- Instant_now ;;
  elapsed ;;;
  n <- try (len fs filename) ;;
  d <- elapsed ;;
  println (LEN n d) ;;;
  extrema <- try (min_max fs filename) ;;
  extrema <- call (expect extrema "no values") ;;
  d <- elapsed ;;
  println (MIN_MAX extrema d) ;;;
  x <- try (average fs filename) ;;
  d <- elapsed ;;
  println (AVERAGE x d) ;;;
  x <- try (dispersion fs filename) ;;
  d <- elapsed ;;
  println (DISPERSION x d) ;;;
  x <- call (median fuel fs filename) ;;
  d <- elapsed ;;
  println (MEDIAN x d) ;;;
  tl <- try (tails fs filename tail_bound) ;;
  d <- elapsed ;;
  println (LEFT_TAIL (take 10 tl.1) d) ;;;
  println (RIGHT_TAIL (take 10 (reverse tl.2))) ;;;
  d <- Instant_elapsed start_time ;;
  println (TIME_TOOK d) ;;;
  ret tt.

(** ** The monad laws, pointwise *)

Lemma bind_ret_l {A B} (a : A) (k : A -> Prog B) w : bind (ret a) k w = k a w.
Proof. reflexivity. Qed.

Lemma bind_ret_r {A} (m : Prog A) w : bind m ret w = m w.
Proof. unfold bind, ret. by destruct (m w) as [[[]| |] ?]. Qed.

Lemma bind_assoc {A B C} (m : Prog A) (k : A -> Prog B) (h : B -> Prog C) w :
  bind (bind m k) h w = bind m (fun a => bind (k a) h) w.
Proof. unfold bind. by destruct (m w) as [[[]| |] ?]. Qed.

(** ** The timer *)

(** What [elapsed] returns and leaves. On its first call it reads the
    clock three times and returns the time between the first two readings;
    on a later call it reads the clock twice and returns the time from the
    last reading of the previous call to its own first. Either way the
    static [X] is left holding its last reading, and nothing is printed. *)
Theorem elapsed_spec w :
  elapsed w =
    let n := reads w in
    match X w with
    | None =>
        (Finished (Ok (duration_since (clock w (S n)) (clock w n))),
         mkWorld (clock w) (3 + n) (Some (clock w (2 + n)%nat)) (stdout w))
    | Some x =>
        (Finished (Ok (duration_since (clock w n) x)),
         mkWorld (clock w) (2 + n) (Some (clock w (S n))) (stdout w))
    end.
Proof. destruct w as [c n [x|] out]; reflexivity. Qed.

(** The clock is monotonic. *)
Definition monotone (c : nat -> Instant) : Prop :=
  forall i j, (i <= j)%nat -> c i <= c j.

Lemma duration_since_monotone c i j :
  monotone c -> (i <= j)%nat -> duration_since (c j) (c i) = c j - c i.
Proof. intros Hc Hij. unfold duration_since. specialize (Hc i j Hij). lia. Qed.

(** ** The report of a complete run *)

(** The head of the prefix and of the reversed window, for a bound of at
    least ten, are those of the file and of the reversed file. *)
Lemma left_tail_head (k : nat) (xs : list F) :
  (10 <= k)%nat -> take 10 (take k xs) = take 10 xs.
Proof. intros Hk. rewrite take_take. f_equal. lia. Qed.

Lemma right_tail_head (k : nat) (xs : list F) :
  (10 <= k)%nat ->
  take 10 (reverse (drop (length xs - k) xs)) = take 10 (reverse xs).
Proof.
  intros Hk. rewrite reverse_drop, take_take.
  destruct (decide (length xs <= 10)%nat).
  - rewrite !take_ge by (rewrite length_reverse; lia). done.
  - f_equal. lia.
Qed.

Lemma tail_bound_ge : (10 <= tail_bound)%nat.
Proof. unfold tail_bound. lia. Qed.

(** The lines of a complete run that starts when the clock has been read
    [n] times: each phase is timed from the end of the previous call of
    [elapsed] to the beginning of its own. *)
Definition report (c : nat -> Instant) (n : nat) (xs : list F)
    (extrema : F * F) (med : F) : list Line :=
  let d i := duration_since (c (i + n)%nat) (c (i - 1 + n)%nat) in
  [ LEN (count_u64 xs) (d 4%nat);
    MIN_MAX extrema (d 6%nat);
    AVERAGE (mean xs) (d 8%nat);
    DISPERSION (variance xs) (d 10%nat);
    MEDIAN med (d 12%nat);
    LEFT_TAIL (take 10 xs) (d 14%nat);
    RIGHT_TAIL (take 10 (reverse xs));
    TIME_TOOK (duration_since (c (16 + n)%nat) (c n)) ].

(** The time a line reports for its phase, and the total of a report. *)
Definition phase_time (l : Line) : Duration :=
  match l with
  | LEN _ d | MIN_MAX _ d | AVERAGE _ d | DISPERSION _ d | MEDIAN _ d
  | LEFT_TAIL _ d => d
  | RIGHT_TAIL _ | TIME_TOOK _ => 0
  end.

Definition time_took (l : Line) : Duration :=
  match l with TIME_TOOK d => d | _ => 0 end.

Definition sum_of (f : Line -> Duration) (out : list Line) : Duration :=
  fold_right (fun l s => f l + s) 0 out.

(** [main] on a world that has not run [elapsed] yet, by the outcome of
    the statistics. *)
Lemma main_run fuel fs w :
  X w = None ->
  main fuel fs w =
    let c := clock w in let n := reads w in
    let world k x out := mkWorld c (k + n) (Some (c (x + n)%nat)) out in
    let d i := duration_since (c (i + n)%nat) (c (i - 1 + n)%nat) in
    let o0 := stdout w in
    match len fs filename with
    | Err e => (Finished (Err e), world 4%nat 3%nat o0)
    | Ok count =>
    let o1 := o0 ++ [LEN count (d 4%nat)] in
    match min_max fs filename with
    | Err e => (Finished (Err e), world 6%nat 5%nat o1)
    | Ok None => (Panicked "no values", world 6%nat 5%nat o1)
    | Ok (Some extrema) =>
    let o2 := o1 ++ [MIN_MAX extrema (d 6%nat)] in
    match average fs filename with
    | Err e => (Finished (Err e), world 8%nat 7%nat o2)
    | Ok avg =>
    let o3 := o2 ++ [AVERAGE avg (d 8%nat)] in
    match dispersion fs filename with
    | Err e => (Finished (Err e), world 10%nat 9%nat o3)
    | Ok var =>
    let o4 := o3 ++ [DISPERSION var (d 10%nat)] in
    match median fuel fs filename with
    | Finished (Err e) => (Finished (Err e), world 12%nat 11%nat o4)
    | Panicked msg => (Panicked msg, world 12%nat 11%nat o4)
    | OutOfFuel => (OutOfFuel, world 12%nat 11%nat o4)
    | Finished (Ok med) =>
    let o5 := o4 ++ [MEDIAN med (d 12%nat)] in
    match tails fs filename tail_bound with
    | Err e => (Finished (Err e), world 14%nat 13%nat o5)
    | Ok tl =>
      (Finished (Ok tt),
       world 17%nat 15%nat
         (((o5 ++ [LEFT_TAIL (take 10 tl.1) (d 14%nat)])
               ++ [RIGHT_TAIL (take 10 (reverse tl.2))])
               ++ [TIME_TOOK (duration_since (c (16 + n)%nat) (c n))]))
    end end end end end end.
Proof.
  destruct w as [c n x out]. simpl. intros ->. unfold main.
  destruct (len fs filename) as [count|e]; [|reflexivity].
  destruct (min_max fs filename) as [[extrema|]|e]; [|reflexivity..].
  destruct (average fs filename) as [avg|e]; [|reflexivity].
  destruct (dispersion fs filename) as [var|e]; [|reflexivity].
  destruct (median fuel fs filename) as [[med|e]|msg|]; [|reflexivity..].
  destruct (tails fs filename tail_bound) as [tl|e]; reflexivity.
Qed.


Section OnValues.
Context (fuel : nat) fs xs (Hstream : @stream F _ fs filename = (xs, Ok tt)).
Context (w : World) (HX : X w = None).

(** C8. On a file whose tokens all parse, with extrema and a median search
    that returns, [main] started before any call of [elapsed] finishes with
    [Ok(())] after printing the eight lines of [report]: the count, the
    extrema, the mean, the variance and the median as the statistics
    return them, the first ten values, the last ten values most recent
    first, each phase with the time between two calls of [elapsed], and the
    total time; it reads the clock seventeen times. *)
Theorem main_report extrema med :
  min_max fs filename = Ok (Some extrema) ->
  median fuel fs filename = Finished (Ok med) ->
  main fuel fs w =
    (Finished (Ok tt),
     mkWorld (clock w) (17 + reads w) (Some (clock w (15 + reads w)%nat))
       (stdout w ++ report (clock w) (reads w) xs extrema med)).
Proof.
  intros Hmm Hmed. rewrite (main_run _ _ _ HX). on_values Hstream. rewrite Hmm, Hmed.
  simpl fst; simpl snd.
  rewrite left_tail_head, right_tail_head by apply tail_bound_ge.
  unfold report. by rewrite <- !app_assoc.
Qed.

(** C35. When the median search does not return, [main] does not either:
    it has printed the four lines before [MEDIAN] and nothing else. *)
Theorem main_hangs extrema :
  min_max fs filename = Ok (Some extrema) ->
  median fuel fs filename = OutOfFuel ->
  (main fuel fs w).1 = OutOfFuel /\
  stdout (main fuel fs w).2 =
    stdout w ++ take 4 (report (clock w) (reads w) xs extrema extrema.1).
Proof.
  intros Hmm Hmed. rewrite (main_run _ _ _ HX). on_values Hstream. rewrite Hmm, Hmed.
  simpl. by rewrite <- !app_assoc.
Qed.

(** C32. With a monotonic clock the times the six timed lines of a complete
    report show add up to at most the total the last line shows: the
    phases do not overlap. *)
Theorem main_time_accounting extrema med :
  monotone (clock w) ->
  stdout w = [] ->
  min_max fs filename = Ok (Some extrema) ->
  median fuel fs filename = Finished (Ok med) ->
  let out := stdout (main fuel fs w).2 in
  sum_of phase_time out <= sum_of time_took out.
Proof.
  intros Hc Hout Hmm Hmed. rewrite (main_run _ _ _ HX). on_values Hstream.
  rewrite Hmm, Hmed, Hout. simpl.
  rewrite !duration_since_monotone by (done || lia).
  pose proof (fun i j => Hc (i + reads w)%nat (j + reads w)%nat) as Hm.
  pose proof (Hm 0 3 ltac:(lia))%nat; pose proof (Hm 4 5 ltac:(lia))%nat;
  pose proof (Hm 6 7 ltac:(lia))%nat; pose proof (Hm 8 9 ltac:(lia))%nat;
  pose proof (Hm 10 11 ltac:(lia))%nat; pose proof (Hm 12 13 ltac:(lia))%nat;
  pose proof (Hm 14 16 ltac:(lia))%nat. simpl in *. lia.
Qed.

End OnValues.

(** C33. When the file cannot be opened or read, or a token does not parse,
    [main] returns that error from its first statistic and prints
    nothing. *)
Theorem main_fails fuel fs xs e w :
  @stream F _ fs filename = (xs, Err e) ->
  X w = None ->
  (main fuel fs w).1 = Finished (Err e) /\ stdout (main fuel fs w).2 = stdout w.
Proof.
  intros Hs HX. by rewrite (main_run _ _ _ HX), (len_failure _ _ _ _ Hs).
Qed.

(** C34. On a file without tokens [main] prints the line [LEN 0] and then
    panics with the message of its own [expect], ["no values"]: the
    [expect] of [median] is not reached from [main]. *)
Theorem main_empty_panics fuel fs w :
  @stream F _ fs filename = ([], Ok tt) ->
  X w = None ->
  (main fuel fs w).1 = Panicked "no values" /\
  exists d, stdout (main fuel fs w).2 = stdout w ++ [LEN 0 d].
Proof.
  intros Hs HX.
  rewrite (main_run _ _ _ HX), (len_Ok _ _ _ Hs), (min_max_Ok _ _ _ Hs).
  simpl. eauto.
Qed.

End Report.

(** ** The theorems on sample files

    The world at the start of the program, with a clock that advances by a
    microsecond per reading, and the files of [Scan.v] and [Median.v] under
    the path [main] reads. *)

Definition boot : @World F64.f64 :=
  mkWorld (fun i => 1000 * Z.of_nat i) 0 None [].

Lemma boot_monotone : monotone (clock boot).
Proof. intros i j Hij. simpl. lia. Qed.

Definition big_fs : FileSystem := one_file filename "1 2 3 4 5".
Definition big_extrema : F64.f64 * F64.f64 :=
  (S754_finite false 4503599627370496 (-52),
   S754_finite false 5629499534213120 (-50)).

Lemma big_stream : stream big_fs filename = (sample_values, Ok tt).
Proof. by_compute. Qed.
Lemma big_min_max : min_max big_fs filename = Ok (Some big_extrema).
Proof. by_compute. Qed.
Lemma big_median : median 13 big_fs filename = Finished (Ok sample_median).
Proof. by_compute. Qed.

Lemma main_report_witness :
  main 13 big_fs boot =
    (Finished (Ok tt),
     mkWorld (clock boot) 17 (Some (clock boot 15%nat))
       (report (clock boot) 0 sample_values big_extrema sample_median)).
Proof.
  exact (main_report 13 big_fs sample_values big_stream boot eq_refl
           big_extrema sample_median big_min_max big_median).
Defined.

Lemma main_time_accounting_witness :
  let out := stdout (main 13 big_fs boot).2 in
  sum_of phase_time out <= sum_of time_took out.
Proof.
  exact (main_time_accounting 13 big_fs sample_values big_stream boot eq_refl
           big_extrema sample_median boot_monotone eq_refl big_min_max
           big_median).
Defined.

Definition inf_fs : FileSystem := one_file filename "inf".
Definition inf_extrema : F64.f64 * F64.f64 :=
  (S754_infinity false, S754_infinity false).

Lemma inf_stream : stream inf_fs filename = ([S754_infinity false], Ok tt).
Proof. by_compute. Qed.
Lemma inf_min_max : min_max inf_fs filename = Ok (Some inf_extrema).
Proof. by_compute. Qed.
Lemma inf_median : median 5 inf_fs filename = (OutOfFuel : Run F64.f64).
Proof. by_compute. Qed.

Lemma main_hangs_witness :
  (main 5 inf_fs boot).1 = OutOfFuel /\
  stdout (main 5 inf_fs boot).2 =
    [] ++ take 4 (report (clock boot) 0 [S754_infinity false] inf_extrema
                    inf_extrema.1).
Proof.
  exact (main_hangs 5 inf_fs _ inf_stream boot eq_refl inf_extrema
           inf_min_max inf_median).
Defined.

Definition broken_fs : FileSystem := one_file filename "1 2 x 4".

Lemma broken_stream :
  stream broken_fs filename =
    (take 2 sample_values, Err (ParseFloatError Invalid)).
Proof. by_compute. Qed.

Lemma main_fails_witness :
  (main 13 broken_fs boot).1 = Finished (Err (ParseFloatError Invalid)) /\
  stdout (main 13 broken_fs boot).2 = [].
Proof. exact (main_fails 13 broken_fs _ _ boot broken_stream eq_refl). Defined.

Definition blank_fs : FileSystem := one_file filename "".

Lemma blank_stream : @stream F64.f64 _ blank_fs filename = ([], Ok tt).
Proof. by_compute. Qed.

Lemma main_empty_panics_witness :
  (main 13 blank_fs boot).1 = Panicked "no values" /\
  exists d, stdout (main 13 blank_fs boot).2 = [] ++ [LEN 0 d].
Proof. exact (main_empty_panics 13 blank_fs boot blank_stream eq_refl). Defined.

(** ** The run recorded in the source

    The comment that ends [main.rs] is the output of a run of the release
    build on a hundred million values drawn from the chi-squared
    distribution with two degrees of freedom. [recorded_run] is that
    output: the numbers as [parse] reads them (Rust prints an [f64] with
    the digits that read back as the same [f64]; the tails are recorded to
    three decimals) and the times in nanoseconds. *)

Definition recorded_min : F64.f64 := parse_f64 "3.819822494817282e-8".
Definition recorded_max : F64.f64 := parse_f64 "38.67522961537808".
Definition recorded_median : F64.f64 := parse_f64 "1.3862322506737415".

Definition recorded_run : list (@Line F64.f64) :=
  [ LEN 100000000 5617566125;
    MIN_MAX (recorded_min, recorded_max) 5667514542;
    AVERAGE (parse_f64 "2.0001830377823477") 5641533292;
    DISPERSION (parse_f64 "4.000993007496229") 11349637875;
    MEDIAN recorded_median 105734784875;
    LEFT_TAIL (map parse_f64 ["1.287"; "0.302"; "4.401"; "3.905"; "1.648";
                        "0.772"; "0.226"; "6.471"; "1.288"; "0.489"]%string)
              5869579250;
    RIGHT_TAIL (map parse_f64 ["1.638"; "3.549"; "0.326"; "5.515"; "3.336";
                         "2.507"; "4.015"; "0.127"; "1.072"; "2.031"]%string);
    TIME_TOOK 139880641833 ].

(** The verdicts of the sixteen scans of the recorded search, [Less] for a
    verdict that moves the right end ([Less] or [Equal]): the model of
    [find_median] moves the left end exactly when the midpoint is at most
    the value printed. *)
Definition recorded_verdicts : list Ordering :=
  [Less; Less; Less; Less; Greater; Less; Less; Greater;
   Less; Less; Greater; Less; Greater; Greater; Less; Greater].
