(* ===== verification/Termination.v ===== *)
(** The median search returns, in binary64.

    [find_median] halves an interval until its ends are within [0.001] of
    each other. In binary64 the midpoint is rounded twice, the width once,
    and on some files the search never ends ([Scenarios.v]). This file
    proves that it ends on every file whose values are at most [2^32] in
    magnitude: there the sum of the ends is below [2^34], so each rounding
    errs by less than [2^-17], the midpoint of an interval that has not
    converged lies strictly inside it, and each half is at most half the
    interval and [2^-16]. After 44 halvings an interval that started
    narrower than [2^33] has converged: [median] returns within 45 calls.
    The value it returns is at most the lower median and less than
    [0.001 + 2^-17] below it.

    The proofs are on the values of the floats ([val], in [Accuracy.v]);
    the bounds are counted in units of [2^-62], where [0.001] is the
    integer [4611686018427388]. *)

From Stdlib Require Import ZArith List Lia SpecFloat.
From Stdlib Require Import Strings.Byte Strings.String.
From stdpp Require Import base tactics option list.
From S2P Require Import Prelude RustStd Float Binary64 Rounding Accuracy.
From S2P Require Import Parse Scan Stats Median MedianSpec Report.

(** ** The hypothesis on the values *)

(** [2^32], the bound on the magnitude of the values. *)
Definition bound : F64.f64 := S754_finite false 4503599627370496 (-20).

Definition small (x : F64.f64) : bool := F64.le (F64.abs x) bound.

(** The value of [2^-62], in which the bounds are counted. *)
Definition unit62 : Z := 2 ^ (vscale - 62).

Lemma unit62_pos : 0 < unit62.
Proof. by apply pow2_pos. Qed.

Lemma val_bound : val bound = 2 ^ 94 * unit62.
Proof. by_compute. Qed.

Lemma val_tol : val F64.tol = 4611686018427388 * unit62.
Proof. by_compute. Qed.

Lemma wf_bound : wf bound = true.
Proof. by_compute. Qed.

Lemma wf_tol : wf F64.tol = true.
Proof. by_compute. Qed.

Lemma small_val x :
  valid x = true -> small x = true -> wf x = true /\ Z.abs (val x) <= 2 ^ 94 * unit62.
Proof.
  intros Hv Hs. assert (wf x = true) as Hwf.
  { unfold wf. rewrite Hv, andb_true_r. by destruct x as [|[]| |]. }
  split; [done|]. destruct (abs_val x Hwf) as [Ha <-]. rewrite <- val_bound.
  by apply le_val; [|apply wf_bound|].
Qed.

(** ** One step of the search

    The ends of an interval of the search: well-formed, in order and at
    most [2^32] in magnitude. *)
Definition Inv (l r : F64.f64) : Prop :=
  wf l = true /\ wf r = true /\
  - (2 ^ 94 * unit62) <= val l /\ val l <= val r /\ val r <= 2 ^ 94 * unit62.

Lemma midpoint_val l r :
  Inv l r ->
  wf (midpoint l r) = true /\
  Z.abs (2 * val (midpoint l r) - (val l + val r)) < 2 ^ 47 * unit62.
Proof.
  intros (Hl & Hr & Hlo & Hlr & Hhi). pose proof unit62_pos.
  unfold midpoint. simpl.
  destruct (add_val 34 ltac:(done) ltac:(done) r l Hr Hl) as [Hs Hse].
  { replace (2 ^ (34 + vscale)) with (2 ^ 96 * unit62) by by_compute. lia. }
  replace (2 * 2 ^ (34 - 52 + vscale)) with (2 ^ 45 * unit62) in Hse by by_compute.
  destruct (half_val 34 (F64.add r l) ltac:(done) ltac:(done) Hs) as [Hm Hme].
  { replace (2 ^ (34 + vscale)) with (2 ^ 96 * unit62) by by_compute. lia. }
  replace (4 * 2 ^ (34 - 52 + vscale)) with (2 ^ 46 * unit62) in Hme by by_compute.
  split; [done|]. lia.
Qed.

Lemma converged_val l r :
  Inv l r ->
  (converged l r = true <-> Z.abs (val (F64.sub l r)) <= 4611686018427388 * unit62) /\
  Z.abs (val (F64.sub l r) - (val l - val r)) < 2 ^ 45 * unit62.
Proof.
  intros (Hl & Hr & Hlo & Hlr & Hhi). pose proof unit62_pos.
  destruct (sub_val 34 ltac:(done) ltac:(done) l r Hl Hr) as [Hs Hse].
  { replace (2 ^ (34 + vscale)) with (2 ^ 96 * unit62) by by_compute. lia. }
  replace (2 * 2 ^ (34 - 52 + vscale)) with (2 ^ 45 * unit62) in Hse by by_compute.
  split; [|done]. destruct (abs_val _ Hs) as [Ha Hv].
  unfold converged. simpl. rewrite (le_val _ _ Ha wf_tol), Hv, val_tol. done.
Qed.

(** An interval narrower than [0.001 - 2^-17] has converged; one that has
    not converged is wider than that. *)
Lemma converged_narrow l r :
  Inv l r -> val r - val l <= (4611686018427388 - 2 ^ 45) * unit62 ->
  converged l r = true.
Proof.
  intros HI Hw. destruct (converged_val l r HI) as [Hc He].
  destruct HI as (_ & _ & _ & ? & _). apply Hc. lia.
Qed.

Lemma not_converged_wide l r :
  Inv l r -> converged l r = false ->
  (4611686018427388 - 2 ^ 45) * unit62 < val r - val l.
Proof.
  intros HI Hn. destruct (Z.lt_ge_cases ((4611686018427388 - 2 ^ 45) * unit62) (val r - val l));
    [done|]. by rewrite converged_narrow in Hn.
Qed.

(** The midpoint of an interval that has not converged is strictly inside
    it, and each half is at most half the interval and [2^-16]. *)
Lemma midpoint_inside l r :
  Inv l r -> converged l r = false ->
  Inv l (midpoint l r) /\ Inv (midpoint l r) r /\
  2 * (val (midpoint l r) - val l) < (val r - val l) + 2 ^ 47 * unit62 /\
  2 * (val r - val (midpoint l r)) < (val r - val l) + 2 ^ 47 * unit62.
Proof.
  intros HI Hn. pose proof (not_converged_wide l r HI Hn).
  destruct (midpoint_val l r HI) as [Hm He].
  destruct HI as (Hl & Hr & Hlo & Hlr & Hhi). pose proof unit62_pos.
  unfold Inv. repeat split; try done; lia.
Qed.

(** ** The search returns *)

Section Terminates.
Context fs filename (xs : list F64.f64)
  (Hstream : stream fs filename = (xs, Ok tt))
  (Hlen : Z.of_nat (length xs) < i64_MAX).

(** What a search returns: a value [v] with an end [r], the two of them an
    interval of the search that has converged and that the verdicts have
    led to. *)
Definition Found (l r v : F64.f64) : Prop :=
  exists r', Inv v r' /\ converged v r' = true /\
    (v = l \/ more_above xs v) /\ (r' = r \/ ~ more_above xs r') /\
    val l <= val v.

Lemma find_median_terminates n l r :
  Inv l r ->
  val r - val l <= (2 ^ 47 + 2 ^ Z.of_nat n * 2 ^ 51) * unit62 ->
  exists v, find_median (S n) fs filename l r = Finished (Ok v) /\ Found l r v.
Proof.
  revert l r. induction n as [|n IH]; intros l r HI Hw;
    rewrite (find_median_step _ _ _ Hstream Hlen).
  { assert (converged l r = true) as Hc.
    { apply converged_narrow; [done|]. pose proof unit62_pos.
      change (2 ^ Z.of_nat 0) with 1 in Hw. lia. }
    rewrite Hc. exists l. split; [done|]. exists r. split_and!; auto; lia. }
  destruct (converged l r) eqn:Hc;
    [exists l; split; [done|exists r; split_and!; auto; lia]|].
  destruct (midpoint_inside l r HI Hc) as (HIl & HIr & Hwl & Hwr).
  rewrite Nat2Z.inj_succ, Z.pow_succ_r in Hw by lia.
  case_decide as Hd.
  - destruct (IH _ _ HIr) as (v & Hv & r' & ? & ? & Hl & ? & ?); [lia|].
    destruct HIl as (_ & _ & _ & ? & _).
    exists v. split; [done|]. exists r'. split_and!; [done..| |done|lia].
    destruct Hl as [-> | ?]; auto.
  - destruct (IH _ _ HIl) as (v & Hv & r' & ? & ? & ? & Hr & ?); [lia|].
    exists v. split; [done|]. exists r'. split_and!; [done..| |done].
    destruct Hr as [-> | ?]; auto.
Qed.

End Terminates.

(** ** [median] on a file of values of magnitude at most [2^32] *)

Section Median64.
Context fs filename (xs : list F64.f64)
  (Hstream : stream fs filename = (xs, Ok tt))
  (Hlen : Z.of_nat (length xs) < i64_MAX)
  (Hne : xs <> [])
  (Hsmall : Forall (fun x => small x = true) xs).

Lemma stream_small_val x :
  x ∈ xs -> wf x = true /\ Z.abs (val x) <= 2 ^ 94 * unit62.
Proof.
  intros Hx. apply small_val.
  - pose proof (values_valid _ _ _ _ Hstream) as Hv. by eapply Forall_forall in Hv.
  - by eapply Forall_forall in Hsmall.
Qed.

Lemma stream_ordered : Forall ordered xs.
Proof.
  apply Forall_forall. intros x [Hwf _]%stream_small_val.
  by apply ordered_is_nan, wf_not_nan.
Qed.

Lemma extrema_Inv lo hi :
  min_max fs filename = Ok (Some (lo, hi)) -> Inv lo hi.
Proof.
  rewrite (min_max_Ok _ _ _ Hstream). intros [= Hz].
  apply extrema_bounds in Hz as (Hlo & Hhi & _ & Hub).
  destruct (stream_small_val lo Hlo) as [Hwl Hbl].
  destruct (stream_small_val hi Hhi) as [Hwh Hbh].
  assert (val lo <= val hi).
  { apply le_val; [done..|]. apply (Hub lo Hlo).
    by apply ordered_is_nan, wf_not_nan. }
  unfold Inv. repeat split; [done..|lia|done|lia].
Qed.

Lemma min_max_Some : exists lo hi, min_max fs filename = Ok (Some (lo, hi)).
Proof.
  rewrite (min_max_Ok _ _ _ Hstream).
  destruct (Option_zip _ _) as [[lo hi]|] eqn:Hz; [by exists lo, hi|].
  by apply extrema_None in Hz.
Qed.

Lemma median_returns64 :
  exists lo hi v, min_max fs filename = Ok (Some (lo, hi)) /\
    median 45 fs filename = Finished (Ok v) /\ Found xs lo hi v.
Proof.
  destruct min_max_Some as (lo & hi & Hmm). exists lo, hi.
  rewrite (median_of_extrema _ _ _ _ _ Hmm).
  destruct (find_median_terminates _ _ _ Hstream Hlen 44 lo hi) as [v Hv];
    [by apply extrema_Inv| |by exists v].
  destruct (extrema_Inv _ _ Hmm) as (_ & _ & ? & ? & ?). pose proof unit62_pos.
  change (2 ^ Z.of_nat 44) with (2 ^ 44). lia.
Qed.

(** What is found from the extrema is within the tolerance, and [2^-17],
    below the lower median, and not below the minimum. *)
Lemma Found_sound lo hi v :
  min_max fs filename = Ok (Some (lo, hi)) -> Found xs lo hi v ->
  exists m, lower_median xs = Some m /\ wf v = true /\
    val lo <= val v <= val m /\ val m <= val hi /\
    val m - val v < val F64.tol + pval 1 (-17).
Proof.
  intros Hmm (r & HI & Hc & Hl & Hr & Hlv). pose proof (extrema_Inv _ _ Hmm) as HIe.
  rewrite (min_max_Ok _ _ _ Hstream) in Hmm. injection Hmm as Hmm.
  destruct (extrema_enclose_median xs lo hi Hmm stream_ordered)
    as (m & Hm & Hom & Hlo & Hhi).
  destruct (bracket_sound xs m lo hi v r) as [Hvm Hmr]; [done..|].
  destruct (stream_small_val m (lower_median_elem_of _ _ Hm)) as [Hwm _].
  destruct (converged_val v r HI) as [Hcv He]. apply Hcv in Hc.
  destruct HI as (Hwv & Hwr & _).
  apply le_val in Hvm; [|done..]. apply le_val in Hmr; [|done..].
  destruct HIe as (_ & Hwh & _). apply le_val in Hhi; [|done..].
  rewrite val_tol. replace (pval 1 (-17)) with (2 ^ 45 * unit62) by by_compute.
  exists m. split_and!; [done..|lia].
Qed.

End Median64.


(** C12. In binary64 [median] is totally correct on values of moderate
    magnitude: on a file whose tokens all parse, at least one and fewer
    than [i64::MAX] of them, each at most [2^32] in magnitude, [median]
    returns within 45 calls of [find_median]; the value it returns lies
    between the minimum and the lower median of the values, which is at
    most the maximum, and less than [0.001 + 2^-17] below the lower
    median. *)
Theorem median_terminates fs filename xs :
  stream fs filename = (xs, Ok tt) ->
  Z.of_nat (length xs) < i64_MAX ->
  xs <> [] ->
  Forall (fun x => small x = true) xs ->
  exists v m lo hi, median 45 fs filename = Finished (Ok v) /\
    lower_median xs = Some m /\ min_max fs filename = Ok (Some (lo, hi)) /\
    wf v = true /\ val lo <= val v <= val m /\ val m <= val hi /\
    val m - val v < val F64.tol + pval 1 (-17).
Proof.
  intros Hs Hlen Hne Hsm.
  destruct (median_returns64 _ _ _ Hs Hlen Hne Hsm) as (lo & hi & v & Hmm & Hv & Hf).
  destruct (Found_sound _ _ _ Hs Hsm lo hi v Hmm Hf) as (m & Hm & ?).
  by exists v, m, lo, hi.
Qed.

(** ** [main] *)

(** C23. In binary64 [main] completes on values of moderate magnitude: on a
    file of at least one and fewer than [i64::MAX] tokens that all parse,
    each at most [2^32] in magnitude, a run of [main] whose median search
    may make 45 calls finishes with [Ok(())] and has printed the eight
    lines of the report. *)
Theorem main_completes_binary64 fs xs w :
  stream fs Report.filename = (xs, Ok tt) ->
  Z.of_nat (length xs) < i64_MAX ->
  xs <> [] ->
  Forall (fun x => small x = true) xs ->
  X w = None ->
  exists extrema v,
    (main 45 fs w).1 = Finished (Ok tt) /\
    stdout (main 45 fs w).2 =
      stdout w ++ report (clock w) (reads w) xs extrema v.
Proof.
  intros Hstream Hlen Hne Hsmall HX.
  destruct (median_returns64 _ _ _ Hstream Hlen Hne Hsmall)
    as (lo & hi & v & Hmm & Hv & _).
  exists (lo, hi), v. rewrite (main_run _ _ _ HX). on_values Hstream.
  rewrite Hmm, Hv. simpl.
  rewrite left_tail_head, right_tail_head by apply tail_bound_ge.
  unfold report. by rewrite <- !app_assoc.
Qed.

(** ** Files of natural numbers *)

(** The text of a natural number that is at most [2^32]. *)
Definition small_natural (tok : list byte) : Prop := natural_below 32 tok.

#[export] Instance small_natural_dec tok : Decision (small_natural tok).
Proof. unfold small_natural. apply _. Defined.

Lemma small_cast_u64 n : 0 <= n <= 2 ^ 32 -> small (F64.cast_u64 n) = true.
Proof.
  intros Hn. destruct (cast_u64_exact n ltac:(lia)) as [Hwf Hv].
  destruct (abs_val _ Hwf) as [Hwa Ha]. unfold small.
  apply le_val; [done|apply wf_bound|]. rewrite Ha, Hv, val_bound. unfold pval.
  replace (2 ^ (0 + vscale)) with (2 ^ 62 * unit62) by by_compute.
  pose proof unit62_pos. nia.
Qed.

(** C21. From the bytes to the median: on a file of non-empty strings of
    decimal digits joined by single spaces, each denoting an integer of at
    most [2^32], [median] returns within 45 calls of [find_median] a value
    that is at most the lower median of these integers, and less than
    [0.001 + 2^-17] below it. *)
Theorem median_of_naturals fs filename r (tokens : list (list byte)) :
  fs filename = Some r -> fails r = false ->
  bytes r = join " " tokens ->
  tokens <> [] -> Z.of_nat (length tokens) < i64_MAX ->
  Forall small_natural tokens ->
  exists v m, median 45 fs filename = Finished (Ok v) /\
    lower_median (map (fun tok => F64.cast_u64 (Dec2Flt.decimal_value tok)) tokens)
      = Some m /\
    wf v = true /\ val v <= val m /\ val m - val v < val F64.tol + pval 1 (-17).
Proof.
  intros Hfs Hf Hbs Hne Hlen Htok.
  set (xs := map _ tokens).
  assert (stream fs filename = (xs, Ok tt)) as Hs.
  { apply (stream_of_naturals _ _ _ _ Hfs Hf Hbs).
    eapply Forall_impl; [exact Htok|]. by intros tok (? & ? & ?). }
  assert (Z.of_nat (length xs) < i64_MAX) by (unfold xs; by rewrite length_map).
  assert (xs <> []) by (unfold xs; by destruct tokens).
  assert (Forall (fun x => small x = true) xs) as Hsm.
  { unfold xs. apply Forall_map. eapply Forall_impl; [exact Htok|].
    intros tok (_ & Hd & Hb). simpl. apply small_cast_u64.
    pose proof (decimal_value_nonneg tok Hd). lia. }
  destruct (median_returns64 _ _ _ Hs ltac:(done) ltac:(done) Hsm)
    as (lo & hi & v & Hmm & Hv & Hfd).
  destruct (Found_sound _ _ _ Hs Hsm lo hi v Hmm Hfd) as (m & ? & ? & [_ ?] & _ & ?).
  by exists v, m.
Qed.

(** ** The theorems on sample files *)

Lemma sample_small : Forall (fun x => small x = true) sample_values.
Proof. by_decide. Qed.

Lemma median_terminates_witness :
  exists v m lo hi, median 45 sample_fs "data" = Finished (Ok v) /\
    lower_median sample_values = Some m /\
    min_max sample_fs "data" = Ok (Some (lo, hi)) /\
    wf v = true /\ val lo <= val v <= val m /\ val m <= val hi /\
    val m - val v < val F64.tol + pval 1 (-17).
Proof.
  assert (Hn : Z.of_nat (length sample_values) < i64_MAX) by reflexivity.
  assert (Hne : sample_values <> []) by done.
  exact (median_terminates sample_fs "data" sample_values sample_stream
           Hn Hne sample_small).
Defined.

Lemma main_completes_binary64_witness :
  exists extrema v,
    (main 45 big_fs boot).1 = Finished (Ok tt) /\
    stdout (main 45 big_fs boot).2 =
      stdout boot ++ report (clock boot) (reads boot) sample_values extrema v.
Proof.
  assert (Hn : Z.of_nat (length sample_values) < i64_MAX) by reflexivity.
  assert (Hne : sample_values <> []) by done.
  exact (main_completes_binary64 big_fs sample_values boot big_stream Hn Hne
           sample_small eq_refl).
Defined.

Lemma median_of_naturals_witness :
  exists v m, median 45 counts_fs "data" = Finished (Ok v) /\
    lower_median (map (fun tok => F64.cast_u64 (Dec2Flt.decimal_value tok))
                      counts_tokens) = Some m /\
    wf v = true /\ val v <= val m /\ val m - val v < val F64.tol + pval 1 (-17).
Proof.
  pose proof (median_of_naturals counts_fs "data"
    (Reader (list_byte_of_string "7 0042 4294967296") false) counts_tokens
    eq_refl eq_refl eq_refl) as H.
  assert (Hne : counts_tokens <> []) by done.
  assert (Hn : Z.of_nat (length counts_tokens) < i64_MAX) by reflexivity.
  assert (Hd : Forall small_natural counts_tokens) by by_decide.
  exact (H Hne Hn Hd).
Defined.
