(* ===== verification/Exact.v ===== *)
(** The program over exact arithmetic.

    The statistics are written against the interface of [Float.v], so they
    can be run with the rational numbers in place of [f64]: every operation
    is then exact, no value is a NaN or infinite, and [total_cmp] and [<=]
    are the order of the rationals. This file gives that instance, on the
    canonical rationals [Qc], and proves of it what the specification
    expects of the statistics and what binary64 does not give: the mean
    lies between the extrema, the variance is not negative and is zero on
    a constant stream, and the bisection of [median] returns, after a
    number of steps that the width of the data bounds, a value within the
    tolerance below the lower median.

    The division of [Qc] by zero is zero, so [average] of an empty file is
    [0] here, where binary64 gives a NaN. *)

From Stdlib Require Import ZArith QArith Qcanon Qcabs Lia Lqa List.
From Stdlib Require Import Strings.Byte Strings.String.
From stdpp Require Import base tactics option numbers list.
From S2P Require Import Prelude RustStd Float Parse Scan Stats Median MedianSpec Report.

Import ListNotations.

(** ** The instance *)

Module Exact.

Definition le (x y : Qc) : bool := bool_decide (x <= y)%Qc.

Definition min (x y : Qc) : Qc := if le x y then x else y.
Definition max (x y : Qc) : Qc := if le x y then y else x.

Definition total_cmp (x y : Qc) : Ordering :=
  Ordering_of_comparison (x ?= y)%Qc.

Definition two : Qc := Q2Qc 2.
Definition tol : Qc := Q2Qc (1 # 1000).

Definition cast_u64 (n : Z) : Qc := Q2Qc (inject_Z n).

(** The value [(-1)^neg * m * 10^e] of a decimal literal. *)
Definition dec2q (neg : bool) (m e : Z) : Qc :=
  let q := if 0 <=? e then inject_Z (m * 10 ^ e)
           else Qmake m (Z.to_pos (10 ^ (- e))) in
  Q2Qc (if neg then Qopp q else q).

(** The literals of [Parse.v] that denote a number; ["inf"] and ["nan"]
    denote none. *)
Definition parse (s : list byte) : Result Qc :=
  match s with
  | [] => Err (ParseFloatError Empty)
  | _ =>
      let '(neg, s1) := Dec2Flt.parse_sign s in
      match Dec2Flt.parse_number s1 with
      | Some (m, e) => Ok (dec2q neg m e)
      | None => Err (ParseFloatError Invalid)
      end
  end.

End Exact.

#[export] Instance Qc_ops : FloatOps Qc := {
  f_zero := Q2Qc 0;
  f_two := Exact.two;
  f_tol := Exact.tol;
  f_add := Qcplus;
  f_sub := Qcminus;
  f_mul := Qcmult;
  f_div := Qcdiv;
  f_abs := Qcabs;
  f_min := Exact.min;
  f_max := Exact.max;
  f_le := Exact.le;
  total_cmp := Exact.total_cmp;
  of_u64 := Exact.cast_u64;
}.

#[export] Instance Qc_from_str : FromStr Qc := Exact.parse.

(** ** Arithmetic on [Qc]

    [qc_lra] and [qc_nra] decide goals of linear and polynomial arithmetic
    on [Qc] by moving the goal and the inequalities among the hypotheses
    to [Q], where the operations are those of the underlying fractions up
    to [==]. *)

Section This.
Local Open Scope Q_scope.
Implicit Types x y : Qc.

Lemma this_Q2Qc (q : Q) : this (Q2Qc q) == q.
Proof. apply Qred_correct. Qed.
Lemma this_plus x y : this (x + y)%Qc == this x + this y.
Proof. apply Qred_correct. Qed.
Lemma this_opp x : this (- x)%Qc == - this x.
Proof. apply Qred_correct. Qed.
Lemma this_minus x y : this (x - y)%Qc == this x - this y.
Proof. unfold Qcminus. by rewrite this_plus, this_opp. Qed.
Lemma this_mult x y : this (x * y)%Qc == this x * this y.
Proof. apply Qred_correct. Qed.
Lemma this_inv x : this (/ x)%Qc == / this x.
Proof. apply Qred_correct. Qed.
Lemma this_div x y : this (x / y)%Qc == this x / this y.
Proof. unfold Qcdiv. by rewrite this_mult, this_inv. Qed.

End This.

Ltac qc_this :=
  repeat first
    [ rewrite this_plus | rewrite this_minus | rewrite this_mult
    | rewrite this_div | rewrite this_opp | rewrite this_Q2Qc ].
Ltac qc_this_in H :=
  repeat first
    [ rewrite this_plus in H | rewrite this_minus in H | rewrite this_mult in H
    | rewrite this_div in H | rewrite this_opp in H | rewrite this_Q2Qc in H ].

Ltac qc_unfold :=
  unfold Exact.two, Exact.tol in *;
  repeat match goal with
    | H : Qcle _ _ |- _ => unfold Qcle in H; qc_this_in H
    | H : Qclt _ _ |- _ => unfold Qclt in H; qc_this_in H
    | H : Qcle _ _ /\ _ |- _ => destruct H
    | H : Qclt _ _ /\ _ |- _ => destruct H
    end;
  try apply Qc_is_canon; unfold Qcle, Qclt; qc_this;
  unfold Qdiv in *; change (/ 2)%Q with (1 # 2)%Q in *.

Ltac qc_lra := qc_unfold; lra.
Ltac qc_nra := qc_unfold; nra.

Local Open Scope Qc_scope.

Lemma le_true x y : Exact.le x y = true <-> x <= y.
Proof. unfold Exact.le. apply bool_decide_eq_true. Qed.

Lemma le_false x y : Exact.le x y = false <-> y < x.
Proof.
  unfold Exact.le. rewrite bool_decide_eq_false. split.
  - apply Qcnot_le_lt.
  - apply Qclt_not_le.
Qed.

Lemma Qc_tlt x y : tlt x y <-> x < y.
Proof.
  unfold tlt. simpl. unfold Exact.total_cmp. rewrite Qclt_alt.
  destruct (x ?= y); simpl; split; congruence.
Qed.

Lemma Qc_tle x y : tle x y <-> x <= y.
Proof.
  unfold tle. simpl. unfold Exact.total_cmp. rewrite Qcle_alt.
  destruct (x ?= y); simpl; split; congruence.
Qed.

Lemma Qc_ordered (x : Qc) : ordered x.
Proof. apply le_true, Qcle_refl. Qed.

#[export] Instance Qc_total_cmp_laws : TotalCmpLaws Qc.
Proof.
  split.
  - intros x. simpl. unfold Exact.total_cmp.
    by rewrite (proj1 (Qceq_alt x x) eq_refl).
  - intros x y. simpl. unfold Exact.total_cmp.
    destruct (x ?= y) eqn:E; simpl; intros; try done. by apply Qceq_alt.
  - intros x y. simpl. unfold Exact.total_cmp, Qccompare.
    rewrite <- (Qcompare_antisym x y). apply Ordering_of_comparison_CompOpp.
  - intros x y z. rewrite !Qc_tlt. apply Qclt_trans.
Qed.

#[export] Instance Qc_order_laws : FloatOrderLaws Qc.
Proof.
  split; try apply _; simpl.
  - intros x y _. split; apply Qc_ordered.
  - intros x y z. rewrite !le_true. apply Qcle_trans.
  - intros x y _ _. rewrite !le_true.
    destruct (Qclt_le_dec x y); [left; by apply Qclt_le_weak|by right].
  - intros x y _ _. by rewrite Qc_tle, le_true.
  - intros x y t _. split; apply Qc_ordered.
  - intros x y _ _. unfold Exact.min.
    destruct (Exact.le x y) eqn:E; rewrite ?le_true; [apply le_true in E|apply le_false in E];
      repeat split; auto using Qcle_refl, Qclt_le_weak.
  - intros x y _ _. unfold Exact.max.
    destruct (Exact.le x y) eqn:E; rewrite ?le_true; [apply le_true in E|apply le_false in E];
      repeat split; auto using Qcle_refl, Qclt_le_weak.
  - intros x y Hx. destruct Hx. apply Qc_ordered.
  - intros x y _ Hy. destruct Hy. apply Qc_ordered.
  - intros x y Hx. destruct Hx. apply Qc_ordered.
  - intros x y _ Hy. destruct Hy. apply Qc_ordered.
Qed.

(** ** Sums and counts *)

(** The number of values as [average] casts it. *)
Definition qn (n : nat) : Qc := Exact.cast_u64 (Z.of_nat n).

Lemma qn_S n : qn (S n) = qn n + 1.
Proof.
  unfold qn, Exact.cast_u64. apply Qc_is_canon. qc_this.
  rewrite Nat2Z.inj_succ, <- Z.add_1_r, inject_Z_plus. reflexivity.
Qed.

Lemma qn_nonneg n : 0 <= qn n.
Proof.
  induction n as [|n IH]; [done|]. rewrite qn_S. qc_lra.
Qed.

Lemma qn_pos n : (0 < n)%nat -> 0 < qn n.
Proof.
  destruct n as [|n]; [lia|]. intros _. rewrite qn_S.
  pose proof (qn_nonneg n). qc_lra.
Qed.

(** The count a scan leaves is the length, for files of fewer than [2^64]
    values. *)
Lemma count_qn (xs : list Qc) :
  (Z.of_nat (length xs) < u64_modulus)%Z ->
  of_u64 (count_u64 xs) = qn (length xs).
Proof.
  intros Hn. unfold count_u64. rewrite wrap_u64_exact; [done|].
  unfold in_u64. lia.
Qed.

(** A sum of values between [lo] and [hi]. *)
Lemma fold_add_bounds lo hi (xs : list Qc) s :
  Forall (fun x => lo <= x /\ x <= hi) xs ->
  s + qn (length xs) * lo <= fold_left Qcplus xs s /\
  fold_left Qcplus xs s <= s + qn (length xs) * hi.
Proof.
  intros Hxs. revert s. induction Hxs as [|x xs [Hlo Hhi] _ IH]; intros s.
  { simpl fold_left. change (qn (length [])) with (Q2Qc 0). split; qc_lra. }
  simpl length. rewrite qn_S. simpl fold_left.
  destruct (IH (s + x)) as [IHlo IHhi]. split; qc_nra.
Qed.

Lemma square_nonneg (x : Qc) : 0 <= x * x.
Proof.
  destruct (Qclt_le_dec x 0) as [Hx|Hx].
  - replace (x * x) with ((- x) * (- x)) by ring.
    apply Qcmult_nonneg_nonneg; qc_lra.
  - by apply Qcmult_nonneg_nonneg.
Qed.

(** A sum of squares is not negative. *)
Lemma fold_squares_nonneg (m : Qc) (xs : list Qc) s :
  0 <= s -> 0 <= fold_left (fun s x => s + (x - m) * (x - m)) xs s.
Proof.
  revert s. induction xs as [|x xs IH]; intros s Hs; [done|].
  simpl. apply IH. apply Qcplus_nonneg_nonneg; [done|apply square_nonneg].
Qed.

Lemma fold_squares_zero (m : Qc) (xs : list Qc) :
  Forall (eq m) xs ->
  fold_left (fun s x => s + (x - m) * (x - m)) xs (Q2Qc 0) = Q2Qc 0.
Proof.
  induction 1 as [|x xs <- _ IH]; [done|]. simpl.
  replace (Q2Qc 0 + (m - m) * (m - m)) with (Q2Qc 0) by ring. done.
Qed.

Lemma div_bounds (s n lo hi : Qc) :
  0 < n -> n * lo <= s -> s <= n * hi -> lo <= s / n /\ s / n <= hi.
Proof.
  intros Hn Hlo Hhi. pose proof (Qcinv_pos _ Hn) as Hi.
  assert (n <> Q2Qc 0) as Hne by (intros ->; qc_lra).
  replace lo with (n * lo / n) by (field; done).
  replace hi with (n * hi / n) by (field; done).
  unfold Qcdiv. split; apply Qcmult_le_mono_nonneg_r; auto using Qclt_le_weak.
Qed.

Lemma div_nonneg (s n : Qc) : 0 <= s -> 0 <= n -> 0 <= s / n.
Proof.
  intros Hs Hn. unfold Qcdiv. apply Qcmult_nonneg_nonneg; [done|].
  destruct (decide (n = Q2Qc 0)) as [->|Hne]; [done|].
  apply Qclt_le_weak, Qcinv_pos.
  apply Qcle_lt_or_eq in Hn as [|<-]; done.
Qed.

(** ** The statistics of a file *)

Section OnValues.
Context `{!FromStr Qc}.
Context fs filename (xs : list Qc)
  (Hstream : stream fs filename = (xs, Ok tt))
  (Hlen : (Z.of_nat (length xs) < i64_MAX)%Z).

Lemma count_qn_file : of_u64 (count_u64 xs) = qn (length xs).
Proof. apply count_qn. int_lia. Qed.

Lemma mean_bounds lo hi :
  xs <> [] -> Forall (fun x => lo <= x /\ x <= hi) xs ->
  lo <= mean xs /\ mean xs <= hi.
Proof.
  intros Hne Hxs. unfold mean, fsum. rewrite count_qn_file. simpl.
  destruct (fold_add_bounds lo hi xs (Q2Qc 0) Hxs) as [Hlo Hhi].
  apply div_bounds; [|qc_lra..].
  apply qn_pos. destruct xs; [done|simpl; lia].
Qed.

(** The extrema [min_max] finds bound every value. *)
Lemma extrema_bound_all lo hi :
  min_max fs filename = Ok (Some (lo, hi)) ->
  xs <> [] /\ lo <= hi /\ Forall (fun x => lo <= x /\ x <= hi) xs.
Proof.
  rewrite (min_max_Ok _ _ _ Hstream). intros [= Hz].
  apply extrema_bounds in Hz as (Hlo & Hhi & Hbl & Hbu).
  assert (forall x, x ∈ xs -> lo <= x /\ x <= hi) as Hall.
  { intros x Hx. split; apply le_true; [apply Hbl|apply Hbu];
      auto using Qc_ordered. }
  repeat split.
  - intros ->. by apply elem_of_nil in Hlo.
  - by apply Hall.
  - by apply Forall_forall.
Qed.

(** In exact arithmetic the mean lies between the extrema: on a file
    whose tokens all parse, with at least one token, [average] returns a
    value between the two values [min_max] returns. *)
Theorem average_between_extrema lo hi :
  min_max fs filename = Ok (Some (lo, hi)) ->
  exists a, average fs filename = Ok a /\ lo <= a /\ a <= hi.
Proof.
  intros (Hne & _ & Hall)%extrema_bound_all. exists (mean xs).
  split; [by apply average_Ok|]. by apply mean_bounds.
Qed.

(** In exact arithmetic the variance is not negative: on a file whose
    tokens all parse [dispersion] returns a value that is at least zero. *)
Theorem dispersion_nonneg :
  exists d, dispersion fs filename = Ok d /\ 0 <= d.
Proof.
  exists (variance xs). split; [by apply dispersion_Ok|].
  unfold variance, fsum_sq. rewrite count_qn_file.
  generalize (mean xs). intros m. simpl.
  apply div_nonneg; [|apply qn_nonneg]. by apply fold_squares_nonneg.
Qed.

(** In exact arithmetic a constant stream has its value as mean and
    zero as variance. *)
Theorem dispersion_constant c :
  xs <> [] -> Forall (eq c) xs ->
  average fs filename = Ok c /\ dispersion fs filename = Ok (Q2Qc 0).
Proof.
  intros Hne Hc.
  assert (mean xs = c) as Hmean.
  { destruct (mean_bounds c c Hne) as [Hlo Hhi].
    - eapply Forall_impl; [exact Hc|]. intros x <-. split; apply Qcle_refl.
    - by apply Qcle_antisym. }
  split; [by rewrite (average_Ok _ _ _ Hstream), Hmean|].
  rewrite (dispersion_Ok _ _ _ Hstream). f_equal.
  unfold variance, fsum_sq. rewrite Hmean. simpl.
  rewrite (fold_squares_zero c xs Hc). unfold Qcdiv. ring.
Qed.

End OnValues.

(** ** The bisection returns

    In exact arithmetic a step of [find_median] halves the width of the
    interval, so an interval of width at most [2^k * 0.001] is searched in
    at most [k + 1] calls. *)

Lemma converged_width (left right : Qc) :
  left <= right -> converged left right = true <-> right - left <= Exact.tol.
Proof.
  intros Hle. unfold converged. simpl. rewrite le_true.
  rewrite Qcabs_diff_Qcle_condition. split; [intros [? ?]|intros ?; split]; qc_lra.
Qed.

Lemma midpoint_between (left right : Qc) :
  left <= right ->
  left <= midpoint left right /\ midpoint left right <= right /\
  right - midpoint left right = (right - left) / Exact.two /\
  midpoint left right - left = (right - left) / Exact.two.
Proof.
  intros Hle. unfold midpoint. simpl. repeat split; qc_lra.
Qed.

Section Bisection.
Context `{!FromStr Qc}.
Context fs filename (xs : list Qc)
  (Hstream : stream fs filename = (xs, Ok tt))
  (Hlen : (Z.of_nat (length xs) < i64_MAX)%Z).

Lemma find_median_returns k left right :
  left <= right ->
  right - left <= Exact.two ^ k * Exact.tol ->
  exists v, find_median (S k) fs filename left right = Finished (Ok v) /\
    left <= v /\ v <= right.
Proof.
  revert left right. induction k as [|k IH]; intros left right Hle Hw;
    rewrite (find_median_step _ _ _ Hstream Hlen).
  { rewrite (proj2 (converged_width _ _ Hle)) by (simpl in Hw; qc_lra).
    exists left. repeat split; [apply Qcle_refl|done]. }
  destruct (converged left right);
    [exists left; repeat split; [apply Qcle_refl|done]|].
  destruct (midpoint_between _ _ Hle) as (Hlo & Hhi & Hr & Hl).
  simpl in Hw. case_decide.
  - destruct (IH (midpoint left right) right Hhi) as (v & Hv & ? & ?).
    { rewrite Hr. qc_lra. }
    exists v. repeat split; [done| |done]. by eapply Qcle_trans.
  - destruct (IH left (midpoint left right) Hlo) as (v & Hv & ? & ?).
    { rewrite Hl. qc_lra. }
    exists v. repeat split; [done..|]. by eapply Qcle_trans.
Qed.

Lemma median_returns k lo hi :
  min_max fs filename = Ok (Some (lo, hi)) ->
  hi - lo <= Exact.two ^ k * Exact.tol ->
  exists v, median (S k) fs filename = Finished (Ok v) /\ lo <= v /\ v <= hi.
Proof.
  intros Hmm Hw. rewrite (median_of_extrema _ _ _ _ _ Hmm).
  apply find_median_returns; [|done].
  by apply (extrema_bound_all _ _ _ Hstream) in Hmm as (_ & ? & _).
Qed.


End Bisection.

(** ** The report *)

Section Main.
Context `{!FromStr Qc}.
Context fs (xs : list Qc)
  (Hstream : stream fs Report.filename = (xs, Ok tt))
  (Hlen : (Z.of_nat (length xs) < i64_MAX)%Z).

(** In exact arithmetic [main] completes: on a file whose tokens all
    parse, fewer than [i64::MAX] of them and at least one, with extrema at
    most [2^k * 0.001] apart, a run of [main] whose median search may make
    [k + 1] calls finishes with [Ok(())] and has printed the eight lines of
    the report. *)
Theorem main_completes k lo hi w :
  X w = None ->
  min_max fs Report.filename = Ok (Some (lo, hi)) ->
  hi - lo <= Exact.two ^ k * Exact.tol ->
  exists v,
    (main (S k) fs w).1 = Finished (Ok tt) /\
    stdout (main (S k) fs w).2 =
      stdout w ++ report (clock w) (reads w) xs (lo, hi) v.
Proof.
  intros HX Hmm Hw.
  destruct (median_returns _ _ _ Hstream Hlen k lo hi Hmm Hw) as (v & Hv & _).
  exists v. rewrite (main_run _ _ _ HX). on_values Hstream. rewrite Hmm, Hv. simpl.
  rewrite left_tail_head, right_tail_head by apply tail_bound_ge.
  unfold report. by rewrite <- !app_assoc.
Qed.

End Main.

(** ** The theorems on sample files *)

Definition exact_values : list Qc := map (fun n => Q2Qc (inject_Z n)) [1; 2; 3; 4; 5]%Z.

Lemma exact_stream : stream sample_fs "data" = (exact_values, Ok tt).
Proof. by_compute. Qed.

Lemma exact_min_max :
  min_max sample_fs "data" = Ok (Some (Q2Qc 1, Q2Qc (inject_Z 5))).
Proof. by_compute. Qed.

Lemma average_between_extrema_witness :
  exists a, average sample_fs "data" = Ok a /\
    Q2Qc 1 <= a /\ a <= Q2Qc (inject_Z 5).
Proof.
  exact (average_between_extrema sample_fs "data" exact_values exact_stream
           eq_refl _ _ exact_min_max).
Defined.

Lemma dispersion_nonneg_witness :
  exists d, dispersion sample_fs "data" = Ok d /\ 0 <= d.
Proof.
  exact (dispersion_nonneg sample_fs "data" exact_values exact_stream eq_refl).
Defined.

Definition sevens_fs : FileSystem := one_file "data" "0.7 0.7 0.7".

Lemma sevens_stream :
  stream sevens_fs "data" = (replicate 3 (Exact.dec2q false 7 (-1)), Ok tt).
Proof. by_compute. Qed.

Lemma dispersion_constant_witness :
  average sevens_fs "data" = Ok (Exact.dec2q false 7 (-1)) /\
  dispersion sevens_fs "data" = Ok (Q2Qc 0).
Proof.
  apply (dispersion_constant sevens_fs "data" _ sevens_stream eq_refl);
    [done|by repeat constructor].
Defined.


Definition exact_boot : @World Qc :=
  mkWorld (fun i => 1000 * Z.of_nat i)%Z 0 None [].

Lemma exact_big_stream : stream big_fs Report.filename = (exact_values, Ok tt).
Proof. by_compute. Qed.

Lemma exact_big_min_max :
  min_max big_fs Report.filename = Ok (Some (Q2Qc 1, Q2Qc (inject_Z 5))).
Proof. by_compute. Qed.

Lemma main_completes_witness :
  exists v,
    (main 13 big_fs exact_boot).1 = Finished (Ok tt) /\
    stdout (main 13 big_fs exact_boot).2 =
      [] ++ report (clock exact_boot) 0 exact_values
              (Q2Qc 1, Q2Qc (inject_Z 5)) v.
Proof.
  apply (main_completes big_fs exact_values exact_big_stream eq_refl 12
           (Q2Qc 1) (Q2Qc (inject_Z 5)) exact_boot eq_refl exact_big_min_max).
  by_decide.
Defined.
