(* ===== verification/Debug.v ===== *)
(** The debug build: the integer operations checked for overflow.

    [RustStd.v] gives the counters the wrap-around of a release build. A
    debug build of the same source panics on an overflow instead. This file
    writes the closures that count with the checked operations
    ([len_step_debug], [average_step_debug], [dispersion_step_debug],
    [is_median_step_debug]), the test of [is_median] with them
    ([verdict_debug]) and the scan with a closure that may panic
    ([for_file_debug]), and shows that below the bounds on the number of
    values no check fails: the debug build returns what the release build
    returns. [min_max] and [tails] do no integer arithmetic. *)

From Stdlib Require Import ZArith List Lia String.
From Stdlib Require Import Strings.Byte.
From stdpp Require Import base tactics option list.
From S2P Require Import Prelude RustStd Float Binary64 Parse Scan Stats Median.

Import ListNotations.

Section Debug.
Context {F : Type} `{FloatOps F} `{FromStr F}.

(** ** The scan with a closure that may panic *)

Fixpoint for_each_debug {St : Type} (action : St -> F -> string + St)
    (items : list (Result (list byte))) (st : St)
  : string + (St * Result unit) :=
  match items with
  | [] => inr (st, Ok tt)
  | data :: items' =>
      match parse_item data with
      | Ok x => then_debug (action st x) (for_each_debug action items')
      | Err e => inr (st, Err e)
      end
  end.

Definition for_file_debug {St : Type} (fs : FileSystem) (filename : string)
    (action : St -> F -> string + St) (st : St)
  : string + (St * Result unit) :=
  match File_open fs filename with
  | Err e => inr (st, Err e)
  | Ok reader => for_each_debug action (split reader " "%byte) st
  end.

(** What a statistic returns in a debug build: the panic, or the result
    read off the final state. *)
Definition finish_debug {St A} (scan : string + (St * Result unit))
    (result : St -> string + A) : Run A :=
  match scan with
  | inl msg => Panicked msg
  | inr (st, Err e) => Finished (Err e)
  | inr (st, Ok _) =>
      match result st with
      | inl msg => Panicked msg
      | inr a => Finished (Ok a)
      end
  end.

(** ** The statistics that count *)

Definition len_step_debug (size : Z) (_ : F) : string + Z :=
  u64_add_debug size 1.

Definition len_debug fs filename : Run Z :=
  finish_debug (for_file_debug fs filename len_step_debug 0) inr.

Definition average_step_debug (st : F * Z) x : string + (F * Z) :=
  let '(sum, len) := st in
  then_debug (u64_add_debug len 1) (fun len' => inr (f_add sum x, len')).

Definition average_debug fs filename : Run F :=
  finish_debug (for_file_debug fs filename average_step_debug (f_zero, 0))
    (fun st => inr (f_div st.1 (of_u64 st.2))).

Definition dispersion_step_debug (x_avr : F) (st : F * Z) x : string + (F * Z) :=
  let '(sum, len) := st in
  then_debug (u64_add_debug len 1)
    (fun len' => inr (f_add sum (powi2 (f_sub x x_avr)), len')).

Definition dispersion_debug fs filename : Run F :=
  match average_debug fs filename with
  | Finished (Ok x_avr) =>
      finish_debug
        (for_file_debug fs filename (dispersion_step_debug x_avr) (f_zero, 0))
        (fun st => inr (f_div st.1 (of_u64 st.2)))
  | r => r
  end.

Definition is_median_step_debug val (st : Z * Z * Z) x : string + (Z * Z * Z) :=
  let '(less, eq, greater) := st in
  match total_cmp x val with
  | Less => then_debug (i64_add_debug less 1) (fun n => inr (n, eq, greater))
  | Equal => then_debug (i64_add_debug eq 1) (fun n => inr (less, n, greater))
  | Greater => then_debug (i64_add_debug greater 1) (fun n => inr (less, eq, n))
  end.

(** The test on the counters: [greater - less], its [abs], then [eq + 1]. *)
Definition verdict_debug (less eq greater : Z) : string + Ordering :=
  then_debug (i64_sub_debug greater less) (fun d =>
  then_debug (i64_abs_debug d) (fun a =>
  then_debug (i64_add_debug eq 1) (fun e =>
  inr (if a <? e then Equal
       else if greater <? less then Less
       else Greater)))).

Definition is_median_debug fs filename val : Run Ordering :=
  finish_debug (for_file_debug fs filename (is_median_step_debug val) (0, 0, 0))
    (fun '(less, eq, greater) => verdict_debug less eq greater).

(** ** Where no check fails, the two builds agree *)

Section Agreement.
Context {St : Type} (action : St -> F -> St) (action_d : St -> F -> string + St).
(** [I n st]: [st] is a state the closure can be in after [n] values. *)
Context (I : nat -> St -> Prop) (N : nat).
Context (Hstep : forall n st x, I n st -> (n < N)%nat ->
           action_d st x = inr (action st x) /\ I (S n) (action st x)).

Lemma for_each_debug_agree items st n :
  I n st -> (n + length (parse_items items).1 <= N)%nat ->
  for_each_debug action_d items st = inr (for_each action items st) /\
  I (n + length (parse_items items).1) (for_each action items st).1.
Proof.
  revert st n. induction items as [|data items IH]; intros st n Hst Hn; simpl.
  { by rewrite Nat.add_0_r. }
  simpl in Hn. destruct (parse_item data) as [x|e]; simpl in *.
  2: { by rewrite Nat.add_0_r. }
  destruct (parse_items items) as [xs r] eqn:Hitems. simpl in *.
  destruct (Hstep n st x Hst) as [-> HI]; [lia|]. simpl.
  replace (n + S (length xs))%nat with (S n + length xs)%nat by lia.
  apply IH; [done|lia].
Qed.

Lemma for_file_debug_agree fs filename st :
  I 0 st -> (length (stream fs filename).1 <= N)%nat ->
  for_file_debug fs filename action_d st = inr (for_file fs filename action st) /\
  I (length (stream fs filename).1) (for_file fs filename action st).1.
Proof.
  unfold for_file_debug, for_file, stream.
  destruct (File_open fs filename) as [reader|e]; [|done].
  intros Hst Hn. by apply (for_each_debug_agree _ st 0%nat).
Qed.

End Agreement.

(** The counter of [len], [average] and [dispersion] after [n] values. *)
Lemma count_step_agree (N n : nat) (c : Z) :
  Z.of_nat N < u64_modulus -> c = Z.of_nat n -> (n < N)%nat ->
  u64_add_debug c 1 = inr (u64_add c 1) /\ u64_add c 1 = Z.of_nat (S n).
Proof.
  intros HN -> Hn. assert (in_u64 (Z.of_nat n + 1)) by (unfold in_u64; lia).
  rewrite u64_add_debug_exact, u64_add_exact by done. split; [done|lia].
Qed.

Section Safe.
Context (fs : FileSystem) (filename : string).
Let N := length (@stream F _ fs filename).1.

Lemma len_debug_safe :
  Z.of_nat N < u64_modulus -> len_debug fs filename = Finished (len fs filename).
Proof.
  intros HN. unfold len_debug, len.
  destruct (for_file_debug_agree len_step len_step_debug
              (fun n st => st = Z.of_nat n) N) with (fs := fs) (filename := filename) (st := 0)
    as [-> _]; [|done|done|].
  - intros n st x Hst Hn. by apply (count_step_agree N).
  - by destruct (for_file _ _ _ _) as [st [[]|e]].
Qed.

Lemma average_debug_safe :
  Z.of_nat N < u64_modulus ->
  average_debug fs filename = Finished (average fs filename).
Proof.
  intros HN. unfold average_debug, average.
  destruct (for_file_debug_agree average_step average_step_debug
              (fun n st => st.2 = Z.of_nat n) N) with (fs := fs) (filename := filename) (st := (f_zero, 0))
    as [-> _]; [|done|done|].
  - intros n [s c] x Hst Hn. simpl in *.
    by destruct (count_step_agree N n c HN Hst Hn) as [-> ->].
  - by destruct (for_file _ _ _ _) as [[s c] [[]|e]].
Qed.

Lemma dispersion_debug_safe :
  Z.of_nat N < u64_modulus ->
  dispersion_debug fs filename = Finished (dispersion fs filename).
Proof.
  intros HN. unfold dispersion_debug, dispersion.
  rewrite average_debug_safe by done.
  destruct (average fs filename) as [x_avr|e]; [|done]. simpl.
  destruct (for_file_debug_agree (dispersion_step x_avr) (dispersion_step_debug x_avr)
              (fun n st => st.2 = Z.of_nat n) N) with (fs := fs) (filename := filename) (st := (f_zero, 0))
    as [-> _]; [|done|done|].
  - intros n [s c] x Hst Hn. simpl in *.
    by destruct (count_step_agree N n c HN Hst Hn) as [-> ->].
  - by destruct (for_file _ _ _ _) as [[s c] [[]|e]].
Qed.

(** The counters of [is_median] after [n] values: none is negative, and
    they add up to [n]. *)
Definition counters_ok (n : nat) (st : Z * Z * Z) : Prop :=
  let '(less, eq, greater) := st in
  0 <= less /\ 0 <= eq /\ 0 <= greater /\ less + eq + greater = Z.of_nat n.

Lemma is_median_step_agree val n st x :
  Z.of_nat N < i64_MAX -> counters_ok n st -> (n < N)%nat ->
  is_median_step_debug val st x = inr (is_median_step val st x) /\
  counters_ok (S n) (is_median_step val st x).
Proof.
  intros HN Hst Hn. destruct st as [[less eq] greater].
  destruct Hst as (? & ? & ? & ?).
  unfold is_median_step_debug, is_median_step.
  destruct (total_cmp x val);
    rewrite i64_add_debug_exact, i64_add_exact by int_lia;
    (split; [done|]); unfold counters_ok; lia.
Qed.

Lemma verdict_debug_agree n less eq greater :
  Z.of_nat n < i64_MAX -> counters_ok n (less, eq, greater) ->
  verdict_debug less eq greater = inr (verdict less eq greater).
Proof.
  intros Hn (? & ? & ? & ?). unfold verdict_debug, verdict.
  rewrite i64_sub_debug_exact, i64_sub_exact by int_lia. simpl.
  rewrite i64_abs_debug_exact, i64_abs_exact by int_lia. simpl.
  by rewrite i64_add_debug_exact, i64_add_exact by int_lia.
Qed.

Lemma is_median_debug_safe val :
  Z.of_nat N < i64_MAX ->
  is_median_debug fs filename val = Finished (is_median fs filename val).
Proof.
  intros HN. unfold is_median_debug, is_median.
  destruct (for_file_debug_agree (is_median_step val) (is_median_step_debug val)
              counters_ok N) with (fs := fs) (filename := filename) (st := (0, 0, 0))
    as [-> Hok]; [|done|done|].
  - intros n st x Hst Hn. by apply is_median_step_agree.
  - destruct (for_file _ _ _ _) as [[[less eq] greater] [[]|e]]; [|done].
    simpl in *. by rewrite (verdict_debug_agree N).
Qed.

(** C18. A debug build is safe below the bounds: on a file of fewer than
    [i64::MAX] values no addition, subtraction or [abs] of [len],
    [average], [dispersion] and [is_median] overflows, so none of them
    panics and each returns what the release build returns. *)
Theorem debug_build_safe val :
  Z.of_nat N < i64_MAX ->
  len_debug fs filename = Finished (len fs filename) /\
  average_debug fs filename = Finished (average fs filename) /\
  dispersion_debug fs filename = Finished (dispersion fs filename) /\
  is_median_debug fs filename val = Finished (is_median fs filename val).
Proof.
  intros HN. assert (Z.of_nat N < u64_modulus) by int_lia.
  auto using len_debug_safe, average_debug_safe, dispersion_debug_safe,
    is_median_debug_safe.
Qed.

End Safe.

End Debug.

(** ** At the bound

    With [i64::MAX] values, all equal to the candidate, [eq + 1] does not
    fit. *)


(** ** The theorems on the sample file *)

Lemma debug_build_safe_witness :
  len_debug sample_fs "data" = Finished (len sample_fs "data") /\
  average_debug sample_fs "data" = Finished (average sample_fs "data") /\
  dispersion_debug sample_fs "data" = Finished (dispersion sample_fs "data") /\
  is_median_debug sample_fs "data" sample_three =
    Finished (is_median sample_fs "data" sample_three).
Proof.
  refine (debug_build_safe sample_fs "data" sample_three _). by vm_compute.
Defined.
